(** * Prepared layers: CRM balance pass, connection retry, usage merge,
      sessionizer and cost model

    A shallow embedding of [prepared_layers/database.py] and
    [prepared_layers/layers/crm.py], of the data-frame merge exercised by
    [tests/test_prepared_layers.py], and of the two components that the
    repository only tests ([hvs/consumer.py], [prepared_layers/layers/cdr.py]).
    Further on: the table creation of [database.py], the request handler of
    [web_app/proxy.py] and the token loop of
    [Scripts/validate_services_in_docs.py].

    Conventions.
    - A Python call either returns or raises: [outcome A].
    - SQL [NULL] is [None]; a nullable column has an [option] type.
    - A [DECIMAL(10,2)] column holds an integer number of hundredths
      (49.00 is [4900]); the exact value of a SQL numeric expression is a
      rational in [Q], and an assignment to the column rounds it to two
      decimals, half away from zero, as PostgreSQL does.  (PostgreSQL keeps
      twelve or more decimals of the two quotients of crm.py before that
      rounding; with the divisors 2^30 and 60 no quotient lies that close
      to a half hundredth without being one, so rounding the exact value
      gives the same hundredths.)
    - SUM is exact (its bigint accumulator over INTEGER values cannot
      overflow below 2^32 rows); the range checks are those of the casts
      and of the columns assigned to.
    - Timestamps are integers (seconds).
    - Logging changes no state and is left out.

    The definitions come first: the code, then the notions the statements
    use and the concrete inputs; the properties follow. *)

From Stdlib Require Import ZArith QArith Qround Qabs List Ascii String Bool Lia Lqa.
Import ListNotations.

Local Open Scope string_scope.
Local Open Scope list_scope.
Local Open Scope Z_scope.

(** ** Calls that return or raise *)

Inductive exn : Type :=
| CouldNotConnect        (* database.py line 25 *)
| InvalidSchemaName      (* CREATE TABLE in a schema that does not exist *)
| UndefinedTable         (* UPDATE / INSERT on a table that does not exist *)
| NotNullViolation       (* NULL in a PRIMARY KEY column *)
| CardinalityViolation   (* ON CONFLICT DO UPDATE hits one row twice *)
| NumericValueOutOfRange (* INTEGER, BIGINT or DECIMAL(10,2) overflow *)
| StringDataRightTruncation (* value too long for VARCHAR(n) *)
| InvalidDatetimeFormat. (* a text that is no timestamp *)

Inductive outcome (A : Type) : Type :=
| Returned (a : A)
| Raised (e : exn).
Arguments Returned {A} a.
Arguments Raised {A} e.

Definition bind {A B} (m : outcome A) (f : A -> outcome B) : outcome B :=
  match m with
  | Returned a => f a
  | Raised e => Raised e
  end.

Notation "x <- m ;; k" := (bind m (fun x => k))
  (at level 61, m at next level, right associativity).

Fixpoint mapM {A B} (f : A -> outcome B) (l : list A) : outcome (list B) :=
  match l with
  | [] => Returned []
  | a :: l' => b <- f a ;; bs <- mapM f l' ;; Returned (b :: bs)
  end.

Fixpoint foldM {A B} (f : A -> B -> outcome A) (l : list B) (a : A) : outcome A :=
  match l with
  | [] => Returned a
  | b :: l' => a' <- f a b ;; foldM f l' a'
  end.

(** ** SQL scalar types *)

Module Sql.

Definition in_int4 (z : Z) : bool := (-2147483648 <=? z) && (z <=? 2147483647).
Definition in_int8 (z : Z) : bool :=
  (-9223372036854775808 <=? z) && (z <=? 9223372036854775807).

(** Assignment to an INTEGER / BIGINT column, and CAST(.. AS INTEGER / BIGINT). *)
Definition integer (z : Z) : outcome Z :=
  if in_int4 z then Returned z else Raised NumericValueOutOfRange.
Definition bigint (z : Z) : outcome Z :=
  if in_int8 z then Returned z else Raised NumericValueOutOfRange.

(** numeric rounding: to the nearest integer, ties away from zero. *)
Definition round_half_away (q : Q) : Z :=
  if Qle_bool 0 q then Qfloor (q + (1 # 2))%Q else Qceiling (q - (1 # 2))%Q.

(** DECIMAL(10,2): ten digits, two of them after the point.  [hundredths]
    is the stored value times 100. *)
Definition decimal_10_2_max : Z := 9999999999.

Definition check_decimal_10_2 (hundredths : Z) : outcome Z :=
  if Z.abs hundredths <=? decimal_10_2_max then Returned hundredths
  else Raised NumericValueOutOfRange.

Definition decimal_10_2 (q : Q) : outcome Z :=
  check_decimal_10_2 (round_half_away (q * 100)%Q).

(** The rational a stored DECIMAL(10,2) stands for. *)
Definition of_hundredths (h : Z) : Q := (inject_Z h / 100)%Q.

(** VARCHAR(n): a longer value is an error unless the excess is all spaces,
    which are cut off. *)
Fixpoint all_spaces (s : string) : bool :=
  match s with
  | EmptyString => true
  | String c s' => Ascii.eqb c " "%char && all_spaces s'
  end.

Definition varchar (n : nat) (v : option string) : outcome (option string) :=
  match v with
  | None => Returned None
  | Some s =>
      if (String.length s <=? n)%nat then Returned (Some s)
      else if all_spaces (substring n (String.length s - n) s)
           then Returned (Some (substring 0 n s))
           else Raised StringDataRightTruncation
  end.

Definition coalesce (v : option Z) (d : Z) : Z :=
  match v with Some z => z | None => d end.

End Sql.

(** ** prepared_layers/database.py *)

Module Database.

(** What [get_db_connection] does besides returning: the attempts it made,
    the errors it logged and the seconds it slept. *)
Record retry_trace : Type := {
  attempts_made : nat;
  errors_logged : list nat;   (* the "attempt k/10" numbers, oldest first *)
  seconds_slept : Z
}.

(** [connect k] tells whether the [psycopg2.connect] call of loop iteration
    [k] returns ([true]) or raises ([false]).  The returned connection is
    named by the iteration that produced it. *)
Fixpoint retry_loop (connect : nat -> bool) (range : list nat) (t : retry_trace)
  : outcome nat * retry_trace :=
  match range with
  | [] => (Raised CouldNotConnect, t)
  | attempt :: rest =>
      let t1 := {| attempts_made := S (attempts_made t);
                   errors_logged := errors_logged t;
                   seconds_slept := seconds_slept t |} in
      if connect attempt then (Returned attempt, t1)
      else retry_loop connect rest
             {| attempts_made := attempts_made t1;
                errors_logged := errors_logged t1 ++ [S attempt];
                seconds_slept := seconds_slept t1 + 5 |}
  end.

Definition get_db_connection (connect : nat -> bool) : outcome nat * retry_trace :=
  retry_loop connect (seq 0 10)
    {| attempts_made := 0; errors_logged := []; seconds_slept := 0 |}.

End Database.

(** ** The analytics database

    The tables the two CRM passes read and write, with the columns of the
    CREATE TABLE statements in crm.py (lines 83-106) and database.py. *)

Module Schema.

(** A row of the production query of crm.py, lines 35-56: one row of [df]
    as [pd.read_sql] returns it. *)
Record crm_record : Type := {
  account_id : option Z;
  owner_name : option string;
  email : option string;
  msisdn : option string;
  device_id : option Z;
  device_name : option string;
  device_type : option string;
  device_os : option string;
  street_address : option string;
  city : option string;
  state : option string;
  postal_code : option string;
  country : option string;
  last_modified : option Z
}.

(** A row of prepared_layers.crm_flattened_balance: the fourteen columns of
    the query and the seven added at crm.py lines 67-73.  The four
    DECIMAL(10,2) columns are in hundredths. *)
Record crm_row : Type := {
  profile : crm_record;
  total_data_bytes : Z;
  data_cost_zar : Z;
  total_call_seconds : Z;
  voice_cost_zar : Z;
  total_cost_zar : Z;
  running_balance_zar : Z;
  created_at : Z
}.

Record cdr_data_row : Type := {
  data_msisdn : option string;
  up_bytes : option Z;
  down_bytes : option Z
}.

Record cdr_voice_row : Type := {
  voice_msisdn : option string;
  call_duration_sec : option Z
}.

(** prepared_layers.cdr_tower_sessions, database.py lines 123-131. *)
Record tower_session : Type := {
  session_msisdn : string;
  tower_id : Z;
  session_start : Z;
  session_end : Z;
  interaction_count : Z
}.

(** prepared_layers.processing_state, database.py lines 238-243: the
    watermark of a layer. *)
Record processing_state_row : Type := {
  layer_name : string;
  last_processed_datetime : option Z;
  last_run_at : Z
}.

Record analytics_db : Type := {
  prepared_layers_schema : bool;          (* CREATE SCHEMA has run *)
  crm_flattened_balance : option (list crm_row);  (* None: no such table *)
  cdr_tower_sessions : list tower_session;
  processing_state : list processing_state_row;
  cdr_data : list cdr_data_row;           (* cdr_data.cdr_data *)
  cdr_voice : list cdr_voice_row          (* cdr_data.cdr_voice *)
}.

Definition with_crm_flattened_balance (t : option (list crm_row)) (db : analytics_db)
  : analytics_db :=
  {| prepared_layers_schema := prepared_layers_schema db;
     crm_flattened_balance := t;
     cdr_tower_sessions := cdr_tower_sessions db;
     processing_state := processing_state db;
     cdr_data := cdr_data db;
     cdr_voice := cdr_voice db |}.


End Schema.

(** ** A psycopg2 connection

    Statements run in a transaction: they change [pending]; [commit] makes
    the pending state durable, [rollback] and [close] drop it. *)

Module Connection.
Import Schema.

Record connection : Type := {
  durable : analytics_db;
  pending : analytics_db
}.

Definition tx (A : Type) : Type := connection -> outcome A * connection.

Definition ret {A} (a : A) : tx A := fun c => (Returned a, c).

Definition tx_bind {A B} (m : tx A) (f : A -> tx B) : tx B :=
  fun c =>
    match m c with
    | (Returned a, c') => f a c'
    | (Raised e, c') => (Raised e, c')
    end.

Definition open (db : analytics_db) : connection :=
  {| durable := db; pending := db |}.

(** [cursor.execute]: a statement that raises changes nothing. *)
Definition execute (stmt : analytics_db -> outcome analytics_db) : tx unit :=
  fun c =>
    match stmt (pending c) with
    | Returned db' => (Returned tt, {| durable := durable c; pending := db' |})
    | Raised e => (Raised e, c)
    end.

Definition commit : tx unit :=
  fun c => (Returned tt, {| durable := pending c; pending := pending c |}).

Definition rollback (c : connection) : connection :=
  {| durable := durable c; pending := durable c |}.

(** [conn.close()]: what the database holds afterwards. *)
Definition close (c : connection) : analytics_db := durable c.

(** try: body / except Exception: conn.rollback(); raise *)
Definition except_rollback_raise {A} (body : tx A) : tx A :=
  fun c =>
    match body c with
    | (Returned a, c') => (Returned a, c')
    | (Raised e, c') => (Raised e, rollback c')
    end.

End Connection.

Notation "x <~ m ;; k" := (Connection.tx_bind m (fun x => k))
  (at level 61, m at next level, right associativity).

(** ** prepared_layers/layers/crm.py *)

Module Crm.
Import Schema Connection.

(** Pricing constants, crm.py lines 12-14. *)
Definition DATA_COST_PER_GB : Z := 49.   (* ZAR per GB *)
Definition VOICE_COST_PER_MIN : Z := 1.  (* ZAR per minute *)

(** *** The INSERT of process_crm_data_1 *)

(** crm.py lines 67-73: the seven columns added to [df]. *)
Definition add_columns (now : Z) (r : crm_record) : crm_row :=
  {| profile := r;
     total_data_bytes := 0;
     data_cost_zar := 0;
     total_call_seconds := 0;
     voice_cost_zar := 0;
     total_cost_zar := 0;
     running_balance_zar := 0;
     created_at := now |}.

Definition key (r : crm_row) : option Z * option Z :=
  (account_id (profile r), device_id (profile r)).

Definition opt_Z_eqb (a b : option Z) : bool :=
  match a, b with
  | Some x, Some y => x =? y
  | None, None => true
  | _, _ => false
  end.

Definition key_eqb (k1 k2 : option Z * option Z) : bool :=
  opt_Z_eqb (fst k1) (fst k2) && opt_Z_eqb (snd k1) (snd k2).

Definition same_key (a b : crm_row) : bool := key_eqb (key a) (key b).

(** PRIMARY KEY (account_id, device_id): both columns are NOT NULL. *)
Definition has_key (r : crm_row) : bool :=
  match key r with
  | (Some _, Some _) => true
  | _ => false
  end.

Definition opt_integer (v : option Z) : outcome (option Z) :=
  match v with
  | None => Returned None
  | Some z => z' <- Sql.integer z ;; Returned (Some z')
  end.

(** *** df.values (crm.py line 117)

    [pd.read_sql] gives a column that holds NULLs beside values a dtype of
    its values, with the NULLs as NaN (NaT in the datetime column); a
    column that holds nothing but NULLs stays a column of None.  [df.values]
    hands these cells on, and psycopg2 writes None as NULL, NaN as
    'NaN'::float and NaT as 'NaT'::timestamp.  (The integers beside a NaN
    come out as floats of the same value; the ids of the production system
    are INTEGER, far below 2^53.) *)
Inductive cell (A : Type) : Type :=
| Value (a : A)
| NoneCell      (* None *)
| NaN.          (* NaN, or NaT *)
Arguments Value {A} a.
Arguments NoneCell {A}.
Arguments NaN {A}.

(** A tuple of [df.values]: the fourteen columns of the query, then the
    seven added columns, which hold no NULL. *)
Record values_tuple : Type := {
  c_account_id : cell Z;
  c_owner_name : cell string;
  c_email : cell string;
  c_msisdn : cell string;
  c_device_id : cell Z;
  c_device_name : cell string;
  c_device_type : cell string;
  c_device_os : cell string;
  c_street_address : cell string;
  c_city : cell string;
  c_state : cell string;
  c_postal_code : cell string;
  c_country : cell string;
  c_last_modified : cell Z;
  c_total_data_bytes : Z;
  c_data_cost_zar : Z;
  c_total_call_seconds : Z;
  c_voice_cost_zar : Z;
  c_total_cost_zar : Z;
  c_running_balance_zar : Z;
  c_created_at : Z
}.

(** The column holds a NULL and a value. *)
Definition is_mixed {A} (col : crm_record -> option A) (df : list crm_row) : bool :=
  existsb (fun r => match col (profile r) with None => true | Some _ => false end) df
  && existsb (fun r => match col (profile r) with Some _ => true | None => false end) df.

Definition cell_of {A} (mixed : bool) (v : option A) : cell A :=
  match v with
  | Some a => Value a
  | None => if mixed then NaN else NoneCell
  end.

Definition tuple_of (df : list crm_row) (r : crm_row) : values_tuple :=
  {| c_account_id := cell_of (is_mixed account_id df) (account_id (profile r));
     c_owner_name := cell_of (is_mixed owner_name df) (owner_name (profile r));
     c_email := cell_of (is_mixed email df) (email (profile r));
     c_msisdn := cell_of (is_mixed msisdn df) (msisdn (profile r));
     c_device_id := cell_of (is_mixed device_id df) (device_id (profile r));
     c_device_name := cell_of (is_mixed device_name df) (device_name (profile r));
     c_device_type := cell_of (is_mixed device_type df) (device_type (profile r));
     c_device_os := cell_of (is_mixed device_os df) (device_os (profile r));
     c_street_address :=
       cell_of (is_mixed street_address df) (street_address (profile r));
     c_city := cell_of (is_mixed city df) (city (profile r));
     c_state := cell_of (is_mixed state df) (state (profile r));
     c_postal_code := cell_of (is_mixed postal_code df) (postal_code (profile r));
     c_country := cell_of (is_mixed country df) (country (profile r));
     c_last_modified :=
       cell_of (is_mixed last_modified df) (last_modified (profile r));
     c_total_data_bytes := total_data_bytes r;
     c_data_cost_zar := data_cost_zar r;
     c_total_call_seconds := total_call_seconds r;
     c_voice_cost_zar := voice_cost_zar r;
     c_total_cost_zar := total_cost_zar r;
     c_running_balance_zar := running_balance_zar r;
     c_created_at := created_at r |}.

Definition df_values (df : list crm_row) : list values_tuple :=
  map (tuple_of df) df.

(** *** The column types of crm.py lines 84-104 *)

(** INTEGER: 'NaN'::float is out of its range. *)
Definition integer_cell (c : cell Z) : outcome (option Z) :=
  match c with
  | Value z => opt_integer (Some z)
  | NoneCell => Returned None
  | NaN => Raised NumericValueOutOfRange
  end.

(** VARCHAR(n): 'NaN'::float is the text NaN. *)
Definition varchar_cell (n : nat) (c : cell string) : outcome (option string) :=
  match c with
  | Value s => Sql.varchar n (Some s)
  | NoneCell => Returned None
  | NaN => Sql.varchar n (Some "NaN")
  end.

(** TIMESTAMP: 'NaT' is no timestamp. *)
Definition timestamp_cell (c : cell Z) : outcome (option Z) :=
  match c with
  | Value t => Returned (Some t)
  | NoneCell => Returned None
  | NaN => Raised InvalidDatetimeFormat
  end.

(** A tuple taken through the column types. *)
Definition store_record (v : values_tuple) : outcome crm_record :=
  a <- integer_cell (c_account_id v) ;;
  o <- varchar_cell 255 (c_owner_name v) ;;
  e <- varchar_cell 255 (c_email v) ;;
  m <- varchar_cell 20 (c_msisdn v) ;;
  d <- integer_cell (c_device_id v) ;;
  dn <- varchar_cell 255 (c_device_name v) ;;
  dt <- varchar_cell 50 (c_device_type v) ;;
  dos <- varchar_cell 50 (c_device_os v) ;;
  sa <- varchar_cell 500 (c_street_address v) ;;
  ci <- varchar_cell 100 (c_city v) ;;
  st <- varchar_cell 50 (c_state v) ;;
  pc <- varchar_cell 20 (c_postal_code v) ;;
  co <- varchar_cell 50 (c_country v) ;;
  lm <- timestamp_cell (c_last_modified v) ;;
  Returned {| account_id := a; owner_name := o; email := e; msisdn := m;
              device_id := d; device_name := dn; device_type := dt;
              device_os := dos; street_address := sa; city := ci; state := st;
              postal_code := pc; country := co; last_modified := lm |}.

Definition store_row (v : values_tuple) : outcome crm_row :=
  p <- store_record v ;;
  b <- Sql.bigint (c_total_data_bytes v) ;;
  dc <- Sql.check_decimal_10_2 (c_data_cost_zar v) ;;
  s <- Sql.integer (c_total_call_seconds v) ;;
  vc <- Sql.check_decimal_10_2 (c_voice_cost_zar v) ;;
  tc <- Sql.check_decimal_10_2 (c_total_cost_zar v) ;;
  rb <- Sql.check_decimal_10_2 (c_running_balance_zar v) ;;
  Returned {| profile := p; total_data_bytes := b; data_cost_zar := dc;
              total_call_seconds := s; voice_cost_zar := vc;
              total_cost_zar := tc; running_balance_zar := rb;
              created_at := c_created_at v |}.

(** ON CONFLICT (account_id, device_id) DO UPDATE SET ..., crm.py lines
    124-137: the twelve listed columns take the proposed values, every
    other column keeps the value of the existing row. *)
Definition on_conflict_do_update (existing excluded : crm_row) : crm_row :=
  {| profile :=
       {| account_id := account_id (profile existing);
          owner_name := owner_name (profile excluded);
          email := email (profile excluded);
          msisdn := msisdn (profile excluded);
          device_id := device_id (profile existing);
          device_name := device_name (profile excluded);
          device_type := device_type (profile excluded);
          device_os := device_os (profile excluded);
          street_address := street_address (profile excluded);
          city := city (profile excluded);
          state := state (profile excluded);
          postal_code := postal_code (profile excluded);
          country := country (profile excluded);
          last_modified := last_modified (profile excluded) |};
     total_data_bytes := total_data_bytes existing;
     data_cost_zar := data_cost_zar existing;
     total_call_seconds := total_call_seconds existing;
     voice_cost_zar := voice_cost_zar existing;
     total_cost_zar := total_cost_zar existing;
     running_balance_zar := running_balance_zar existing;
     created_at := created_at existing |}.

Definition resolve (excluded existing : crm_row) : crm_row :=
  if same_key excluded existing then on_conflict_do_update existing excluded
  else existing.

Definition upsert (t : list crm_row) (excluded : crm_row) : list crm_row :=
  if existsb (same_key excluded) t then map (resolve excluded) t
  else t ++ [excluded].

(** One INSERT ... VALUES ... ON CONFLICT statement goes through three
    stages, and an error of an earlier stage comes before any error of a
    later one, whichever row it is in.  Parsed: a quoted literal with a cast
    is read at once, and 'NaT'::timestamp is refused. *)
Definition parse_values (page : list values_tuple) : outcome unit :=
  if existsb (fun v => match c_last_modified v with NaN => true | _ => false end)
             page
  then Raised InvalidDatetimeFormat
  else Returned tt.

(** Executed, row by row: a row must carry a key, and must not hit a key
    this statement already touched ("ON CONFLICT DO UPDATE command cannot
    affect row a second time"). *)
Fixpoint admit_rows (rows : list crm_row) (touched : list (option Z * option Z))
  : outcome (list crm_row) :=
  match rows with
  | [] => Returned []
  | row :: rest =>
      if negb (has_key row) then Raised NotNullViolation
      else if existsb (key_eqb (key row)) touched then Raised CardinalityViolation
      else rows' <- admit_rows rest (key row :: touched) ;;
           Returned (row :: rows')
  end.

(** Parsed; planned, which is when the casts of the constants to the
    column types are computed, row after row; executed. *)
Definition accept_page (page : list values_tuple) : outcome (list crm_row) :=
  _ <- parse_values page ;;
  rows <- mapM store_row page ;;
  admit_rows rows [].

(** All of the statement or nothing. *)
Definition insert_query (page : list values_tuple) (t : list crm_row)
  : outcome (list crm_row) :=
  rows <- accept_page page ;;
  Returned (fold_left upsert rows t).

(** psycopg2.extras.execute_values sends the records in pages of 100, one
    statement per page. *)
Definition page_size : nat := 100.

Fixpoint paginate {A} (fuel : nat) (records : list A) : list (list A) :=
  match fuel, records with
  | O, _ => []
  | _, [] => []
  | S fuel', _ => firstn page_size records :: paginate fuel' (skipn page_size records)
  end.

Definition execute_values (records : list values_tuple) (db : analytics_db)
  : outcome analytics_db :=
  match crm_flattened_balance db with
  | None => Raised UndefinedTable
  | Some t =>
      t' <- foldM (fun t page => insert_query page t)
                  (paginate (List.length records) records) t ;;
      Returned (with_crm_flattened_balance (Some t') db)
  end.

(** crm.py lines 80-110: DROP TABLE IF EXISTS ... CASCADE; CREATE TABLE ...;
    CREATE INDEX ... (one [cursor.execute]). *)
Definition drop_and_create (db : analytics_db) : outcome analytics_db :=
  if prepared_layers_schema db
  then Returned (with_crm_flattened_balance (Some []) db)
  else Raised InvalidSchemaName.

(** *** process_crm_data_1 (crm.py lines 17-162)

    [connect_prod] and [connect_analytics] drive the two
    [get_db_connection] calls, [df] is what [pd.read_sql] returns and [now]
    is [pd.Timestamp.now()].  Logging, and the sample SELECT that only feeds
    it, change no state and are left out. *)
Definition process_crm_data_1_body (df : list crm_record) (now : Z) : tx unit :=
  if (List.length df =? 0)%nat then ret tt
  else
    let records := df_values (map (add_columns now) df) in
    _ <~ execute drop_and_create ;;
    _ <~ commit ;;
    _ <~ execute (execute_values records) ;;
    _ <~ commit ;;
    ret tt.

Definition process_crm_data_1 (connect_prod connect_analytics : nat -> bool)
    (df : list crm_record) (now : Z) (db : analytics_db)
  : outcome unit * analytics_db :=
  match fst (Database.get_db_connection connect_prod) with
  | Raised e => (Raised e, db)
  | Returned _ =>
      match fst (Database.get_db_connection connect_analytics) with
      | Raised e => (Raised e, db)
      | Returned _ =>
          let (r, conn) :=
            except_rollback_raise (process_crm_data_1_body df now) (open db) in
          (r, close conn)
      end
  end.

(** *** The two UPDATEs of update_crm_balances_from_cdr *)

(** GROUP BY puts the NULLs of a column in one group; [=] is never true of
    a NULL. *)
Definition same_group (a b : option string) : bool :=
  match a, b with
  | Some x, Some y => String.eqb x y
  | None, None => true
  | _, _ => false
  end.

Definition sql_eq (a b : option string) : bool :=
  match a, b with
  | Some x, Some y => String.eqb x y
  | _, _ => false
  end.

Definition opt_bigint (v : option Z) : outcome (option Z) :=
  match v with
  | None => Returned None
  | Some z => z' <- Sql.bigint z ;; Returned (Some z')
  end.

(** CAST(up_bytes AS BIGINT) + CAST(down_bytes AS BIGINT), crm.py line 188. *)
Definition bytes_of (r : cdr_data_row) : outcome (option string * option Z) :=
  u <- opt_bigint (up_bytes r) ;;
  d <- opt_bigint (down_bytes r) ;;
  match u, d with
  | Some x, Some y => s <- Sql.bigint (x + y) ;; Returned (data_msisdn r, Some s)
  | _, _ => Returned (data_msisdn r, None)
  end.

(** CAST(call_duration_sec AS INTEGER), crm.py line 195. *)
Definition seconds_of (r : cdr_voice_row) : outcome (option string * option Z) :=
  s <- opt_integer (call_duration_sec r) ;;
  Returned (voice_msisdn r, s).

(** SUM skips NULLs and is NULL when nothing is left. *)
Definition sql_sum (vs : list (option Z)) : option Z :=
  fold_left (fun acc v =>
               match v with
               | None => acc
               | Some z => Some (Sql.coalesce acc 0 + z)
               end) vs None.

Fixpoint distinct (l : list (option string)) : list (option string) :=
  match l with
  | [] => []
  | m :: l' => m :: filter (fun x => negb (same_group x m)) (distinct l')
  end.

(** SELECT msisdn, SUM(..) FROM .. GROUP BY msisdn *)
Definition group_by_msisdn (rows : list (option string * option Z))
  : list (option string * option Z) :=
  map (fun m =>
         (m, sql_sum (map snd (filter (fun r => same_group (fst r) m) rows))))
      (distinct (map fst rows)).

(** A row of cdr_summary LEFT JOIN voice_summary. *)
Record usage : Type := {
  usage_msisdn : option string;   (* cdr_summary.msisdn *)
  total_bytes : option Z;         (* cdr_summary.total_bytes *)
  total_seconds : option Z        (* voice_summary.total_seconds *)
}.

Definition left_join (cdr_summary voice_summary : list (option string * option Z))
  : list usage :=
  flat_map
    (fun c =>
       match filter (fun v => sql_eq (fst c) (fst v)) voice_summary with
       | [] => [ {| usage_msisdn := fst c; total_bytes := snd c;
                    total_seconds := None |} ]
       | vs => map (fun v => {| usage_msisdn := fst c; total_bytes := snd c;
                                total_seconds := snd v |}) vs
       end)
    cdr_summary.

(** The exact values of the two cost expressions, crm.py lines 182 and 184:
    COALESCE(total_bytes, 0) * 49 / 1073741824.0 and
    COALESCE(total_seconds, 0) * 1 / 60.0. *)
Definition data_cost_expr (total_bytes : option Z) : Q :=
  (inject_Z (Sql.coalesce total_bytes 0 * DATA_COST_PER_GB) / 1073741824)%Q.

Definition voice_cost_expr (total_seconds : option Z) : Q :=
  (inject_Z (Sql.coalesce total_seconds 0 * VOICE_COST_PER_MIN) / 60)%Q.

(** First UPDATE, on one row: the SET list of crm.py lines 181-184 for the
    row of the FROM clause with [crm.msisdn = cdr_summary.msisdn]; a row
    without one is not updated. *)
Definition set_usage (from : list usage) (r : crm_row) : outcome crm_row :=
  match find (fun u => sql_eq (msisdn (profile r)) (usage_msisdn u)) from with
  | None => Returned r
  | Some u =>
      b <- Sql.bigint (Sql.coalesce (total_bytes u) 0) ;;
      dc <- Sql.decimal_10_2 (data_cost_expr (total_bytes u)) ;;
      s <- Sql.integer (Sql.coalesce (total_seconds u) 0) ;;
      vc <- Sql.decimal_10_2 (voice_cost_expr (total_seconds u)) ;;
      Returned {| profile := profile r;
                  total_data_bytes := b;
                  data_cost_zar := dc;
                  total_call_seconds := s;
                  voice_cost_zar := vc;
                  total_cost_zar := total_cost_zar r;
                  running_balance_zar := running_balance_zar r;
                  created_at := created_at r |}
  end.

Definition from_clause (db : analytics_db) : outcome (list usage) :=
  data <- mapM bytes_of (cdr_data db) ;;
  voice <- mapM seconds_of (cdr_voice db) ;;
  Returned (left_join (group_by_msisdn data) (group_by_msisdn voice)).

Definition update_usage (db : analytics_db) : outcome analytics_db :=
  match crm_flattened_balance db with
  | None => Raised UndefinedTable
  | Some t =>
      from <- from_clause db ;;
      t' <- mapM (set_usage from) t ;;
      Returned (with_crm_flattened_balance (Some t') db)
  end.

(** Second UPDATE, on one row, crm.py lines 203-209. *)
Definition has_usage (r : crm_row) : bool :=
  (0 <? total_data_bytes r) || (0 <? total_call_seconds r).

Definition set_totals (r : crm_row) : outcome crm_row :=
  if has_usage r then
    tc <- Sql.check_decimal_10_2 (data_cost_zar r + voice_cost_zar r) ;;
    rb <- Sql.check_decimal_10_2 (- (data_cost_zar r + voice_cost_zar r)) ;;
    Returned {| profile := profile r;
                total_data_bytes := total_data_bytes r;
                data_cost_zar := data_cost_zar r;
                total_call_seconds := total_call_seconds r;
                voice_cost_zar := voice_cost_zar r;
                total_cost_zar := tc;
                running_balance_zar := rb;
                created_at := created_at r |}
  else Returned r.

Definition update_totals (db : analytics_db) : outcome analytics_db :=
  match crm_flattened_balance db with
  | None => Raised UndefinedTable
  | Some t =>
      t' <- mapM set_totals t ;;
      Returned (with_crm_flattened_balance (Some t') db)
  end.

(** *** update_crm_balances_from_cdr (crm.py lines 165-221) *)
Definition update_crm_balances_from_cdr_body : tx unit :=
  _ <~ execute update_usage ;;
  _ <~ execute update_totals ;;
  _ <~ commit ;;
  ret tt.

Definition update_crm_balances_from_cdr (connect : nat -> bool) (db : analytics_db)
  : outcome unit * analytics_db :=
  match fst (Database.get_db_connection connect) with
  | Raised e => (Raised e, db)
  | Returned _ =>
      let (r, conn) :=
        except_rollback_raise update_crm_balances_from_cdr_body (open db) in
      (r, close conn)
  end.

End Crm.

(** ** tests/test_prepared_layers.py, test_cdr_data_1_merge_and_columns

    [pd.merge(voice_df, data_df, on=["datetime","msisdn"], how="outer")
    .fillna(0)] on the two frames of the test.  A frame is the list of its
    rows; a row is its key and its value columns.  The merge leaves NaN in
    every column of the side that has no row for a key, here [None] for the
    block of columns of that side; [fillna] puts 0 there.  (pandas orders the
    rows of an outer merge by key; nothing below depends on the order.) *)

Module MergeTest.

Definition usage_key : Type := (string * string)%type.   (* datetime, msisdn *)

Record voice_columns : Type := {
  voice_call_count : Z;
  video_call_count : Z;
  total_call_duration_sec : Z
}.

Record data_columns : Type := {
  video_up : Z; video_down : Z;
  audio_up : Z; audio_down : Z;
  image_up : Z; image_down : Z;
  text_up : Z; text_down : Z;
  app_up : Z; app_down : Z;
  total_up : Z; total_down : Z
}.

Definition usage_key_eqb (a b : usage_key) : bool :=
  String.eqb (fst a) (fst b) && String.eqb (snd a) (snd b).

Definition on_key {V} (k : usage_key) (row : usage_key * V) : bool :=
  usage_key_eqb (fst row) k.

Definition merge_outer (voice_df : list (usage_key * voice_columns))
    (data_df : list (usage_key * data_columns))
  : list (usage_key * option voice_columns * option data_columns) :=
  flat_map
    (fun l =>
       match filter (on_key (fst l)) data_df with
       | [] => [ (fst l, Some (snd l), None) ]
       | rs => map (fun r => (fst l, Some (snd l), Some (snd r))) rs
       end)
    voice_df
  ++ map (fun r => (fst r, None, Some (snd r)))
         (filter (fun r => negb (existsb (on_key (fst r)) voice_df)) data_df).

Definition voice_zero : voice_columns :=
  {| voice_call_count := 0; video_call_count := 0; total_call_duration_sec := 0 |}.

Definition data_zero : data_columns :=
  {| video_up := 0; video_down := 0; audio_up := 0; audio_down := 0;
     image_up := 0; image_down := 0; text_up := 0; text_down := 0;
     app_up := 0; app_down := 0; total_up := 0; total_down := 0 |}.

Definition fillna (df : list (usage_key * option voice_columns * option data_columns))
  : list (usage_key * voice_columns * data_columns) :=
  map (fun row =>
         match row with
         | (k, v, d) =>
             (k,
              match v with Some x => x | None => voice_zero end,
              match d with Some x => x | None => data_zero end)
         end) df.

Definition merged_df voice_df data_df := fillna (merge_outer voice_df data_df).

(** The columns of a frame at a key, zero when the frame has no such row. *)
Definition columns_at {V} (zero : V) (k : usage_key) (df : list (usage_key * V)) : V :=
  match find (on_key k) df with
  | Some row => snd row
  | None => zero
  end.

End MergeTest.

(** ** prepared_layers/layers/cdr.py: the sessionizer *)

Module Cdr.
Import Schema Connection.

Record tower_event : Type := {
  event_tower : Z;
  event_time : Z
}.

Definition open_at (subscriber : string) (e : tower_event) : tower_session :=
  {| session_msisdn := subscriber;
     tower_id := event_tower e;
     session_start := event_time e;
     session_end := event_time e;
     interaction_count := 1 |}.

Definition continues (gap : Z) (s : tower_session) (e : tower_event) : bool :=
  (event_tower e =? tower_id s) && (event_time e - session_end s <=? gap).

Definition extend (s : tower_session) (e : tower_event) : tower_session :=
  {| session_msisdn := session_msisdn s;
     tower_id := tower_id s;
     session_start := session_start s;
     session_end := event_time e;
     interaction_count := interaction_count s + 1 |}.

(** Modelled from the spec: the sessionizer of prepared_layers/layers/cdr.py,
    which is not among the sources.  Section 4.2: scan the events of one
    subscriber in order with one open session; an event of the same tower
    within the gap threshold of the previous event is folded into it; a new
    tower or a larger gap closes it and opens a new one; the session still
    open at the end is emitted. *)
Fixpoint scan (gap : Z) (current : tower_session) (events : list tower_event)
  : list tower_session :=
  match events with
  | [] => [current]
  | e :: rest =>
      if continues gap current e then scan gap (extend current e) rest
      else current :: scan gap (open_at (session_msisdn current) e) rest
  end.

Definition sessionize (subscriber : string) (gap : Z) (events : list tower_event)
  : list tower_session :=
  match events with
  | [] => []
  | e :: rest => scan gap (open_at subscriber e) rest
  end.




End Cdr.

(** ** hvs/consumer.py: the cost helpers of the streaming path *)

Module Hvs.

(** Nearest integer, ties to the even one: Python's [round], which
    tests/test_hvs.py uses for the expected values. *)
Definition round_half_even (q : Q) : Z :=
  let f := Qfloor q in
  match Qcompare (q - inject_Z f) (1 # 2) with
  | Lt => f
  | Gt => f + 1
  | Eq => if Z.even f then f else f + 1
  end.

(** Modelled from the spec: the cost helpers of hvs/consumer.py, which is
    not among the sources.  Section 4.3: data_cost(bytes) = bytes / 2^30 *
    price_per_gb, voice_cost(seconds) = seconds / 60 * price_per_minute, with
    the two prices of crm.py; the conversion multiplies the base-currency
    cost by a rate factor and rounds to the nearest integer.  The rate
    WAK_PER_ZAR is a parameter. *)
Definition data_cost (bytes : Z) : Q :=
  (inject_Z bytes / inject_Z (2 ^ 30) * inject_Z Crm.DATA_COST_PER_GB)%Q.

Definition voice_cost (seconds : Z) : Q :=
  (inject_Z seconds / 60 * inject_Z Crm.VOICE_COST_PER_MIN)%Q.

Definition convert (rate : Q) (cost : Q) : Z := round_half_even (cost * rate)%Q.

Definition data_cost_wak (WAK_PER_ZAR : Q) (bytes : Z) : Z :=
  convert WAK_PER_ZAR (data_cost bytes).

Definition voice_cost_wak (WAK_PER_ZAR : Q) (seconds : Z) : Z :=
  convert WAK_PER_ZAR (voice_cost seconds).

End Hvs.

(** ** Notions used in the statements *)

Module Notions.
Import Schema Connection Crm.

(** *** The retry loop *)

(** The trace after the attempts [failed] have failed. *)
Definition after_failures (t : Database.retry_trace) (failed : list nat)
  : Database.retry_trace :=
  {| Database.attempts_made := Database.attempts_made t + List.length failed;
     Database.errors_logged := Database.errors_logged t ++ map S failed;
     Database.seconds_slept :=
       Database.seconds_slept t + 5 * Z.of_nat (List.length failed) |}.

(** *** The rebuild pass *)

(** The call got its connection. *)
Definition connects (connect : nat -> bool) : Prop :=
  exists attempt, fst (Database.get_db_connection connect) = Returned attempt.

Definition always_up : nat -> bool := fun _ => true.

(** What the INSERT makes of an empty table: a function of the rows of the
    pass alone. *)
Definition inserted (df : list crm_record) (now : Z) : outcome (list crm_row) :=
  let records := df_values (map (add_columns now) df) in
  foldM (fun t page => insert_query page t)
        (paginate (List.length records) records) [].

(** *** The balance pass *)

(** The two UPDATEs one after the other. *)
Definition balances (db : analytics_db) : outcome analytics_db :=
  db1 <- update_usage db ;; update_totals db1.

Definition rows (db : analytics_db) : list crm_row :=
  match crm_flattened_balance db with
  | Some t => t
  | None => []
  end.

(** The row of the FROM clause a row of the table is updated from. *)
Definition usage_of (from : list usage) (r : crm_row) : option usage :=
  find (fun u => sql_eq (msisdn (profile r)) (usage_msisdn u)) from.

(** *** The INSERT *)

(** The columns the ON CONFLICT clause never writes. *)
Definition kept (a b : crm_row) : Prop :=
  key a = key b /\
  total_data_bytes a = total_data_bytes b /\
  data_cost_zar a = data_cost_zar b /\
  total_call_seconds a = total_call_seconds b /\
  voice_cost_zar a = voice_cost_zar b /\
  total_cost_zar a = total_cost_zar b /\
  running_balance_zar a = running_balance_zar b /\
  created_at a = created_at b.

(** All the proposed rows applied to one existing row, in order. *)
Definition resolve_all (rows : list crm_row) (x : crm_row) : crm_row :=
  fold_left (fun x r => resolve r x) rows x.

(** *** The merge *)

Definition at_key (k : MergeTest.usage_key)
    (row : MergeTest.usage_key * option MergeTest.voice_columns
           * option MergeTest.data_columns) : bool :=
  MergeTest.usage_key_eqb (fst (fst row)) k.

(** The rows the merge makes of one voice row. *)
Definition joined (data_df : list (MergeTest.usage_key * MergeTest.data_columns))
    (l : MergeTest.usage_key * MergeTest.voice_columns) :=
  match filter (MergeTest.on_key (fst l)) data_df with
  | [] => [ (fst l, Some (snd l), None) ]
  | rs => map (fun r => (fst l, Some (snd l), Some (snd r))) rs
  end.

(** *** The sessionizer *)

(** The open session after one more event, and after a list of events. *)
Definition step (gap : Z) (s : tower_session) (e : Cdr.tower_event) : tower_session :=
  if Cdr.continues gap s e then Cdr.extend s e
  else Cdr.open_at (session_msisdn s) e.

Definition final (gap : Z) (current : tower_session) (events : list Cdr.tower_event)
  : tower_session :=
  fold_left (step gap) events current.

(** The sessions closed while scanning. *)
Fixpoint closed (gap : Z) (current : tower_session) (events : list Cdr.tower_event)
  : list tower_session :=
  match events with
  | [] => []
  | e :: rest =>
      if Cdr.continues gap current e then closed gap (Cdr.extend current e) rest
      else current :: closed gap (Cdr.open_at (session_msisdn current) e) rest
  end.

Definition interactions (sessions : list tower_session) : Z :=
  fold_right Z.add 0 (map interaction_count sessions).

End Notions.

(** ** Concrete inputs *)

Module Fixtures.
Import Schema Crm Notions MergeTest.

(** The CRM row of test_crm_data_1_flatten_and_balance. *)
Definition john : crm_record :=
  {| account_id := Some 1; owner_name := Some "John Doe";
     email := Some "john@example.com"; msisdn := Some "27820000001";
     device_id := Some 101; device_name := Some "iPhone";
     device_type := Some "Mobile"; device_os := Some "iOS";
     street_address := Some "123 Main St"; city := Some "Cape Town";
     state := Some "Western Cape"; postal_code := Some "8000";
     country := Some "South Africa"; last_modified := Some 1765108800 |}.

(** An account without a device: the LEFT JOIN of the production query
    gives it NULL device columns. *)
Definition no_device : crm_record :=
  {| account_id := Some 3; owner_name := Some "Sam Poe";
     email := Some "sam@example.com"; msisdn := Some "27820000003";
     device_id := None; device_name := None;
     device_type := None; device_os := None;
     street_address := Some "4 Kloof St"; city := Some "Cape Town";
     state := Some "Western Cape"; postal_code := Some "8001";
     country := Some "South Africa"; last_modified := Some 1765108800 |}.

(** A second account, with a device. *)
Definition jane : crm_record :=
  {| account_id := Some 2; owner_name := Some "Jane Roe";
     email := Some "jane@example.com"; msisdn := Some "27820000002";
     device_id := Some 202; device_name := Some "Pixel";
     device_type := Some "Mobile"; device_os := Some "Android";
     street_address := Some "9 Long St"; city := Some "Cape Town";
     state := Some "Western Cape"; postal_code := Some "8001";
     country := Some "South Africa"; last_modified := Some 1765108800 |}.

Definition data_record (m : string) (up down : Z) : cdr_data_row :=
  {| data_msisdn := Some m; up_bytes := Some up; down_bytes := Some down |}.

Definition voice_record (m : string) (seconds : Z) : cdr_voice_row :=
  {| voice_msisdn := Some m; call_duration_sec := Some seconds |}.

Definition with_cdr (data : list cdr_data_row) (voice : list cdr_voice_row)
    (db : analytics_db) : analytics_db :=
  {| prepared_layers_schema := prepared_layers_schema db;
     crm_flattened_balance := crm_flattened_balance db;
     cdr_tower_sessions := cdr_tower_sessions db;
     processing_state := processing_state db;
     cdr_data := data;
     cdr_voice := voice |}.

(** The schema exists, a watermark is there, nothing else. *)
Definition db_fresh : analytics_db :=
  {| prepared_layers_schema := true;
     crm_flattened_balance := None;
     cdr_tower_sessions := [];
     processing_state :=
       [ {| layer_name := "cdr_data_1";
            last_processed_datetime := Some 1765108800;
            last_run_at := 1765112400 |} ];
     cdr_data := [];
     cdr_voice := [] |}.

(** After a first [process_crm_data_1] with John's row. *)
Definition db_john : analytics_db :=
  snd (process_crm_data_1 always_up always_up [john] 1765112400 db_fresh).

Definition john_row : crm_row := add_columns 1765112400 john.

(** The two frames of test_cdr_data_1_merge_and_columns. *)
Definition test_key : usage_key := ("2025-12-07 12:00:00", "27820000001").

Definition test_voice_df : list (usage_key * voice_columns) :=
  [ (test_key,
     {| voice_call_count := 2; video_call_count := 1;
        total_call_duration_sec := 120 |}) ].

Definition test_data_df : list (usage_key * data_columns) :=
  [ (test_key,
     {| video_up := 1000; video_down := 800; audio_up := 500; audio_down := 400;
        image_up := 0; image_down := 0; text_up := 0; text_down := 0;
        app_up := 0; app_down := 0; total_up := 1500; total_down := 1200 |}) ].

End Fixtures.

(** ** database.py: create_prepared_layer_tables (lines 28-255)

    One CREATE SCHEMA IF NOT EXISTS and nine CREATE TABLE IF NOT EXISTS
    statements with their indexes, in one transaction.  The nine tables are
    the three usage summaries, cdr_tower_sessions, crm_user_balance_hourly,
    the three forex tables and processing_state; crm_flattened_balance is
    not among them.  A table that exists keeps its rows and a new one has
    none, so on this state, where a missing table and an empty one are the
    same list, the CREATE TABLE statements change nothing. *)

Module Tables.
Import Schema Connection.

Definition create_schema_if_not_exists (db : analytics_db) : outcome analytics_db :=
  Returned {| prepared_layers_schema := true;
              crm_flattened_balance := crm_flattened_balance db;
              cdr_tower_sessions := cdr_tower_sessions db;
              processing_state := processing_state db;
              cdr_data := cdr_data db;
              cdr_voice := cdr_voice db |}.

Definition create_tables_if_not_exist (db : analytics_db) : outcome analytics_db :=
  if prepared_layers_schema db then Returned db else Raised InvalidSchemaName.

Definition create_prepared_layer_tables_body : tx unit :=
  _ <~ execute create_schema_if_not_exists ;;
  _ <~ execute create_tables_if_not_exist ;;
  _ <~ commit ;;
  ret tt.

Definition create_prepared_layer_tables (connect : nat -> bool) (db : analytics_db)
  : outcome unit * analytics_db :=
  match fst (Database.get_db_connection connect) with
  | Raised e => (Raised e, db)
  | Returned _ =>
      let (r, conn) :=
        except_rollback_raise create_prepared_layer_tables_body (open db) in
      (r, close conn)
  end.

End Tables.

(** ** web_app/proxy.py

    [Handler.do_GET], lines 18-47.  The handler's calls on itself, in
    order, are what the client is sent; [Request] and [urlopen] stand for
    the two calls into urllib and [static] for
    [SimpleHTTPRequestHandler.do_GET].  The calls that write to the client
    are taken to return. *)

Module Proxy.

Definition header : Type := (string * string)%type.

Inductive call : Type :=
| send_response (code : Z)
| send_header (keyword value : string)
| end_headers
| wfile_write (data : string).

(** What [urllib.request.urlopen(req)] does: it returns a response, whose
    [read()] returns the body or raises; or it raises an [HTTPError], whose
    [read()] returns or raises; or it raises something else, [message]
    being [str(e)]. *)
Inductive upstream : Type :=
| Response (code : Z) (headers : list header) (body : string + string)
| HTTPError (code : Z) (body : option string)
| OtherError (message : string).

(** [str.lower] on a header name.  [http.client] decodes header lines as
    ISO-8859-1, so a character is a byte: A-Z and the capital letters of the
    upper half (192-222 without the multiplication sign, 215) move up by
    32. *)
Definition lower_char (c : ascii) : ascii :=
  let n := nat_of_ascii c in
  if (((65 <=? n) && (n <=? 90))
      || ((192 <=? n) && (n <=? 222) && negb (n =? 215)))%nat
  then ascii_of_nat (n + 32) else c.

Fixpoint lower (s : string) : string :=
  match s with
  | EmptyString => EmptyString
  | String c s' => String (lower_char c) (lower s')
  end.

(** Line 29. *)
Definition hop_by_hop (k : string) : bool :=
  let l := lower k in
  String.eqb l "transfer-encoding" || String.eqb l "connection"
  || String.eqb l "keep-alive".

(** Line 22: a dict built from the items, a later value taking the place of
    an earlier one with the same key. *)
Fixpoint dict_set (d : list header) (k v : string) : list header :=
  match d with
  | [] => [(k, v)]
  | (k', v') :: d' =>
      if String.eqb k' k then (k', v) :: d' else (k', v') :: dict_set d' k v
  end.

Definition dict_of (items : list header) : list header :=
  fold_left (fun d kv => dict_set d (fst kv) (snd kv)) items [].

(** Line 20. *)
Definition proxied (path : string) : bool :=
  prefix "/api" path || String.eqb path "/health".

(** What [do_GET] has done when it ends: it returns, having made these
    calls, or it lets an exception through, having made none. *)
Inductive result : Type :=
| Returns (calls : list call)
| Raises.

(** Line 23, [urllib.request.Request(target, headers=headers)], is outside
    the [try]: [Request] gives [None] when the constructor raises, as it
    does ([ValueError]) for a target without a scheme.  Lines 25-44 are
    inside. *)
Definition do_GET {R : Type} (BACKEND : string)
    (Request : string -> list header -> option R)
    (urlopen : R -> upstream)
    (static : string -> list call)
    (path : string) (headers : list header) : result :=
  if proxied path then
    match Request (BACKEND ++ path)%string (dict_of headers) with
    | None => Raises
    | Some req =>
        match urlopen req with
        | Response code resp_headers body =>
            Returns
              (send_response code
               :: map (fun kv => send_header (fst kv) (snd kv))
                      (filter (fun kv => negb (hop_by_hop (fst kv))) resp_headers)
               ++ end_headers
               :: match body with
                  | inl data => [wfile_write data]
                  | inr message =>
                      [send_response 502; end_headers; wfile_write message]
                  end)
        | HTTPError code body =>
            Returns
              (send_response code :: end_headers
               :: match body with
                  | Some data => [wfile_write data]
                  | None => []
                  end)
        | OtherError message =>
            Returns [send_response 502; end_headers; wfile_write message]
        end
    end
  else Returns (static path).

End Proxy.

(** ** Scripts/validate_services_in_docs.py

    A [str] is the list of its code points.  [isspace] is [str.isspace],
    which is also what [\s] matches and what [strip()] strips.  The files
    are read by the caller: [find_doc_service_references] gets, for each
    document, the [group(1)] of each match of [svc_pattern], and [main] gets
    the service names of docker-compose.yml, if the file is there.  A set is
    the list of its elements, in the order they were added. *)

Module ValidateDocs.

Definition str : Type := list N.

Definition backtick : N := 96.
Definition hyphen : N := 45.
Definition comma : N := 44.
Definition full_stop : N := 46.
Definition newline : N := 10.

Fixpoint dropwhile {A} (p : A -> bool) (l : list A) : list A :=
  match l with
  | [] => []
  | x :: l' => if p x then dropwhile p l' else l
  end.

Fixpoint startswith (prefix s : str) : bool :=
  match prefix, s with
  | [], _ => true
  | _ :: _, [] => false
  | p :: prefix', c :: s' => (p =? c)%N && startswith prefix' s'
  end.

(** [s.rstrip(chars)] *)
Definition rstrip (chars : str) (s : str) : str :=
  rev (dropwhile (fun c => existsb (N.eqb c) chars) (rev s)).

Section Whitespace.

Variable isspace : N -> bool.

(** [s.strip()] *)
Definition strip (s : str) : str :=
  rev (dropwhile isspace (rev (dropwhile isspace s))).

(** [re.split(r"\s+", s)]: [cur] is the piece being read, backwards, and
    [in_run] tells that the last character was whitespace. *)
Fixpoint re_split (s : str) (cur : str) (in_run : bool) : list str :=
  match s with
  | [] => [rev cur]
  | c :: s' =>
      if isspace c
      then if in_run then re_split s' [] true
           else rev cur :: re_split s' [] true
      else re_split s' (c :: cur) false
  end.

(** Line 37. *)
Definition tokens (tail : str) : list str :=
  filter (fun t => negb (match t with [] => true | _ => false end)
                   && negb (startswith [hyphen] t))
         (re_split (strip tail) [] false).

(** Lines 38-44. *)
Fixpoint add_refs (ts : list str) (refs : list str) : list str :=
  match ts with
  | [] => refs
  | t :: rest =>
      if startswith [backtick; backtick; backtick] t then refs
      else add_refs rest (refs ++ [rstrip [backtick; comma; full_stop] t])
  end.

(** [docs] is [None] when there is no docs directory. *)
Definition find_doc_service_references (docs : option (list (list str)))
  : list str :=
  match docs with
  | None => []
  | Some files =>
      fold_left (fun refs tail => add_refs (tokens tail) refs)
                (List.concat files) []
  end.

Definition str_eqb (a b : str) : bool :=
  if list_eq_dec N.eq_dec a b then true else false.

(** The exit code: [compose] is [None] when docker-compose.yml is missing,
    and [load_compose_services] exits with 2. *)
Definition main (compose : option (list str)) (docs : option (list (list str))) : Z :=
  match compose with
  | None => 2
  | Some services =>
      let refs := find_doc_service_references docs in
      match refs with
      | [] => 0
      | _ =>
          match filter (fun r => negb (existsb (str_eqb r) services)) refs with
          | [] => 0
          | _ => 1
          end
      end
  end.

(** What [group(1)] of [svc_pattern] can be: whitespace, then characters
    other than the newline and the backtick, at least one of each. *)
Definition group1 (tail : str) : Prop :=
  exists ws body,
    tail = ws ++ body /\ ws <> [] /\ body <> [] /\
    Forall (fun c => isspace c = true) ws /\
    Forall (fun c => c <> newline /\ c <> backtick) body.

End Whitespace.

(** The code points of an ASCII literal. *)
Fixpoint codes (s : string) : str :=
  match s with
  | EmptyString => []
  | String c s' => N_of_ascii c :: codes s'
  end.

(** [str.isspace] on the first 256 code points. *)
Definition isspace_latin1 (c : N) : bool :=
  ((9 <=? c) && (c <=? 13) || (28 <=? c) && (c <=? 32) || (c =? 133) || (c =? 160))%N.

End ValidateDocs.

(** ** Further notions used in the statements *)

Module MoreNotions.
Import Schema Connection Crm Notions.

(** The primary key a row of the production query will get. *)
Definition record_key (r : crm_record) : option Z * option Z :=
  (account_id r, device_id r).

(** The seven added columns as [add_columns] sets them at time [now]. *)
Definition fresh (now : Z) (r : crm_row) : Prop :=
  total_data_bytes r = 0 /\ data_cost_zar r = 0 /\
  total_call_seconds r = 0 /\ voice_cost_zar r = 0 /\
  total_cost_zar r = 0 /\ running_balance_zar r = 0 /\
  created_at r = now.

(** The bytes of one data record: up plus down, nothing when either is
    NULL. *)
Definition record_bytes (r : cdr_data_row) : Z :=
  match up_bytes r, down_bytes r with
  | Some u, Some d => u + d
  | _, _ => 0
  end.

(** All the bytes, and all the call seconds, recorded for a subscriber. *)
Definition bytes_total (data : list cdr_data_row) (m : string) : Z :=
  fold_right Z.add 0
    (map record_bytes (filter (fun r => sql_eq (Some m) (data_msisdn r)) data)).

Definition seconds_total (voice : list cdr_voice_row) (m : string) : Z :=
  fold_right Z.add 0
    (map (fun r => Sql.coalesce (call_duration_sec r) 0)
         (filter (fun r => sql_eq (Some m) (voice_msisdn r)) voice)).

(** The subscriber of a row has a record in cdr_data.cdr_data. *)
Definition has_data_record (data : list cdr_data_row) (r : crm_row) : bool :=
  existsb (fun d => sql_eq (msisdn (profile r)) (data_msisdn d)) data.

(** What the two summaries of the FROM clause sum up, per record. *)
Definition data_summand (r : cdr_data_row) : option string * option Z :=
  (data_msisdn r,
   match up_bytes r, down_bytes r with
   | Some u, Some d => Some (u + d)
   | _, _ => None
   end).

Definition voice_summand (r : cdr_voice_row) : option string * option Z :=
  (voice_msisdn r, call_duration_sec r).

(** A row whose costs are not negative and whose running balance is the
    total cost, negated. *)
Definition settled (r : crm_row) : Prop :=
  0 <= data_cost_zar r /\ 0 <= voice_cost_zar r /\ 0 <= total_cost_zar r /\
  running_balance_zar r = - total_cost_zar r.

(** The sum of a column over a frame. *)
Definition column_sum {R} (f : R -> Z) (df : list R) : Z :=
  fold_right Z.add 0 (map f df).

(** *** The proxy *)

(** The status lines among the calls. *)
Fixpoint status_lines (calls : list Proxy.call) : list Z :=
  match calls with
  | [] => []
  | Proxy.send_response code :: rest => code :: status_lines rest
  | _ :: rest => status_lines rest
  end.

(** The headers the handler itself sends. *)
Fixpoint headers_sent (calls : list Proxy.call) : list Proxy.header :=
  match calls with
  | [] => []
  | Proxy.send_header k v :: rest => (k, v) :: headers_sent rest
  | _ :: rest => headers_sent rest
  end.

(** The status the backend gave, 502 when it gave none. *)
Definition status_of (u : Proxy.upstream) : Z :=
  match u with
  | Proxy.Response code _ _ => code
  | Proxy.HTTPError code _ => code
  | Proxy.OtherError _ => 502
  end.

Definition read_fails (u : Proxy.upstream) : bool :=
  match u with
  | Proxy.Response _ _ (inr _) => true
  | _ => false
  end.

Definition headers_of (u : Proxy.upstream) : list Proxy.header :=
  match u with
  | Proxy.Response _ hs _ => hs
  | _ => []
  end.

(** What the client has been sent. *)
Definition sent_by (r : Proxy.result) : list Proxy.call :=
  match r with
  | Proxy.Returns calls => calls
  | Proxy.Raises => []
  end.

(** The headers of the backend's response, none when there is no
    response. *)
Definition backend_headers {R} (Request : string -> list Proxy.header -> option R)
    (urlopen : R -> Proxy.upstream) (target : string)
    (headers : list Proxy.header) : list Proxy.header :=
  match Request target headers with
  | Some req => headers_of (urlopen req)
  | None => []
  end.

(** A row, and a tuple, with another creation time. *)
Definition restamp (now : Z) (r : crm_row) : crm_row :=
  {| profile := profile r;
     total_data_bytes := total_data_bytes r;
     data_cost_zar := data_cost_zar r;
     total_call_seconds := total_call_seconds r;
     voice_cost_zar := voice_cost_zar r;
     total_cost_zar := total_cost_zar r;
     running_balance_zar := running_balance_zar r;
     created_at := now |}.



(** The rows of the FROM clause of the first UPDATE for a subscriber. *)
Definition joined_at (m : string) (from : list usage) : list usage :=
  filter (fun u => sql_eq (Some m) (usage_msisdn u)) from.

(** The rows of a merged frame at a key. *)
Definition merged_at (k : MergeTest.usage_key)
    (df : list (MergeTest.usage_key * MergeTest.voice_columns
                * MergeTest.data_columns)) :=
  filter (fun row => MergeTest.usage_key_eqb (fst (fst row)) k) df.

(** The errors an INSERT statement of the rebuild pass can end in. *)
Definition insert_error (e : exn) : Prop :=
  e = InvalidDatetimeFormat \/
  e = NumericValueOutOfRange \/ e = StringDataRightTruncation \/
  e = NotNullViolation \/ e = CardinalityViolation.

(** The frame the pass holds when it calls [df.values]. *)
Definition frame (now : Z) (df : list crm_record) : list crm_row :=
  map (add_columns now) df.

(** The tuple [df.values] makes of a row of the query. *)
Definition values_of (now : Z) (df : list crm_record) (r : crm_record)
  : values_tuple :=
  tuple_of (frame now df) (add_columns now r).

End MoreNotions.

(** ** Further inputs *)

Module MoreFixtures.
Import Schema Crm Notions.

(** Account [i] with device [1000 + i]. *)
Definition subscriber (i : Z) (owner : string) : crm_record :=
  {| account_id := Some i; owner_name := Some owner;
     email := None; msisdn := None;
     device_id := Some (1000 + i); device_name := None;
     device_type := None; device_os := None;
     street_address := None; city := None;
     state := None; postal_code := None;
     country := None; last_modified := None |}.

(** Jane's device has no name. *)
Definition jane_unnamed : crm_record :=
  {| account_id := Some 2; owner_name := Some "Jane Roe";
     email := Some "jane@example.com"; msisdn := Some "27820000002";
     device_id := Some 202; device_name := None;
     device_type := Some "Mobile"; device_os := Some "Android";
     street_address := Some "9 Long St"; city := Some "Cape Town";
     state := Some "Western Cape"; postal_code := Some "8001";
     country := Some "South Africa"; last_modified := Some 1765108800 |}.

(** A full page of rows. *)
Definition hundred : list crm_record :=
  map (fun i => subscriber (Z.of_nat i) "first") (seq 0 100).

End MoreFixtures.

(** * Properties *)

(** ** Tools for [outcome] *)

Lemma bind_Returned {A B} (m : outcome A) (f : A -> outcome B) (b : B) :
  bind m f = Returned b -> exists a, m = Returned a /\ f a = Returned b.
Proof.
  destruct m as [a|e]; simpl; intros H; [eauto | discriminate].
Qed.

Tactic Notation "bind_inv" hyp(H) :=
  let a := fresh "v" in
  let Ha := fresh "Hv" in
  apply bind_Returned in H; destruct H as [a [Ha H]].

Tactic Notation "bind_inv" hyp(H) "as" ident(a) ident(Ha) :=
  apply bind_Returned in H; destruct H as [a [Ha H]].

Lemma mapM_Forall2 {A B} (f : A -> outcome B) (l : list A) (l' : list B) :
  mapM f l = Returned l' -> Forall2 (fun a b => f a = Returned b) l l'.
Proof.
  revert l'. induction l as [|a l IH]; simpl; intros l' H.
  - injection H as <-. constructor.
  - bind_inv H. bind_inv H. injection H as <-. constructor; auto.
Qed.

Lemma Forall2_In_r {A B} (R : A -> B -> Prop) (l : list A) (l' : list B) (b : B) :
  Forall2 R l l' -> In b l' -> exists a, In a l /\ R a b.
Proof.
  induction 1 as [|x y l l' Hxy _ IH]; simpl; intros Hin; [contradiction|].
  destruct Hin as [<-|Hin]; [eauto|].
  destruct (IH Hin) as [a [Ha HR]]; eauto.
Qed.

(** ** Rounding and range checks *)

Module SqlFacts.
Import Sql.

Lemma round_half_away_near (q : Q) :
  (Qabs (inject_Z (round_half_away q) - q) <= 1 # 2)%Q.
Proof.
  unfold round_half_away. apply Qabs_Qle_condition.
  destruct (Qle_bool 0 q).
  - pose proof (Qfloor_le (q + (1 # 2))) as Hlo.
    pose proof (Qlt_floor (q + (1 # 2))) as Hhi.
    rewrite inject_Z_plus in Hhi. change (inject_Z 1) with 1%Q in Hhi.
    split; lra.
  - pose proof (Qle_ceiling (q - (1 # 2))) as Hhi.
    pose proof (Qceiling_lt (q - (1 # 2))) as Hlo.
    unfold Z.sub in Hlo. rewrite inject_Z_plus, inject_Z_opp in Hlo.
    change (inject_Z 1) with 1%Q in Hlo.
    split; lra.
Qed.

Lemma round_half_away_comp (q q' : Q) :
  (q == q')%Q -> round_half_away q = round_half_away q'.
Proof.
  intros H. unfold round_half_away.
  assert (Hb : Qle_bool 0 q = Qle_bool 0 q').
  { destruct (Qle_bool 0 q) eqn:E, (Qle_bool 0 q') eqn:E'; try reflexivity.
    - apply Qle_bool_iff in E. rewrite H in E. apply Qle_bool_iff in E. congruence.
    - apply Qle_bool_iff in E'. rewrite <- H in E'. apply Qle_bool_iff in E'.
      congruence. }
  rewrite Hb. destruct (Qle_bool 0 q').
  - apply Qfloor_comp. now rewrite H.
  - apply Qceiling_comp. now rewrite H.
Qed.

Lemma check_decimal_10_2_Returned (h v : Z) :
  check_decimal_10_2 h = Returned v -> v = h.
Proof. unfold check_decimal_10_2. destruct (_ <=? _); congruence. Qed.

Lemma decimal_10_2_Returned (q : Q) (v : Z) :
  decimal_10_2 q = Returned v -> v = round_half_away (q * 100).
Proof. apply check_decimal_10_2_Returned. Qed.

Lemma bigint_Returned (z v : Z) : bigint z = Returned v -> v = z.
Proof. unfold bigint. destruct (in_int8 z); congruence. Qed.

Lemma integer_Returned (z v : Z) : integer z = Returned v -> v = z.
Proof. unfold integer. destruct (in_int4 z); congruence. Qed.

(** A stored DECIMAL(10,2) is within half a hundredth of the exact value. *)
Lemma decimal_10_2_near (q : Q) (v : Z) :
  decimal_10_2 q = Returned v -> (Qabs (of_hundredths v - q) <= 1 # 200)%Q.
Proof.
  intros H. apply decimal_10_2_Returned in H. subst v.
  pose proof (round_half_away_near (q * 100)) as Hn.
  apply Qabs_Qle_condition in Hn. apply Qabs_Qle_condition.
  unfold of_hundredths. destruct Hn as [Hlo Hhi].
  set (r := inject_Z (round_half_away (q * 100))) in *.
  unfold Qdiv. change (/ 100)%Q with (1 # 100)%Q. split; lra.
Qed.

End SqlFacts.

(** ** database.py: the retry loop *)

Module DatabaseFacts.
Import Database Notions.

Lemma retry_trace_eq (a a' : nat) (l l' : list nat) (s s' : Z) :
  a = a' -> l = l' -> s = s' ->
  {| attempts_made := a; errors_logged := l; seconds_slept := s |} =
  {| attempts_made := a'; errors_logged := l'; seconds_slept := s' |}.
Proof. now intros -> -> ->. Qed.

Lemma retry_loop_failures connect (failed rest : list nat) (t : retry_trace) :
  (forall j, In j failed -> connect j = false) ->
  retry_loop connect (failed ++ rest) t =
  retry_loop connect rest (after_failures t failed).
Proof.
  revert t. induction failed as [|k failed IH]; intros t Hf; simpl.
  - f_equal. destruct t; unfold after_failures; simpl.
    apply retry_trace_eq; [lia | now rewrite app_nil_r | lia].
  - rewrite (Hf k) by now left. rewrite IH by (intros; apply Hf; now right).
    f_equal. unfold after_failures.
    cbn [attempts_made errors_logged seconds_slept List.length map].
    apply retry_trace_eq; [lia | now rewrite <- app_assoc | lia].
Qed.

Lemma get_db_connection_eq connect :
  get_db_connection connect =
  retry_loop connect (seq 0 10)
    {| attempts_made := 0; errors_logged := []; seconds_slept := 0 |}.
Proof. reflexivity. Qed.

Lemma retry_loop_raised connect (range : list nat) (t : retry_trace) (e : exn) :
  fst (retry_loop connect range t) = Raised e ->
  e = CouldNotConnect /\ forall j, In j range -> connect j = false.
Proof.
  revert t. induction range as [|k range IH]; intros t; cbn [retry_loop].
  - intros He. injection He as <-. split; [reflexivity | intros j []].
  - destruct (connect k) eqn:Hk; [discriminate|].
    intros He. destruct (IH _ He) as [-> Hf].
    split; [reflexivity | intros j [<-|Hj]; auto].
Qed.

Lemma seq_split_at (k n : nat) :
  (k < n)%nat -> seq 0 n = seq 0 k ++ k :: seq (S k) (n - S k).
Proof.
  intros Hk. replace n with (k + S (n - S k))%nat at 1 by lia.
  now rewrite seq_app.
Qed.

Lemma succeeds_at connect (k : nat) :
  (k < 10)%nat -> connect k = true ->
  (forall j, (j < k)%nat -> connect j = false) ->
  get_db_connection connect =
  (Returned k, {| attempts_made := S k;
                  errors_logged := map S (seq 0 k);
                  seconds_slept := 5 * Z.of_nat k |}).
Proof.
  intros Hk Hc Hf. unfold get_db_connection.
  rewrite (seq_split_at k 10 Hk), retry_loop_failures.
  - simpl. rewrite Hc. f_equal. rewrite length_seq.
    apply retry_trace_eq; [lia | reflexivity | lia].
  - intros j Hj. apply in_seq in Hj. apply Hf. lia.
Qed.

Lemma gives_up connect :
  (forall j, (j < 10)%nat -> connect j = false) ->
  get_db_connection connect =
  (Raised CouldNotConnect,
   {| attempts_made := 10; errors_logged := map S (seq 0 10); seconds_slept := 50 |}).
Proof.
  intros Hf. unfold get_db_connection.
  rewrite <- (app_nil_r (seq 0 10)), retry_loop_failures.
  - reflexivity.
  - intros j Hj. apply in_seq in Hj. apply Hf. lia.
Qed.

Lemma get_db_connection_raised connect (e : exn) :
  fst (get_db_connection connect) = Raised e -> e = CouldNotConnect.
Proof.
  intros He. rewrite get_db_connection_eq in He.
  now destruct (retry_loop_raised _ _ _ _ He).
Qed.

(** C9: [get_db_connection] makes at most ten attempts and sleeps five
    seconds after each failed one; it returns the connection of the first
    attempt that succeeds, without trying again; when all ten attempts fail
    it raises, and it raises in no other case. *)
Theorem get_db_connection_retries (connect : nat -> bool) :
  (forall k, (k < 10)%nat -> connect k = true ->
     (forall j, (j < k)%nat -> connect j = false) ->
     get_db_connection connect =
     (Returned k, {| attempts_made := S k;
                     errors_logged := map S (seq 0 k);
                     seconds_slept := 5 * Z.of_nat k |}))
  /\ ((forall j, (j < 10)%nat -> connect j = false) ->
      get_db_connection connect =
      (Raised CouldNotConnect,
       {| attempts_made := 10; errors_logged := map S (seq 0 10);
          seconds_slept := 50 |}))
  /\ (forall e, fst (get_db_connection connect) = Raised e ->
      e = CouldNotConnect /\ forall j, (j < 10)%nat -> connect j = false).
Proof.
  split; [apply succeeds_at | split; [apply gives_up |]].
  intros e He. rewrite get_db_connection_eq in He.
  destruct (retry_loop_raised _ _ _ _ He) as [-> Hf].
  split; [reflexivity | intros j Hj; apply Hf, in_seq; lia].
Qed.

(** The database comes up at the fourth attempt. *)
Lemma get_db_connection_retries_witness :
  get_db_connection (fun k => Nat.eqb k 3) =
  (Returned 3%nat, {| attempts_made := 4; errors_logged := [1; 2; 3]%nat;
                      seconds_slept := 15 |})
  /\ get_db_connection (fun _ => false) =
     (Raised CouldNotConnect,
      {| attempts_made := 10; errors_logged := map S (seq 0 10);
         seconds_slept := 50 |}).
Proof.
  split.
  - apply (proj1 (get_db_connection_retries (fun k => Nat.eqb k 3)) 3%nat).
    + lia.
    + reflexivity.
    + intros j Hj. destruct j as [|[|[|j]]]; try reflexivity; lia.
  - apply (proj1 (proj2 (get_db_connection_retries (fun _ => false)))).
    reflexivity.
Defined.

End DatabaseFacts.

(** ** crm.py: process_crm_data_1 *)

Module CrmRebuildFacts.
Import Schema Connection Crm Notions.


Lemma process_crm_data_1_connected c1 c2 df now db :
  connects c1 -> connects c2 ->
  process_crm_data_1 c1 c2 df now db =
  (let (r, conn) :=
     except_rollback_raise (process_crm_data_1_body df now) (open db) in
   (r, close conn)).
Proof.
  intros [k1 H1] [k2 H2]. unfold process_crm_data_1. now rewrite H1, H2.
Qed.

Lemma with_table_twice t t' db :
  with_crm_flattened_balance t' (with_crm_flattened_balance t db) =
  with_crm_flattened_balance t' db.
Proof. reflexivity. Qed.

Lemma table_of_with_table t db :
  crm_flattened_balance (with_crm_flattened_balance t db) = t.
Proof. reflexivity. Qed.

Lemma body_rebuilds df now db :
  df <> [] -> prepared_layers_schema db = true ->
  except_rollback_raise (process_crm_data_1_body df now) (open db) =
  match inserted df now with
  | Returned t =>
      (Returned tt, open (with_crm_flattened_balance (Some t) db))
  | Raised e =>
      (Raised e, open (with_crm_flattened_balance (Some []) db))
  end.
Proof.
  intros Hdf Hschema. unfold process_crm_data_1_body.
  destruct df as [|r df]; [congruence|]. cbn [List.length Nat.eqb].
  unfold inserted. set (records := df_values (map (add_columns now) (r :: df))).
  unfold except_rollback_raise, tx_bind, execute, commit, ret, open, close,
    rollback, drop_and_create, execute_values.
  cbn [pending durable]. rewrite Hschema. cbn [pending durable fst snd].
  rewrite table_of_with_table.
  destruct (foldM _ (paginate (List.length records) records) []) as [t|e];
    cbn [bind pending durable fst snd]; now rewrite ?with_table_twice.
Qed.

Lemma body_without_schema df now db :
  df <> [] -> prepared_layers_schema db = false ->
  except_rollback_raise (process_crm_data_1_body df now) (open db) =
  (Raised InvalidSchemaName, open db).
Proof.
  intros Hdf Hschema. unfold process_crm_data_1_body.
  destruct df as [|r df]; [congruence|]. cbn [List.length Nat.eqb].
  unfold except_rollback_raise, tx_bind, execute, open, drop_and_create.
  cbn [pending durable]. now rewrite Hschema.
Qed.

(** A pass that returns has rebuilt the table from its rows. *)
Lemma process_crm_data_1_Returned c1 c2 df now db db' :
  df <> [] ->
  process_crm_data_1 c1 c2 df now db = (Returned tt, db') ->
  exists t, inserted df now = Returned t /\
            db' = with_crm_flattened_balance (Some t) db.
Proof.
  intros Hdf. unfold process_crm_data_1.
  destruct (fst (Database.get_db_connection c1)); [|discriminate].
  destruct (fst (Database.get_db_connection c2)); [|discriminate].
  destruct (prepared_layers_schema db) eqn:Hs.
  - rewrite (body_rebuilds df now db Hdf Hs).
    destruct (inserted df now) as [t|e]; [|discriminate].
    intros [= <-]. now exists t.
  - rewrite (body_without_schema df now db Hdf Hs). discriminate.
Qed.

Lemma with_table_same db :
  with_crm_flattened_balance (crm_flattened_balance db) db = db.
Proof. now destruct db. Qed.

(** [process_crm_data_1] writes nothing but the flattened balance table. *)
Lemma process_crm_data_1_frame c1 c2 df now db :
  exists t,
    snd (process_crm_data_1 c1 c2 df now db) = with_crm_flattened_balance t db.
Proof.
  unfold process_crm_data_1.
  destruct (fst (Database.get_db_connection c1));
    [|exists (crm_flattened_balance db); symmetry; apply with_table_same].
  destruct (fst (Database.get_db_connection c2));
    [|exists (crm_flattened_balance db); symmetry; apply with_table_same].
  destruct df as [|r df].
  - exists (crm_flattened_balance db). symmetry. apply with_table_same.
  - destruct (prepared_layers_schema db) eqn:Hs.
    + rewrite (body_rebuilds (r :: df) now db) by (discriminate || exact Hs).
      destruct (inserted (r :: df) now); eexists; reflexivity.
    + rewrite (body_without_schema (r :: df) now db) by (discriminate || exact Hs).
      exists (crm_flattened_balance db). symmetry. apply with_table_same.
Qed.

(** C10: when the production query returns no row, [process_crm_data_1]
    returns before any statement runs: the analytics database is what it
    was, the flattened balance table included, and nothing is raised apart
    from a connection that could not be made. *)
Theorem process_crm_data_1_empty_source c1 c2 (now : Z) (db : analytics_db) :
  snd (process_crm_data_1 c1 c2 [] now db) = db /\
  (fst (process_crm_data_1 c1 c2 [] now db) = Returned tt \/
   fst (process_crm_data_1 c1 c2 [] now db) = Raised CouldNotConnect).
Proof.
  unfold process_crm_data_1.
  destruct (fst (Database.get_db_connection c1)) as [k1|e1] eqn:H1.
  - destruct (fst (Database.get_db_connection c2)) as [k2|e2] eqn:H2.
    + split; [reflexivity | left; reflexivity].
    + apply DatabaseFacts.get_db_connection_raised in H2. subst e2.
      split; [reflexivity | right; reflexivity].
  - apply DatabaseFacts.get_db_connection_raised in H1. subst e1.
    split; [reflexivity | right; reflexivity].
Qed.

End CrmRebuildFacts.

(** ** crm.py: update_crm_balances_from_cdr *)

Module CrmBalanceFacts.
Import Schema Connection Crm Notions CrmRebuildFacts.

Lemma update_connected c db :
  connects c ->
  update_crm_balances_from_cdr c db =
  match balances db with
  | Returned db2 => (Returned tt, db2)
  | Raised e => (Raised e, db)
  end.
Proof.
  intros [k Hk]. unfold update_crm_balances_from_cdr, balances. rewrite Hk.
  unfold except_rollback_raise, update_crm_balances_from_cdr_body, tx_bind,
    execute, commit, ret, open, close, rollback.
  cbn [pending durable].
  destruct (update_usage db) as [db1|e]; cbn [bind pending durable]; [|reflexivity].
  destruct (update_totals db1); reflexivity.
Qed.

Lemma update_Returned c db db' :
  update_crm_balances_from_cdr c db = (Returned tt, db') ->
  balances db = Returned db'.
Proof.
  destruct (fst (Database.get_db_connection c)) as [k|e] eqn:Hc.
  - rewrite update_connected by (now exists k).
    destruct (balances db); congruence.
  - unfold update_crm_balances_from_cdr. rewrite Hc. congruence.
Qed.

Lemma balances_Returned db db2 :
  balances db = Returned db2 ->
  exists t from t1 t2,
    crm_flattened_balance db = Some t /\
    from_clause db = Returned from /\
    mapM (set_usage from) t = Returned t1 /\
    mapM set_totals t1 = Returned t2 /\
    db2 = with_crm_flattened_balance (Some t2) db.
Proof.
  unfold balances, update_usage. intros H. bind_inv H as db1 H1.
  destruct (crm_flattened_balance db) as [t|] eqn:Ht; [|discriminate].
  bind_inv H1 as from Hfrom. bind_inv H1 as t1 Ht1. injection H1 as <-.
  unfold update_totals in H. rewrite table_of_with_table in H.
  bind_inv H as t2 Ht2. injection H as <-.
  exists t, from, t1, t2. now rewrite with_table_twice.
Qed.

(** [update_crm_balances_from_cdr] writes nothing but the flattened balance
    table. *)
Lemma update_crm_balances_from_cdr_frame c db :
  exists t,
    snd (update_crm_balances_from_cdr c db) = with_crm_flattened_balance t db.
Proof.
  destruct (fst (Database.get_db_connection c)) as [k|e] eqn:Hc.
  - rewrite update_connected by (now exists k).
    destruct (balances db) as [db2|e] eqn:Hb.
    + destruct (balances_Returned _ _ Hb) as (t & from & t1 & t2 & _ & _ & _ & _ & ->).
      now exists (Some t2).
    + exists (crm_flattened_balance db). symmetry. apply with_table_same.
  - unfold update_crm_balances_from_cdr. rewrite Hc.
    exists (crm_flattened_balance db). symmetry. apply with_table_same.
Qed.


(** What the first UPDATE leaves in a row. *)
Lemma set_usage_Returned from r r1 :
  set_usage from r = Returned r1 ->
  profile r1 = profile r /\
  total_cost_zar r1 = total_cost_zar r /\
  running_balance_zar r1 = running_balance_zar r /\
  match usage_of from r with
  | None => r1 = r
  | Some u =>
      total_data_bytes r1 = Sql.coalesce (total_bytes u) 0 /\
      Sql.decimal_10_2 (data_cost_expr (total_bytes u)) = Returned (data_cost_zar r1) /\
      total_call_seconds r1 = Sql.coalesce (total_seconds u) 0 /\
      Sql.decimal_10_2 (voice_cost_expr (total_seconds u)) = Returned (voice_cost_zar r1)
  end.
Proof.
  unfold set_usage, usage_of. destruct (find _ from) as [u|].
  - intros H. bind_inv H as b Hb. bind_inv H as dc Hdc.
    bind_inv H as s Hs. bind_inv H as vc Hvc.
    injection H as <-. cbn.
    apply SqlFacts.bigint_Returned in Hb. apply SqlFacts.integer_Returned in Hs.
    subst. repeat split; auto.
  - intros H. injection H as <-. auto.
Qed.

(** What the second UPDATE leaves in a row. *)
Lemma set_totals_Returned r1 r2 :
  set_totals r1 = Returned r2 ->
  profile r2 = profile r1 /\
  total_data_bytes r2 = total_data_bytes r1 /\
  data_cost_zar r2 = data_cost_zar r1 /\
  total_call_seconds r2 = total_call_seconds r1 /\
  voice_cost_zar r2 = voice_cost_zar r1 /\
  if has_usage r1
  then total_cost_zar r2 = data_cost_zar r1 + voice_cost_zar r1 /\
       running_balance_zar r2 = - (data_cost_zar r1 + voice_cost_zar r1)
  else r2 = r1.
Proof.
  unfold set_totals. destruct (has_usage r1).
  - intros H. bind_inv H as tc Htc. bind_inv H as rb Hrb. injection H as <-. cbn.
    apply SqlFacts.check_decimal_10_2_Returned in Htc, Hrb. subst. auto 10.
  - intros H. injection H as <-. auto 10.
Qed.





End CrmBalanceFacts.

(** ** crm.py: the INSERT ... ON CONFLICT DO UPDATE *)

Module CrmInsertFacts.
Import Schema Connection Crm Notions CrmRebuildFacts.

Lemma kept_refl a : kept a a.
Proof. unfold kept. auto 10. Qed.

Lemma kept_trans a b c : kept a b -> kept b c -> kept a c.
Proof. unfold kept. intuition congruence. Qed.

Lemma opt_Z_eqb_refl a : opt_Z_eqb a a = true.
Proof. destruct a; simpl; [apply Z.eqb_refl | reflexivity]. Qed.

Lemma key_eqb_refl k : key_eqb k k = true.
Proof. unfold key_eqb. now rewrite !opt_Z_eqb_refl. Qed.

Lemma same_key_kept r a b : kept a b -> same_key r a = same_key r b.
Proof. intros [Hk _]. unfold same_key. now rewrite Hk. Qed.

Lemma on_conflict_kept existing excluded :
  kept (on_conflict_do_update existing excluded) existing.
Proof. unfold kept, key. cbn. auto 10. Qed.

Lemma resolve_kept r x : kept (resolve r x) x.
Proof.
  unfold resolve. destruct (same_key r x);
    [apply on_conflict_kept | apply kept_refl].
Qed.

Lemma resolve_all_kept rows x : kept (resolve_all rows x) x.
Proof.
  unfold resolve_all. revert x.
  induction rows as [|r rows IH]; intros x; cbn [fold_left].
  - apply kept_refl.
  - eapply kept_trans; [apply IH | apply resolve_kept].
Qed.

Lemma on_conflict_from_kept a b r :
  kept a b -> on_conflict_do_update a r = on_conflict_do_update b r.
Proof.
  intros (Hk & Hb & Hd & Hs & Hv & Ht & Hr & Hc).
  unfold key in Hk. injection Hk as Ha Hdev.
  unfold on_conflict_do_update. congruence.
Qed.

Lemma on_conflict_self r : on_conflict_do_update r r = r.
Proof. destruct r as [[] ? ? ? ? ? ? ?]. reflexivity. Qed.

(** A key the table holds stays in the table. *)
Lemma existsb_map_resolve r r' t :
  existsb (same_key r) (map (resolve r') t) = existsb (same_key r) t.
Proof.
  induction t as [|x t IH]; cbn [map existsb]; [reflexivity|].
  now rewrite IH, (same_key_kept r _ _ (resolve_kept r' x)).
Qed.

Lemma upsert_eq t r :
  upsert t r =
  if existsb (same_key r) t then map (resolve r) t else t ++ [r].
Proof. reflexivity. Qed.

Lemma upsert_keeps_key r r' t :
  existsb (same_key r) t = true -> existsb (same_key r) (upsert t r') = true.
Proof.
  intros H. unfold upsert. destruct (existsb (same_key r') t).
  - now rewrite existsb_map_resolve.
  - rewrite existsb_app, H. reflexivity.
Qed.

Lemma upsert_has_key r t : existsb (same_key r) (upsert t r) = true.
Proof.
  unfold upsert. destruct (existsb (same_key r) t) eqn:H.
  - now rewrite existsb_map_resolve.
  - rewrite existsb_app. cbn [existsb]. unfold same_key at 2.
    rewrite key_eqb_refl. now rewrite orb_true_r.
Qed.

Lemma fold_upsert_keeps_key r rows t :
  existsb (same_key r) t = true ->
  existsb (same_key r) (fold_left upsert rows t) = true.
Proof.
  revert t. induction rows as [|r' rows IH]; intros t H; cbn [fold_left];
    [exact H | apply IH, upsert_keeps_key, H].
Qed.

Lemma fold_upsert_has_keys rows t r :
  In r rows -> existsb (same_key r) (fold_left upsert rows t) = true.
Proof.
  revert t. induction rows as [|r' rows IH]; intros t Hin; [destruct Hin|].
  destruct Hin as [<-|Hin]; cbn [fold_left].
  - apply fold_upsert_keeps_key, upsert_has_key.
  - now apply IH.
Qed.

(** When every proposed key is in the table, each statement only updates. *)
Lemma fold_upsert_updates rows t :
  (forall r, In r rows -> existsb (same_key r) t = true) ->
  fold_left upsert rows t = map (resolve_all rows) t.
Proof.
  revert t. induction rows as [|r rows IH]; intros t H; cbn [fold_left].
  - unfold resolve_all. cbn [fold_left]. now rewrite map_id.
  - unfold upsert at 2. rewrite (H r) by now left.
    rewrite IH.
    + rewrite map_map. reflexivity.
    + intros r' Hr'. rewrite existsb_map_resolve. apply H. now right.
Qed.

Lemma same_key_from_existsb r t x :
  existsb (same_key r) t = false -> In x t -> same_key r x = false.
Proof.
  intros H Hin. destruct (same_key r x) eqn:E; [|reflexivity].
  assert (existsb (same_key r) t = true) by (apply existsb_exists; eauto).
  congruence.
Qed.

(** Every row of the table after the INSERT already carries what the
    proposed rows would write into it. *)
Lemma fold_upsert_settled rows t x :
  In x (fold_left upsert rows t) -> resolve_all rows x = x.
Proof.
  revert x. induction rows as [|r rows IH] using rev_ind; intros x Hin.
  - reflexivity.
  - rewrite fold_left_app in Hin. cbn [fold_left] in Hin.
    unfold resolve_all. rewrite fold_left_app. cbn [fold_left].
    fold (resolve_all rows x).
    pose proof (resolve_all_kept rows x) as Hk.
    rewrite upsert_eq in Hin.
    destruct (existsb (same_key r) (fold_left upsert rows t)) eqn:Hex.
    + apply in_map_iff in Hin. destruct Hin as (x' & <- & Hx').
      unfold resolve at 2. destruct (same_key r x') eqn:Hs.
      * unfold resolve.
        rewrite (same_key_kept r _ _ (resolve_all_kept rows _)).
        rewrite (same_key_kept r _ _ (on_conflict_kept x' r)), Hs.
        apply on_conflict_from_kept.
        eapply kept_trans; [apply resolve_all_kept | apply on_conflict_kept].
      * rewrite (IH _ Hx'). unfold resolve. now rewrite Hs.
    + apply in_app_or in Hin. destruct Hin as [Hin | [<- | []]].
      * rewrite (IH _ Hin). unfold resolve.
        now rewrite (same_key_from_existsb _ _ _ Hex Hin).
      * unfold resolve. rewrite (same_key_kept r _ _ Hk).
        unfold same_key. rewrite key_eqb_refl.
        rewrite (on_conflict_from_kept _ _ r Hk). apply on_conflict_self.
Qed.

(** Replace, not add: the same rows applied again change nothing. *)
Lemma fold_upsert_idempotent rows t :
  fold_left upsert rows (fold_left upsert rows t) = fold_left upsert rows t.
Proof.
  rewrite fold_upsert_updates by (intros r Hr; now apply fold_upsert_has_keys).
  rewrite <- (map_id (fold_left upsert rows t)) at 2.
  apply map_ext_in. intros x Hx. now apply fold_upsert_settled with (t := t).
Qed.

(** Whether a page is accepted does not depend on the table. *)
Lemma foldM_insert_query pages t :
  foldM (fun t page => insert_query page t) pages t =
  (rowss <- mapM accept_page pages ;;
   Returned (fold_left upsert (List.concat rowss) t)).
Proof.
  revert t. induction pages as [|page pages IH]; intros t; cbn [foldM mapM].
  - reflexivity.
  - unfold insert_query at 1. destruct (accept_page page) as [rows|e];
      cbn [bind]; [|reflexivity].
    rewrite IH. destruct (mapM _ pages) as [rowss|e]; cbn [bind List.concat];
      [|reflexivity].
    now rewrite fold_left_app.
Qed.

Lemma execute_values_idempotent records db db1 :
  execute_values records db = Returned db1 ->
  execute_values records db1 = Returned db1.
Proof.
  unfold execute_values.
  destruct (crm_flattened_balance db) as [t|]; [|discriminate].
  intros H. bind_inv H as t' Ht'. injection H as <-.
  rewrite table_of_with_table.
  rewrite foldM_insert_query in Ht' |- *.
  bind_inv Ht' as rowss Hrowss. injection Ht' as <-.
  rewrite Hrowss. cbn [bind].
  now rewrite fold_upsert_idempotent, with_table_twice.
Qed.

End CrmInsertFacts.

(** ** The claims about crm.py *)

Module CrmClaims.
Import Schema Connection Crm Notions CrmRebuildFacts CrmBalanceFacts CrmInsertFacts
  Fixtures.

Lemma db_john_table : crm_flattened_balance db_john = Some [john_row].
Proof. vm_compute. reflexivity. Qed.




(** C3 at a failing input: John's row is in the table; the production query
    now returns an account without a device.  The INSERT raises on the NULL
    key, the rollback undoes only the INSERT, and the table stays dropped
    and re-created empty: John's row is lost. *)
Lemma failed_insert_loses_old_rows :
  crm_flattened_balance db_john = Some [john_row] /\
  process_crm_data_1 always_up always_up [no_device] 1765116000 db_john =
  (Raised NotNullViolation, with_crm_flattened_balance (Some []) db_john).
Proof. vm_compute. split; reflexivity. Qed.

(** Neither pass of crm.py writes the watermark table. *)
Lemma crm_passes_leave_watermark c1 c2 df now db :
  processing_state (snd (process_crm_data_1 c1 c2 df now db)) = processing_state db
  /\ processing_state (snd (update_crm_balances_from_cdr c1 db)) = processing_state db.
Proof.
  destruct (process_crm_data_1_frame c1 c2 df now db) as [t ->].
  destruct (update_crm_balances_from_cdr_frame c1 db) as [t' ->].
  split; reflexivity.
Qed.

(** The balance pass, for comparison, is all or nothing. *)
Lemma update_crm_balances_from_cdr_atomic c db e :
  fst (update_crm_balances_from_cdr c db) = Raised e ->
  snd (update_crm_balances_from_cdr c db) = db.
Proof.
  destruct (fst (Database.get_db_connection c)) as [k|e'] eqn:Hc.
  - rewrite update_connected by (now exists k).
    destruct (balances db); [discriminate | reflexivity].
  - unfold update_crm_balances_from_cdr. now rewrite Hc.
Qed.

(** *** The balance pass, row by row *)

(** Each row after the pass comes from the row at the same place before it,
    through the first and then the second UPDATE. *)
Lemma pass_rows c db db' :
  update_crm_balances_from_cdr c db = (Returned tt, db') ->
  exists from,
    from_clause db = Returned from /\
    Forall2 (fun r r2 => exists r1, set_usage from r = Returned r1 /\
                                    set_totals r1 = Returned r2)
            (rows db) (rows db').
Proof.
  intros H. apply update_Returned in H.
  destruct (balances_Returned _ _ H)
    as (t & from & t1 & t2 & Ht & Hfrom & H1 & H2 & ->).
  exists from. split; [exact Hfrom|].
  unfold rows. rewrite Ht, table_of_with_table.
  apply mapM_Forall2 in H1, H2. clear H Ht Hfrom. revert t2 H2.
  induction H1 as [|r r1 t t1 Hr _ IH]; intros t2 H2; inversion H2; subst;
    constructor; eauto.
Qed.

Lemma usage_of_profile from r r' :
  profile r' = profile r -> usage_of from r' = usage_of from r.
Proof. unfold usage_of. now intros ->. Qed.

Lemma data_cost_expr_formula (total_bytes : option Z) :
  (data_cost_expr total_bytes ==
   inject_Z (Sql.coalesce total_bytes 0) / inject_Z (2 ^ 30)
   * inject_Z DATA_COST_PER_GB)%Q.
Proof.
  unfold data_cost_expr. rewrite inject_Z_mult.
  change (inject_Z (2 ^ 30)) with 1073741824%Q. field.
Qed.

(** Up to a pebibyte of usage the data cost fits its column: the
    assignment returns. *)
Lemma data_cost_zar_returns (b : Z) :
  0 <= b <= 2 ^ 50 ->
  exists c, Sql.decimal_10_2 (data_cost_expr (Some b)) = Returned c.
Proof.
  intros [Hlo Hhi]. unfold Sql.decimal_10_2, Sql.check_decimal_10_2.
  set (x := (data_cost_expr (Some b) * 100)%Q).
  pose proof (SqlFacts.round_half_away_near x) as Hn.
  apply Qabs_Qle_condition in Hn.
  assert (Hx : (0 <= x /\ x <= 5138022400)%Q).
  { unfold x, data_cost_expr, DATA_COST_PER_GB. cbn [Sql.coalesce].
    rewrite inject_Z_mult.
    rewrite Zle_Qle in Hlo, Hhi.
    change (inject_Z (2 ^ 50)) with 1125899906842624%Q in Hhi.
    change (inject_Z 0) with 0%Q in Hlo.
    change (inject_Z 49) with 49%Q.
    unfold Qdiv. change (/ 1073741824)%Q with (1 # 1073741824)%Q.
    split; lra. }
  assert (Hr : 0 <= Sql.round_half_away x <= 5138022400).
  { split.
    - assert (H : -1 < Sql.round_half_away x); [|lia].
      rewrite Zlt_Qlt. change (inject_Z (-1)) with (-(1))%Q. lra.
    - assert (H : Sql.round_half_away x < 5138022401); [|lia].
      rewrite Zlt_Qlt. change (inject_Z 5138022401) with 5138022401%Q. lra. }
  exists (Sql.round_half_away x).
  replace (Z.abs (Sql.round_half_away x) <=? Sql.decimal_10_2_max) with true;
    [reflexivity|].
  symmetry. apply Z.leb_le. unfold Sql.decimal_10_2_max. lia.
Qed.

(** C1, as stated, fails: for 1,000,000,000 bytes the pass stores 45.63,
    which is not 1,000,000,000 / 2^30 * 49. *)
Lemma data_cost_zar_not_exact :
  exists row,
    rows (snd (update_crm_balances_from_cdr always_up
                 (with_cdr [data_record "27820000001" 600000000 400000000] []
                    db_john))) = [row] /\
    total_data_bytes row = 1000000000 /\
    data_cost_zar row = 4563 /\
    ~ (Sql.of_hundredths (data_cost_zar row) ==
       inject_Z (total_data_bytes row) / inject_Z (2 ^ 30)
       * inject_Z DATA_COST_PER_GB)%Q.
Proof.
  eexists. split; [vm_compute; reflexivity|].
  split; [reflexivity|]. split; [reflexivity|].
  vm_compute. discriminate.
Qed.

(** C1, amended: for a row the balance pass updates from a usage total of
    [b] bytes, the stored byte count is [b] and the stored data cost is
    b * 49 / 2^30 rounded to two decimals, hence within half a hundredth of
    b / 2^30 * 49; for b = 1,073,741,824 it is 49.00. *)
Theorem data_cost_zar_stored c db db' from row u :
  update_crm_balances_from_cdr c db = (Returned tt, db') ->
  from_clause db = Returned from ->
  In row (rows db') ->
  usage_of from row = Some u ->
  let b := Sql.coalesce (total_bytes u) 0 in
  DATA_COST_PER_GB = 49 /\
  total_data_bytes row = b /\
  data_cost_zar row =
    Sql.round_half_away
      (inject_Z b / inject_Z (2 ^ 30) * inject_Z DATA_COST_PER_GB * 100)%Q /\
  (Qabs (Sql.of_hundredths (data_cost_zar row)
         - inject_Z b / inject_Z (2 ^ 30) * inject_Z DATA_COST_PER_GB)
   <= 1 # 200)%Q /\
  (b = 1073741824 -> data_cost_zar row = 4900).
Proof.
  intros Hpass Hfrom Hin Hu b.
  destruct (pass_rows _ _ _ Hpass) as (from' & Hfrom' & Hrows).
  assert (from' = from) by congruence. subst from'.
  destruct (Forall2_In_r _ _ _ _ Hrows Hin) as (r & _ & r1 & H1 & H2).
  destruct (set_totals_Returned _ _ H2) as (Hp2 & Hb2 & Hd2 & _).
  destruct (set_usage_Returned _ _ _ H1) as (Hp1 & _ & _ & Hmatch).
  rewrite <- (usage_of_profile from r r1 Hp1),
          <- (usage_of_profile from r1 row Hp2), Hu in Hmatch.
  destruct Hmatch as (Hb & Hdc & _).
  rewrite Hb2, Hd2.
  assert (Hround : data_cost_zar r1 =
            Sql.round_half_away
              (inject_Z b / inject_Z (2 ^ 30) * inject_Z DATA_COST_PER_GB * 100)%Q).
  { rewrite (SqlFacts.decimal_10_2_Returned _ _ Hdc).
    apply SqlFacts.round_half_away_comp.
    apply Qmult_comp; [apply data_cost_expr_formula | reflexivity]. }
  split; [reflexivity|]. split; [exact Hb|]. split; [exact Hround|]. split.
  - eapply Qle_trans; [|apply (SqlFacts.decimal_10_2_near _ _ Hdc)].
    apply Qle_lteq. right. apply Qabs_wd.
    apply Qplus_comp; [reflexivity|].
    apply Qopp_comp. symmetry. apply data_cost_expr_formula.
  - intros Hgib. rewrite Hround, Hgib. vm_compute. reflexivity.
Qed.

(** One GiB for John. *)
Lemma data_cost_zar_stored_witness :
  exists row,
    rows (snd (update_crm_balances_from_cdr always_up
                 (with_cdr [data_record "27820000001" 536870912 536870912] []
                    db_john))) = [row] /\
    total_data_bytes row = 1073741824 /\ data_cost_zar row = 4900.
Proof.
  set (db := with_cdr [data_record "27820000001" 536870912 536870912] [] db_john).
  set (db' := snd (update_crm_balances_from_cdr always_up db)).
  set (u := {| usage_msisdn := Some "27820000001";
               total_bytes := Some 1073741824;
               total_seconds := None |}).
  set (row := {| profile := john;
                 total_data_bytes := 1073741824;
                 data_cost_zar := 4900;
                 total_call_seconds := 0;
                 voice_cost_zar := 0;
                 total_cost_zar := 4900;
                 running_balance_zar := -4900;
                 created_at := 1765112400 |}).
  exists row.
  assert (Hrows : rows db' = [row]) by (vm_compute; reflexivity).
  assert (Hpass : update_crm_balances_from_cdr always_up db = (Returned tt, db'))
    by (vm_compute; reflexivity).
  assert (Hfrom : from_clause db = Returned [u]) by (vm_compute; reflexivity).
  assert (Hin : In row (rows db')) by (rewrite Hrows; now left).
  assert (Hu : usage_of [u] row = Some u) by (vm_compute; reflexivity).
  destruct (data_cost_zar_stored _ _ _ _ _ _ Hpass Hfrom Hin Hu)
    as (_ & Hb & _ & _ & Hgib).
  split; [exact Hrows|]. split; [exact Hb | apply Hgib; reflexivity].
Defined.

(** The FROM clause is cdr_summary LEFT JOIN voice_summary: a subscriber
    with voice records and no data record has no row in it, and the pass
    leaves the subscriber's row as it was, the sixty seconds uncounted. *)
Lemma voice_only_subscriber_is_skipped :
  let db := with_cdr [] [voice_record "27820000001" 60] db_john in
  update_crm_balances_from_cdr always_up db = (Returned tt, db) /\
  rows db = [john_row] /\
  total_call_seconds john_row = 0 /\ voice_cost_zar john_row = 0.
Proof. vm_compute. repeat split; reflexivity. Qed.


(** C4, as stated, fails.  John had one GiB of usage at the first pass
    (cost 49.00, total 49.00); at the second pass his only data record has
    no bytes.  The first UPDATE resets his costs to zero, the second skips
    his row because of its WHERE clause, and the total stays 49.00. *)
Lemma totals_go_stale :
  let db1 := snd (update_crm_balances_from_cdr always_up
                    (with_cdr [data_record "27820000001" 536870912 536870912] []
                       db_john)) in
  let pass2 := update_crm_balances_from_cdr always_up
                 (with_cdr [data_record "27820000001" 0 0] [] db1) in
  exists row,
    fst pass2 = Returned tt /\ rows (snd pass2) = [row] /\
    data_cost_zar row = 0 /\ voice_cost_zar row = 0 /\
    total_cost_zar row = 4900 /\ running_balance_zar row = -4900 /\
    total_cost_zar row <> data_cost_zar row + voice_cost_zar row.
Proof.
  eexists. split; [vm_compute; reflexivity|].
  split; [vm_compute; reflexivity|].
  repeat (split; [reflexivity|]). discriminate.
Qed.

(** C4, amended: after a balance pass, every row with total_data_bytes > 0
    or total_call_seconds > 0 has total_cost = data_cost + voice_cost and
    running_balance = -total_cost; every other row has the total_cost and
    the running_balance it had before the pass. *)
Theorem totals_follow_costs c db db' :
  update_crm_balances_from_cdr c db = (Returned tt, db') ->
  Forall2
    (fun r r' =>
       if has_usage r'
       then total_cost_zar r' = data_cost_zar r' + voice_cost_zar r' /\
            running_balance_zar r' = - total_cost_zar r'
       else total_cost_zar r' = total_cost_zar r /\
            running_balance_zar r' = running_balance_zar r)
    (rows db) (rows db').
Proof.
  intros Hpass. destruct (pass_rows _ _ _ Hpass) as (from & _ & Hrows).
  eapply Forall2_impl; [|exact Hrows].
  intros r r2 (r1 & H1 & H2). cbv beta.
  destruct (set_usage_Returned _ _ _ H1) as (_ & Ht1 & Hr1 & _).
  destruct (set_totals_Returned _ _ H2) as (_ & Hb & Hd & Hs & Hv & Htot).
  assert (Hu : has_usage r2 = has_usage r1)
    by (unfold has_usage; now rewrite Hb, Hs).
  rewrite Hu. destruct (has_usage r1).
  - destruct Htot as [Ht Hr]. rewrite Hd, Hv, Hr, Ht. auto.
  - subst r2. auto.
Qed.

Lemma totals_follow_costs_witness :
  let db := with_cdr [data_record "27820000001" 600000000 400000000]
                     [voice_record "27820000001" 61] db_john in
  let db' := snd (update_crm_balances_from_cdr always_up db) in
  update_crm_balances_from_cdr always_up db = (Returned tt, db') /\
  Forall2
    (fun r r' =>
       if has_usage r'
       then total_cost_zar r' = data_cost_zar r' + voice_cost_zar r' /\
            running_balance_zar r' = - total_cost_zar r'
       else total_cost_zar r' = total_cost_zar r /\
            running_balance_zar r' = running_balance_zar r)
    (rows db) (rows db').
Proof.
  intros db db'.
  assert (Hpass : update_crm_balances_from_cdr always_up db = (Returned tt, db'))
    by (vm_compute; reflexivity).
  split; [exact Hpass | exact (totals_follow_costs _ _ _ Hpass)].
Defined.

End CrmClaims.

(** ** The outer merge of the usage frames *)

Module MergeFacts.
Import MergeTest Notions Fixtures.

Lemma usage_key_eqb_eq (a b : usage_key) : usage_key_eqb a b = true <-> a = b.
Proof.
  destruct a as [a1 a2], b as [b1 b2]. unfold usage_key_eqb. cbn [fst snd].
  rewrite andb_true_iff, !String.eqb_eq. split; [intros [-> ->] | intros [= -> ->]]; auto.
Qed.

Lemma usage_key_eqb_refl (a : usage_key) : usage_key_eqb a a = true.
Proof. now apply usage_key_eqb_eq. Qed.

Lemma filter_on_key_absent {V} (k : usage_key) (df : list (usage_key * V)) :
  ~ In k (map fst df) -> filter (on_key k) df = [].
Proof.
  induction df as [|row df IH]; cbn [map filter In]; intros Hk; [reflexivity|].
  change (on_key k row) with (usage_key_eqb (fst row) k).
  destruct (usage_key_eqb (fst row) k) eqn:E.
  - apply usage_key_eqb_eq in E. tauto.
  - apply IH. tauto.
Qed.

(** With one row per key at most, a key selects no row or one. *)
Lemma filter_on_key_unique {V} (k : usage_key) (df : list (usage_key * V)) :
  NoDup (map fst df) ->
  (~ In k (map fst df) /\ filter (on_key k) df = []) \/
  (In k (map fst df) /\ exists v, filter (on_key k) df = [(k, v)]).
Proof.
  induction df as [|[k' v] df IH]; cbn [map fst]; intros Hnd.
  - left. split; [intros [] | reflexivity].
  - inversion Hnd as [|? ? Hnotin Hnd']; subst. cbn [filter].
    change (on_key k (k', v)) with (usage_key_eqb k' k).
    destruct (usage_key_eqb k' k) eqn:E.
    + apply usage_key_eqb_eq in E. subst k'. right. split; [now left|].
      exists v. now rewrite (filter_on_key_absent k df Hnotin).
    + assert (k' <> k) by (intros ->; now rewrite usage_key_eqb_refl in E).
      destruct (IH Hnd') as [[Hn Hf] | [Hi Hf]].
      * left. split; [intros [?|?]; tauto | exact Hf].
      * right. split; [now right | exact Hf].
Qed.

Lemma find_as_filter {A} (p : A -> bool) (l : list A) :
  find p l = match filter p l with [] => None | x :: _ => Some x end.
Proof.
  induction l as [|a l IH]; cbn [find filter]; [reflexivity|].
  now destruct (p a).
Qed.

Lemma existsb_as_filter {A} (p : A -> bool) (l : list A) :
  existsb p l = match filter p l with [] => false | _ :: _ => true end.
Proof.
  induction l as [|a l IH]; cbn [existsb filter]; [reflexivity|].
  now destruct (p a).
Qed.

Lemma filter_filter_comm {A} (p q : A -> bool) (l : list A) :
  filter p (filter q l) = filter q (filter p l).
Proof.
  induction l as [|a l IH]; cbn [filter]; [reflexivity|].
  destruct (p a) eqn:Hp, (q a) eqn:Hq; cbn [filter]; rewrite ?Hp, ?Hq, IH;
    reflexivity.
Qed.

Lemma filter_map_key {A B} (p : B -> bool) (q : A -> bool) (f : A -> B)
    (l : list A) :
  (forall a, p (f a) = q a) -> filter p (map f l) = map f (filter q l).
Proof.
  intros H. induction l as [|a l IH]; cbn [map filter]; [reflexivity|].
  rewrite H. destruct (q a); cbn [map]; now rewrite IH.
Qed.

Lemma filter_all {A} (p : A -> bool) (l : list A) :
  (forall a, In a l -> p a = true) -> filter p l = l.
Proof.
  induction l as [|a l IH]; cbn [filter]; intros H; [reflexivity|].
  rewrite (H a) by now left. rewrite IH; [reflexivity|].
  intros b Hb. apply H. now right.
Qed.

Lemma filter_none {A} (p : A -> bool) (l : list A) :
  (forall a, In a l -> p a = false) -> filter p l = [].
Proof.
  induction l as [|a l IH]; cbn [filter]; intros H; [reflexivity|].
  rewrite (H a) by now left. apply IH. intros b Hb. apply H. now right.
Qed.

Lemma joined_key data_df l row : In row (joined data_df l) -> fst (fst row) = fst l.
Proof.
  unfold joined. destruct (filter _ data_df) as [|r rs].
  - intros [<-|[]]. reflexivity.
  - intros Hin. apply in_map_iff in Hin. now destruct Hin as (x & <- & _).
Qed.

Lemma filter_joined k data_df voice_df :
  filter (at_key k) (flat_map (joined data_df) voice_df) =
  flat_map (joined data_df) (filter (on_key k) voice_df).
Proof.
  induction voice_df as [|l voice_df IH]; cbn [flat_map filter]; [reflexivity|].
  rewrite filter_app, IH. change (on_key k l) with (usage_key_eqb (fst l) k).
  destruct (usage_key_eqb (fst l) k) eqn:E; cbn [flat_map].
  - f_equal. apply filter_all. intros row Hrow. unfold at_key.
    now rewrite (joined_key _ _ _ Hrow).
  - rewrite filter_none; [reflexivity|]. intros row Hrow. unfold at_key.
    now rewrite (joined_key _ _ _ Hrow).
Qed.

Lemma merge_outer_eq voice_df data_df :
  merge_outer voice_df data_df =
  flat_map (joined data_df) voice_df
  ++ map (fun r => (fst r, None, Some (snd r)))
         (filter (fun r => negb (existsb (on_key (fst r)) voice_df)) data_df).
Proof. reflexivity. Qed.

(** When each frame has at most one row per (datetime, msisdn), the merged
    frame has, for every key of either frame, exactly one row, with the
    columns of both frames at that key. *)
Lemma merged_row_at_key
    (voice_df : list (usage_key * voice_columns))
    (data_df : list (usage_key * data_columns)) (k : usage_key) :
  NoDup (map fst voice_df) -> NoDup (map fst data_df) ->
  In k (map fst voice_df) \/ In k (map fst data_df) ->
  filter (fun row => usage_key_eqb (fst (fst row)) k) (merged_df voice_df data_df) =
  [ (k, columns_at voice_zero k voice_df, columns_at data_zero k data_df) ].
Proof.
  intros Hv Hd Hk. unfold merged_df, fillna.
  rewrite (filter_map_key _ (at_key k)) by (now intros [[k' v] d]).
  rewrite merge_outer_eq, filter_app, filter_joined.
  rewrite (filter_map_key _ (on_key k)) by reflexivity.
  rewrite filter_filter_comm.
  unfold columns_at. rewrite !find_as_filter.
  destruct (filter_on_key_unique k voice_df Hv) as [[Hnv Hfv] | [_ [v Hfv]]];
    destruct (filter_on_key_unique k data_df Hd) as [[Hnd Hfd] | [_ [d Hfd]]];
    rewrite Hfv, Hfd; cbn [flat_map filter map app fst snd].
  - tauto.
  - rewrite existsb_as_filter, Hfv. reflexivity.
  - unfold joined. cbn [fst snd]. rewrite Hfd. reflexivity.
  - unfold joined. cbn [fst snd]. rewrite Hfd, existsb_as_filter, Hfv.
    reflexivity.
Qed.

End MergeFacts.

(** ** The sessionizer *)

Module CdrFacts.
Import Schema Cdr Notions.

Lemma scan_split gap current events :
  scan gap current events = closed gap current events ++ [final gap current events].
Proof.
  revert current. induction events as [|e rest IH]; intros current;
    cbn [scan closed]; [reflexivity|].
  unfold final. cbn [fold_left]. unfold step at 2.
  destruct (continues gap current e); rewrite IH; reflexivity.
Qed.

Lemma final_snoc gap current events e :
  final gap current (events ++ [e]) = step gap (final gap current events) e.
Proof. unfold final. now rewrite fold_left_app. Qed.

Lemma closed_snoc gap current events e :
  closed gap current (events ++ [e]) =
  closed gap current events ++
  (if continues gap (final gap current events) e then []
   else [final gap current events]).
Proof.
  revert current. induction events as [|e' rest IH]; intros current;
    cbn [app closed].
  - unfold final. cbn [fold_left]. now destruct (continues gap current e).
  - unfold final. cbn [fold_left]. unfold step at 2 4.
    destruct (continues gap current e'); rewrite IH; reflexivity.
Qed.

Lemma step_subscriber gap s e : session_msisdn (step gap s e) = session_msisdn s.
Proof. unfold step. now destruct (continues gap s e). Qed.

Lemma final_subscriber gap current events :
  session_msisdn (final gap current events) = session_msisdn current.
Proof.
  unfold final. revert current.
  induction events as [|e rest IH]; intros current; cbn [fold_left];
    [reflexivity|]. now rewrite IH, step_subscriber.
Qed.

(** The open session ends at the event just folded in, on its tower. *)
Lemma step_covers gap s e :
  tower_id (step gap s e) = event_tower e /\ session_end (step gap s e) = event_time e.
Proof.
  unfold step, continues.
  destruct (event_tower e =? tower_id s) eqn:E; cbn [andb].
  - apply Z.eqb_eq in E.
    destruct (event_time e - session_end s <=? gap); cbn; auto.
  - cbn. auto.
Qed.

Lemma scan_snoc_new_session gap current events e :
  continues gap (final gap current events) e = false ->
  scan gap current (events ++ [e]) =
  scan gap current events ++ [open_at (session_msisdn current) e].
Proof.
  intros Hc. rewrite !scan_split, closed_snoc, final_snoc. unfold step.
  rewrite Hc, final_subscriber, <- app_assoc. reflexivity.
Qed.

Lemma interactions_app a b : interactions (a ++ b) = interactions a + interactions b.
Proof.
  unfold interactions. induction a as [|s a IH]; cbn [app map fold_right];
    [reflexivity|]. rewrite IH. lia.
Qed.

Lemma interactions_scan gap current events :
  interactions (scan gap current events) =
  interaction_count current + Z.of_nat (List.length events).
Proof.
  revert current. induction events as [|e rest IH]; intros current;
    cbn [scan List.length].
  - unfold interactions. cbn [map fold_right]. lia.
  - destruct (continues gap current e).
    + rewrite IH. cbn [extend interaction_count]. lia.
    + change (current :: scan gap (open_at (session_msisdn current) e) rest)
        with ([current] ++ scan gap (open_at (session_msisdn current) e) rest).
      rewrite interactions_app, IH. unfold interactions.
      cbn [map fold_right open_at interaction_count]. lia.
Qed.

(** C6: on the three tower events [(T1,t0), (T1,t0+1m), (T2,t0+5m)] with a
    gap threshold of two minutes the sessionizer gives the two sessions
    (T1, t0, t0+1m, 2) and (T2, t0+5m, t0+5m, 1).  A single event gives one
    session that starts and ends at it with count 1; a trailing event on
    another tower, or later than the threshold after the event before it,
    adds such a session after the sessions of the events before it and
    changes none of them; whatever the events, the last session ends at the
    last event, and the counts of the sessions add up to the number of
    events, so no event is dropped. *)
Theorem sessionize_trailing_event (subscriber : string) :
  (forall T1 T2 t0,
     sessionize subscriber 120
       [ {| event_tower := T1; event_time := t0 |};
         {| event_tower := T1; event_time := t0 + 60 |};
         {| event_tower := T2; event_time := t0 + 300 |} ] =
     [ {| session_msisdn := subscriber; tower_id := T1; session_start := t0;
          session_end := t0 + 60; interaction_count := 2 |};
       {| session_msisdn := subscriber; tower_id := T2; session_start := t0 + 300;
          session_end := t0 + 300; interaction_count := 1 |} ])
  /\ (forall gap e,
        sessionize subscriber gap [e] =
        [ {| session_msisdn := subscriber; tower_id := event_tower e;
             session_start := event_time e; session_end := event_time e;
             interaction_count := 1 |} ])
  /\ (forall gap events p e,
        event_tower e <> event_tower p \/ gap < event_time e - event_time p ->
        sessionize subscriber gap (events ++ [p; e]) =
        sessionize subscriber gap (events ++ [p]) ++
        [ {| session_msisdn := subscriber; tower_id := event_tower e;
             session_start := event_time e; session_end := event_time e;
             interaction_count := 1 |} ])
  /\ (forall gap events e,
        exists before s,
          sessionize subscriber gap (events ++ [e]) = before ++ [s] /\
          session_msisdn s = subscriber /\
          tower_id s = event_tower e /\ session_end s = event_time e)
  /\ (forall gap events,
        interactions (sessionize subscriber gap events) =
        Z.of_nat (List.length events)).
Proof.
  split; [|split; [|split; [|split]]].
  - intros T1 T2 t0. unfold sessionize. cbn [scan].
    unfold continues. cbn [open_at extend tower_id session_end event_tower
                            event_time session_msisdn].
    rewrite Z.eqb_refl.
    replace (t0 + 60 - t0 <=? 120) with true by (symmetry; apply Z.leb_le; lia).
    replace (t0 + 300 - (t0 + 60) <=? 120) with false
      by (symmetry; apply Z.leb_gt; lia).
    cbn [andb]. rewrite andb_false_r. reflexivity.
  - reflexivity.
  - intros gap events p e Hnew.
    assert (Hc : forall current l,
               continues gap (final gap current (l ++ [p])) e = false).
    { intros current l. rewrite final_snoc. unfold continues.
      destruct (step_covers gap (final gap current l) p) as [-> ->].
      destruct Hnew as [Ht | Hg].
      - apply Z.eqb_neq in Ht. now rewrite Ht.
      - apply Z.leb_gt in Hg. rewrite Hg. apply andb_false_r. }
    change (events ++ [p; e]) with (events ++ [p] ++ [e]). rewrite app_assoc.
    destruct events as [|e0 events]; cbn [app sessionize].
    + assert (H0 : continues gap (final gap (open_at subscriber p) []) e = false).
      { unfold continues, final. cbn.
        destruct Hnew as [Ht | Hg].
        - apply Z.eqb_neq in Ht. now rewrite Ht.
        - apply Z.leb_gt in Hg. rewrite Hg. apply andb_false_r. }
      apply (scan_snoc_new_session gap (open_at subscriber p) [] e H0).
    + apply (scan_snoc_new_session gap (open_at subscriber e0) (events ++ [p]) e).
      apply Hc.
  - intros gap events e.
    destruct events as [|e0 events]; cbn [app sessionize].
    + exists [], (open_at subscriber e). repeat split.
    + rewrite scan_split.
      exists (closed gap (open_at subscriber e0) (events ++ [e])),
             (final gap (open_at subscriber e0) (events ++ [e])).
      split; [reflexivity|]. rewrite final_subscriber. split; [reflexivity|].
      rewrite final_snoc. apply step_covers.
  - intros gap events. destruct events as [|e0 events]; cbn [sessionize].
    + reflexivity.
    + rewrite interactions_scan. cbn [open_at interaction_count List.length]. lia.
Qed.

Lemma sessionize_trailing_event_witness :
  let e0 := {| event_tower := 1; event_time := 0 |} in
  let p := {| event_tower := 1; event_time := 60 |} in
  let e := {| event_tower := 2; event_time := 300 |} in
  sessionize "27820000001" 120 ([e0] ++ [p; e]) =
  sessionize "27820000001" 120 ([e0] ++ [p]) ++
  [ {| session_msisdn := "27820000001"; tower_id := 2; session_start := 300;
       session_end := 300; interaction_count := 1 |} ].
Proof.
  intros e0 p e.
  apply (proj1 (proj2 (proj2 (sessionize_trailing_event "27820000001")))
           120 [e0] p e).
  right. reflexivity.
Defined.

End CdrFacts.

(** ** The cost model and the currency conversion *)

Module HvsFacts.
Import Hvs.

Lemma round_half_even_near (q : Q) :
  (Qabs (inject_Z (round_half_even q) - q) <= 1 # 2)%Q.
Proof.
  unfold round_half_even. apply Qabs_Qle_condition.
  pose proof (Qfloor_le q) as Hlo. pose proof (Qlt_floor q) as Hhi.
  rewrite inject_Z_plus in Hhi. change (inject_Z 1) with 1%Q in Hhi.
  destruct (Qcompare_spec (q - inject_Z (Qfloor q)) (1 # 2)) as [He | Hl | Hg].
  - destruct (Z.even (Qfloor q)).
    + split; lra.
    + rewrite inject_Z_plus. change (inject_Z 1) with 1%Q. split; lra.
  - split; lra.
  - rewrite inject_Z_plus. change (inject_Z 1) with 1%Q. split; lra.
Qed.

Lemma round_half_even_comp (q q' : Q) :
  (q == q')%Q -> round_half_even q = round_half_even q'.
Proof.
  intros H. unfold round_half_even. rewrite (Qfloor_comp _ _ H).
  assert (Hc : (q - inject_Z (Qfloor q') ?= 1 # 2)%Q =
               (q' - inject_Z (Qfloor q') ?= 1 # 2)%Q).
  { apply Qcompare_comp; [|reflexivity].
    apply Qplus_comp; [exact H | reflexivity]. }
  now rewrite Hc.
Qed.

Lemma voice_cost_expr_formula (seconds : Z) :
  (Crm.voice_cost_expr (Some seconds) ==
   inject_Z seconds / 60 * inject_Z Crm.VOICE_COST_PER_MIN)%Q.
Proof.
  unfold Crm.voice_cost_expr. cbn [Sql.coalesce]. rewrite inject_Z_mult. field.
Qed.

(** The streaming helper at one GiB, whatever the rate. *)
Lemma data_cost_wak_one_gib (rate : Q) :
  data_cost_wak rate 1073741824 = round_half_even (49 * rate).
Proof.
  unfold data_cost_wak, convert, data_cost. apply round_half_even_comp.
  change (inject_Z 1073741824 / inject_Z (2 ^ 30) * inject_Z Crm.DATA_COST_PER_GB)%Q
    with (1073741824 / 1073741824 * 49)%Q.
  field.
Qed.

(** test_data_cost_wak of tests/test_hvs.py feeds 1,000,000,000 bytes and
    expects [round (49.0 * WAK_PER_ZAR)].  With a rate of one unit per ZAR
    that is 49, while section 4.3's formula, with 2^30 bytes to the GB, gives
    46 for these bytes. *)
Lemma test_data_cost_wak_at_rate_one :
  data_cost_wak 1 1000000000 = 46 /\ round_half_even (49 * 1) = 49.
Proof. split; vm_compute; reflexivity. Qed.

(** More generally the two values differ for every rate of at least 3/10:
    a helper that passes that test with such a rate does not count 2^30
    bytes to the GB. *)
Lemma test_data_cost_wak_needs_small_rate (rate : Q) :
  (3 # 10 <= rate)%Q ->
  data_cost_wak rate 1000000000 < round_half_even (49 * rate).
Proof.
  intros Hrate. unfold data_cost_wak, convert.
  assert (Hc : (data_cost 1000000000 == 95703125 # 2097152)%Q)
    by (vm_compute; reflexivity).
  rewrite (round_half_even_comp _ ((95703125 # 2097152) * rate))
    by (apply Qmult_comp; [exact Hc | reflexivity]).
  pose proof (round_half_even_near ((95703125 # 2097152) * rate)) as Hx.
  pose proof (round_half_even_near (49 * rate)) as Hy.
  apply Qabs_Qle_condition in Hx, Hy.
  rewrite Zlt_Qlt. lra.
Qed.

(** The conversion keeps within half a minor unit of cost * rate. *)
Lemma convert_near (rate cost : Q) :
  (Qabs (inject_Z (convert rate cost) - cost * rate) <= 1 # 2)%Q.
Proof. apply round_half_even_near. Qed.

(** Sixty seconds through the streaming helper. *)
Lemma voice_cost_wak_one_minute (rate : Q) :
  voice_cost_wak rate 60 = round_half_even (1 * rate).
Proof.
  unfold voice_cost_wak, convert, voice_cost.
  apply round_half_even_comp.
  change (inject_Z 60 / 60 * inject_Z Crm.VOICE_COST_PER_MIN)%Q
    with (60 / 60 * 1)%Q.
  field.
Qed.

End HvsFacts.

(** ** crm.py and the conversion: the voice cost *)

Module VoiceCostFacts.
Import Schema Connection Crm Notions Fixtures.

(** C7, as stated, fails: for 61 seconds the balance pass stores 1.02, which
    is not 61 / 60 * 1. *)
Lemma voice_cost_zar_not_exact :
  exists row,
    rows (snd (update_crm_balances_from_cdr always_up
                 (with_cdr [data_record "27820000001" 1 1]
                           [voice_record "27820000001" 61] db_john))) = [row] /\
    total_call_seconds row = 61 /\
    voice_cost_zar row = 102 /\
    ~ (Sql.of_hundredths (voice_cost_zar row) ==
       inject_Z (total_call_seconds row) / 60 * inject_Z VOICE_COST_PER_MIN)%Q.
Proof.
  eexists. split; [vm_compute; reflexivity|].
  split; [reflexivity|]. split; [reflexivity|].
  vm_compute. discriminate.
Qed.

(** C7, amended: for a row the balance pass updates from a usage total of
    [s] call seconds, the stored second count is [s] and the stored voice
    cost is s * 1 / 60 rounded to two decimals, hence within half a
    hundredth of s / 60 * price_per_minute, the price being the constant 1;
    the conversion to the secondary currency is the integer nearest to
    cost * rate; sixty seconds cost 1.00, which converts to 1 * rate rounded
    to the nearest integer, as sixty seconds do through the streaming
    helper. *)
Theorem voice_cost_and_conversion c db db' from row u :
  update_crm_balances_from_cdr c db = (Returned tt, db') ->
  from_clause db = Returned from ->
  In row (rows db') ->
  usage_of from row = Some u ->
  let s := Sql.coalesce (total_seconds u) 0 in
  VOICE_COST_PER_MIN = 1 /\
  total_call_seconds row = s /\
  voice_cost_zar row =
    Sql.round_half_away
      (inject_Z s / 60 * inject_Z VOICE_COST_PER_MIN * 100)%Q /\
  (Qabs (Sql.of_hundredths (voice_cost_zar row)
         - inject_Z s / 60 * inject_Z VOICE_COST_PER_MIN)
   <= 1 # 200)%Q /\
  (forall rate cost : Q,
     (Qabs (inject_Z (Hvs.convert rate cost) - cost * rate) <= 1 # 2)%Q) /\
  (s = 60 ->
   voice_cost_zar row = 100 /\
   forall rate : Q,
     Hvs.convert rate (Sql.of_hundredths (voice_cost_zar row)) =
     Hvs.round_half_even (1 * rate)) /\
  (forall rate : Q, Hvs.voice_cost_wak rate 60 = Hvs.round_half_even (1 * rate)).
Proof.
  intros Hpass Hfrom Hin Hu s.
  destruct (CrmClaims.pass_rows _ _ _ Hpass) as (from' & Hfrom' & Hrows).
  assert (from' = from) by congruence. subst from'.
  destruct (Forall2_In_r _ _ _ _ Hrows Hin) as (r & _ & r1 & H1 & H2).
  destruct (CrmBalanceFacts.set_totals_Returned _ _ H2)
    as (Hp2 & _ & _ & Hs2 & Hv2 & _).
  destruct (CrmBalanceFacts.set_usage_Returned _ _ _ H1) as (Hp1 & _ & _ & Hmatch).
  rewrite <- (CrmClaims.usage_of_profile from r r1 Hp1),
          <- (CrmClaims.usage_of_profile from r1 row Hp2), Hu in Hmatch.
  destruct Hmatch as (_ & _ & Hs & Hvc).
  rewrite Hs2, Hv2.
  assert (Hround : voice_cost_zar r1 =
            Sql.round_half_away
              (inject_Z s / 60 * inject_Z VOICE_COST_PER_MIN * 100)%Q).
  { rewrite (SqlFacts.decimal_10_2_Returned _ _ Hvc).
    apply SqlFacts.round_half_away_comp.
    apply Qmult_comp; [|reflexivity].
    unfold voice_cost_expr. fold s. rewrite inject_Z_mult. field. }
  assert (H60 : s = 60 -> voice_cost_zar r1 = 100).
  { intros E. rewrite Hround, E. vm_compute. reflexivity. }
  split; [reflexivity|]. split; [exact Hs|]. split; [exact Hround|].
  split; [|split; [exact HvsFacts.convert_near|split]].
  - eapply Qle_trans; [|apply (SqlFacts.decimal_10_2_near _ _ Hvc)].
    apply Qle_lteq. right. apply Qabs_wd.
    apply Qplus_comp; [reflexivity|].
    apply Qopp_comp. unfold voice_cost_expr. fold s.
    rewrite inject_Z_mult. field.
  - intros E. split; [exact (H60 E)|].
    intros rate. rewrite (H60 E). unfold Hvs.convert.
    apply HvsFacts.round_half_even_comp.
    unfold Sql.of_hundredths. change (inject_Z 100) with 100%Q. field.
  - exact HvsFacts.voice_cost_wak_one_minute.
Qed.

(** A minute of calls for John, who has a data record too. *)
Lemma voice_cost_and_conversion_witness :
  exists row,
    rows (snd (update_crm_balances_from_cdr always_up
                 (with_cdr [data_record "27820000001" 1 1]
                           [voice_record "27820000001" 60] db_john))) = [row] /\
    total_call_seconds row = 60 /\ voice_cost_zar row = 100 /\
    Hvs.convert (7 # 2) (Sql.of_hundredths (voice_cost_zar row)) = 4.
Proof.
  set (db := with_cdr [data_record "27820000001" 1 1]
                      [voice_record "27820000001" 60] db_john).
  set (db' := snd (update_crm_balances_from_cdr always_up db)).
  set (u := {| usage_msisdn := Some "27820000001";
               total_bytes := Some 2;
               total_seconds := Some 60 |}).
  set (row := {| profile := john;
                 total_data_bytes := 2;
                 data_cost_zar := 0;
                 total_call_seconds := 60;
                 voice_cost_zar := 100;
                 total_cost_zar := 100;
                 running_balance_zar := -100;
                 created_at := 1765112400 |}).
  exists row.
  assert (Hrows : rows db' = [row]) by (vm_compute; reflexivity).
  assert (Hpass : update_crm_balances_from_cdr always_up db = (Returned tt, db'))
    by (vm_compute; reflexivity).
  assert (Hfrom : from_clause db = Returned [u]) by (vm_compute; reflexivity).
  assert (Hin : In row (rows db')) by (rewrite Hrows; now left).
  assert (Hu : usage_of [u] row = Some u) by (vm_compute; reflexivity).
  destruct (voice_cost_and_conversion _ _ _ _ _ _ Hpass Hfrom Hin Hu)
    as (_ & Hs & _ & _ & _ & H60 & _).
  destruct (H60 eq_refl) as [Hc Hconv].
  split; [exact Hrows|]. split; [exact Hs|]. split; [exact Hc|].
  rewrite Hconv. vm_compute. reflexivity.
Defined.

End VoiceCostFacts.

(** * Further properties of the code *)

(** ** More tools for [outcome] *)

Lemma bind_Raised {A B} (m : outcome A) (f : A -> outcome B) (e : exn) :
  bind m f = Raised e ->
  m = Raised e \/ exists a, m = Returned a /\ f a = Raised e.
Proof. destruct m as [a|e']; simpl; intros H; [eauto | left; congruence]. Qed.

Lemma mapM_Raised {A B} (f : A -> outcome B) (l : list A) (e : exn) :
  mapM f l = Raised e -> exists a, In a l /\ f a = Raised e.
Proof.
  induction l as [|a l IH]; simpl; intros H; [discriminate|].
  apply bind_Raised in H. destruct H as [H | (b & _ & H)].
  - exists a. auto.
  - apply bind_Raised in H. destruct H as [H | (bs & _ & H)]; [|discriminate].
    destruct (IH H) as (a' & Hin & Ha'). exists a'. auto.
Qed.

Lemma foldM_Raised {A B} (f : A -> B -> outcome A) (l : list B) (a : A) (e : exn) :
  foldM f l a = Raised e -> exists a' b, In b l /\ f a' b = Raised e.
Proof.
  revert a. induction l as [|b l IH]; simpl; intros a H; [discriminate|].
  apply bind_Raised in H. destruct H as [H | (a1 & _ & H)].
  - exists a, b. auto.
  - destruct (IH _ H) as (a' & b' & Hin & Hf). exists a', b'. auto.
Qed.

Ltac raised_step H :=
  apply bind_Raised in H; destruct H as [H | (? & _ & H)].

(** ** More on rounding and range checks *)

Module SqlMore.
Import Sql.

Lemma integer_Raised z e : integer z = Raised e -> e = NumericValueOutOfRange.
Proof. unfold integer. destruct (in_int4 z); congruence. Qed.

Lemma bigint_Raised z e : bigint z = Raised e -> e = NumericValueOutOfRange.
Proof. unfold bigint. destruct (in_int8 z); congruence. Qed.

Lemma check_decimal_10_2_Raised h e :
  check_decimal_10_2 h = Raised e -> e = NumericValueOutOfRange.
Proof. unfold check_decimal_10_2. destruct (_ <=? _); congruence. Qed.

Lemma varchar_Raised n v e :
  varchar n v = Raised e -> e = StringDataRightTruncation.
Proof.
  unfold varchar. destruct v as [s|]; [|discriminate].
  destruct (_ <=? _)%nat; [discriminate|].
  destruct (all_spaces _); congruence.
Qed.

Lemma decimal_10_2_Raised q e :
  decimal_10_2 q = Raised e -> e = NumericValueOutOfRange.
Proof. apply check_decimal_10_2_Raised. Qed.

Lemma round_half_away_nonneg (q : Q) : (0 <= q)%Q -> 0 <= round_half_away q.
Proof.
  intros H. unfold round_half_away.
  apply Qle_bool_iff in H. rewrite H. apply Qle_bool_iff in H.
  change (Qfloor 0 <= Qfloor (q + (1 # 2))).
  apply Qfloor_resp_le. lra.
Qed.

End SqlMore.

(** ** database.py: what the retry loop has done when it ends *)

Module DatabaseMore.
Import Database Notions DatabaseFacts.

(** Among the first [n] attempts, all fail or one is the first to succeed. *)
Lemma first_success connect (n : nat) :
  (forall j, (j < n)%nat -> connect j = false) \/
  (exists k, (k < n)%nat /\ connect k = true /\
             forall j, (j < k)%nat -> connect j = false).
Proof.
  induction n as [|n IH].
  - left. intros j Hj. lia.
  - destruct IH as [Hall | (k & Hk & Hc & Hf)].
    + destruct (connect n) eqn:E.
      * right. exists n. auto.
      * left. intros j Hj. destruct (Nat.eq_dec j n) as [->|]; [exact E|].
        apply Hall. lia.
    + right. exists k. split; [lia | auto].
Qed.

(** X1: whatever the database does, [get_db_connection] ends after at most
    ten attempts, having logged one error and slept five seconds for each
    failed attempt, in order.  A connection it returns is that of the first
    attempt that succeeded, and no attempt follows it; it never returns a
    later one.  When it raises, ten attempts have failed and fifty seconds
    have been slept, the last five after the last failure. *)
Theorem get_db_connection_outcome connect r t :
  get_db_connection connect = (r, t) ->
  (attempts_made t <= 10)%nat /\
  errors_logged t = map S (seq 0 (List.length (errors_logged t))) /\
  seconds_slept t = 5 * Z.of_nat (List.length (errors_logged t)) /\
  match r with
  | Returned k =>
      attempts_made t = S k /\ List.length (errors_logged t) = k /\
      connect k = true /\ forall j, (j < k)%nat -> connect j = false
  | Raised e =>
      e = CouldNotConnect /\ attempts_made t = 10%nat /\
      List.length (errors_logged t) = 10%nat /\
      forall j, (j < 10)%nat -> connect j = false
  end.
Proof.
  intros H.
  destruct (first_success connect 10) as [Hall | (k & Hk & Hc & Hf)].
  - rewrite (gives_up connect Hall) in H. injection H as <- <-.
    cbn [attempts_made errors_logged seconds_slept].
    repeat split; auto; lia.
  - rewrite (succeeds_at connect k Hk Hc Hf) in H. injection H as <- <-.
    cbn [attempts_made errors_logged seconds_slept].
    rewrite length_map, length_seq. repeat split; auto; lia.
Qed.

(** The database is down for the first three attempts and up from then on:
    the fourth attempt is the one returned, though later ones would have
    succeeded too. *)
Lemma get_db_connection_outcome_witness :
  let t := snd (get_db_connection (fun k => Nat.leb 3 k)) in
  (attempts_made t <= 10)%nat /\
  errors_logged t = map S (seq 0 (List.length (errors_logged t))) /\
  seconds_slept t = 5 * Z.of_nat (List.length (errors_logged t)) /\
  attempts_made t = 4%nat /\ List.length (errors_logged t) = 3%nat /\
  Nat.leb 3 3 = true /\ forall j, (j < 3)%nat -> Nat.leb 3 j = false.
Proof.
  apply (get_db_connection_outcome (fun k => Nat.leb 3 k) (Returned 3%nat)).
  vm_compute. reflexivity.
Defined.

End DatabaseMore.

(** ** crm.py: more on the rebuild pass *)

Module CrmRebuildMore.
Import Schema Connection Crm Notions MoreNotions CrmRebuildFacts CrmInsertFacts.

Lemma opt_Z_eqb_eq a b : opt_Z_eqb a b = true <-> a = b.
Proof.
  destruct a as [x|], b as [y|]; simpl; split; try congruence.
  - intros H. apply Z.eqb_eq in H. now subst.
  - intros [= ->]. apply Z.eqb_refl.
Qed.

Lemma key_eqb_eq k1 k2 : key_eqb k1 k2 = true <-> k1 = k2.
Proof.
  destruct k1 as [a1 d1], k2 as [a2 d2]. unfold key_eqb. cbn [fst snd].
  rewrite andb_true_iff, !opt_Z_eqb_eq. split; [intros [-> ->] | intros [= -> ->]]; auto.
Qed.

Lemma existsb_same_key r t :
  existsb (same_key r) t = true <-> In (key r) (map key t).
Proof.
  rewrite existsb_exists, in_map_iff. unfold same_key. split.
  - intros (x & Hx & He). apply key_eqb_eq in He. eauto.
  - intros (x & He & Hx). exists x. split; [exact Hx|].
    apply key_eqb_eq. congruence.
Qed.

Lemma resolve_key r x : key (resolve r x) = key x.
Proof. now destruct (resolve_kept r x). Qed.

Lemma map_key_resolve r t : map key (map (resolve r) t) = map key t.
Proof.
  rewrite map_map. apply map_ext. intros x. apply resolve_key.
Qed.

(** The keys after an upsert: those before, and the proposed one. *)
Lemma upsert_keys t r :
  map key (upsert t r) =
  if existsb (same_key r) t then map key t else map key t ++ [key r].
Proof.
  rewrite upsert_eq. destruct (existsb (same_key r) t).
  - apply map_key_resolve.
  - now rewrite map_app.
Qed.

Lemma upsert_NoDup t r : NoDup (map key t) -> NoDup (map key (upsert t r)).
Proof.
  intros Hnd. rewrite upsert_keys.
  destruct (existsb (same_key r) t) eqn:He; [exact Hnd|].
  apply NoDup_app; [exact Hnd | constructor; [intros [] | constructor] |].
  intros k Hk [<-|[]].
  apply existsb_same_key in Hk. congruence.
Qed.

Lemma fold_upsert_NoDup rows t :
  NoDup (map key t) -> NoDup (map key (fold_left upsert rows t)).
Proof.
  revert t. induction rows as [|r rows IH]; intros t Hnd; cbn [fold_left];
    [exact Hnd | apply IH, upsert_NoDup, Hnd].
Qed.

Lemma upsert_In_key t r k :
  In k (map key (upsert t r)) <-> In k (map key t) \/ k = key r.
Proof.
  rewrite upsert_keys. destruct (existsb (same_key r) t) eqn:He.
  - apply existsb_same_key in He. split; [auto | intros [H | ->]; auto].
  - rewrite in_app_iff. cbn [In]. intuition.
Qed.

Lemma fold_upsert_In_key rows t k :
  In k (map key (fold_left upsert rows t)) <->
  In k (map key t) \/ In k (map key rows).
Proof.
  revert t. induction rows as [|r rows IH]; intros t; cbn [fold_left map In].
  - tauto.
  - rewrite IH, upsert_In_key. intuition.
Qed.

(** A property of the columns the conflict branch keeps survives the INSERT
    when the proposed rows have it. *)
Lemma fold_upsert_kept_property (P : crm_row -> Prop) rows t :
  (forall a b, kept a b -> P b -> P a) ->
  Forall P t -> Forall P rows -> Forall P (fold_left upsert rows t).
Proof.
  intros HP. revert t. induction rows as [|r rows IH]; intros t Ht Hrows;
    cbn [fold_left]; [exact Ht|].
  inversion Hrows as [|? ? Hr Hrows']; subst.
  apply IH; [|exact Hrows']. rewrite upsert_eq.
  destruct (existsb (same_key r) t).
  - apply Forall_forall. intros x Hx. apply in_map_iff in Hx.
    destruct Hx as (y & <- & Hy). apply (HP _ y (resolve_kept r y)).
    now apply (proj1 (Forall_forall P t) Ht).
  - apply Forall_app. split; [exact Ht | now constructor].
Qed.

(** Rows with distinct keys, none of them in the table, are appended. *)
Lemma fold_upsert_appends rows t :
  NoDup (map key rows) ->
  (forall r, In r rows -> ~ In (key r) (map key t)) ->
  fold_left upsert rows t = t ++ rows.
Proof.
  revert t. induction rows as [|r rows IH]; intros t Hnd Hnew; cbn [fold_left].
  - now rewrite app_nil_r.
  - cbn [map] in Hnd. inversion Hnd as [|? ? Hr Hnd']; subst.
    rewrite upsert_eq.
    assert (He : existsb (same_key r) t = false).
    { destruct (existsb (same_key r) t) eqn:E; [|reflexivity].
      apply existsb_same_key in E. exfalso. apply (Hnew r); [now left | exact E]. }
    rewrite He, IH; [now rewrite <- app_assoc | exact Hnd' |].
    intros r' Hr' Hin. rewrite map_app, in_app_iff in Hin. cbn [map In] in Hin.
    destruct Hin as [Hin | [Heq | []]].
    + apply (Hnew r'); [now right | exact Hin].
    + apply Hr. rewrite Heq. now apply in_map.
Qed.

(** *** The rows the INSERT proposes *)

Lemma opt_integer_Returned v w : opt_integer v = Returned w -> w = v.
Proof.
  destruct v as [z|]; simpl; [|congruence].
  intros H. bind_inv H as z' Hz. apply SqlFacts.integer_Returned in Hz.
  congruence.
Qed.

(** An INTEGER cell that is accepted holds what the query returned. *)
Lemma integer_cell_Returned mixed v w :
  integer_cell (cell_of mixed v) = Returned w -> w = v.
Proof.
  destruct v as [z|]; cbn [cell_of integer_cell].
  - apply opt_integer_Returned.
  - destruct mixed; cbn [integer_cell]; congruence.
Qed.

Ltac tuple_fields :=
  cbn [tuple_of c_account_id c_owner_name c_email c_msisdn c_device_id
       c_device_name c_device_type c_device_os c_street_address c_city c_state
       c_postal_code c_country c_last_modified c_total_data_bytes
       c_data_cost_zar c_total_call_seconds c_voice_cost_zar c_total_cost_zar
       c_running_balance_zar c_created_at].

Lemma store_record_key frame r p :
  store_record (tuple_of frame r) = Returned p ->
  record_key p = record_key (profile r).
Proof.
  unfold store_record. tuple_fields. intros H.
  bind_inv H as a Ha. bind_inv H as o Ho. bind_inv H as e He.
  bind_inv H as m Hm. bind_inv H as d Hd.
  repeat (apply bind_Returned in H; destruct H as [? [_ H]]).
  injection H as <-. unfold record_key. cbn.
  apply integer_cell_Returned in Ha, Hd. congruence.
Qed.

(** Typing a tuple changes none of its key and none of its seven added
    columns. *)
Lemma store_row_kept frame r row :
  store_row (tuple_of frame r) = Returned row -> kept row r.
Proof.
  unfold store_row. intros H.
  bind_inv H as p Hp. revert H. tuple_fields. intros H.
  bind_inv H as b Hb. bind_inv H as dc Hdc.
  bind_inv H as s Hs. bind_inv H as vc Hvc. bind_inv H as tc Htc.
  bind_inv H as rb Hrb. injection H as <-.
  apply store_record_key in Hp.
  apply SqlFacts.bigint_Returned in Hb. apply SqlFacts.integer_Returned in Hs.
  apply SqlFacts.check_decimal_10_2_Returned in Hdc, Hvc, Htc, Hrb.
  unfold kept, key. cbn. unfold record_key in Hp. subst. auto 10.
Qed.

Lemma store_row_profile v row :
  store_row v = Returned row -> store_record v = Returned (profile row).
Proof.
  unfold store_row. intros H. bind_inv H as p Hp.
  repeat (apply bind_Returned in H; destruct H as [? [_ H]]).
  injection H as <-. exact Hp.
Qed.

Lemma admit_rows_Returned rows touched rows' :
  admit_rows rows touched = Returned rows' ->
  rows' = rows /\
  Forall (fun row => has_key row = true) rows /\
  NoDup (map key rows) /\
  (forall row, In row rows -> ~ In (key row) touched).
Proof.
  revert touched rows'. induction rows as [|row rows IH]; intros touched rows';
    cbn [admit_rows].
  - intros [= <-]. repeat split; try constructor. intros row [].
  - destruct (has_key row) eqn:Hk; cbn [negb]; [|discriminate].
    destruct (existsb (key_eqb (key row)) touched) eqn:Ht; [discriminate|].
    intros H. bind_inv H as rest Hrest. injection H as <-.
    destruct (IH _ _ Hrest) as (-> & HK & HN & HT).
    assert (Hnew : ~ In (key row) touched).
    { intros Hin. assert (existsb (key_eqb (key row)) touched = true); [|congruence].
      apply existsb_exists. exists (key row). split; [exact Hin|].
      apply key_eqb_refl. }
    repeat split.
    + now constructor.
    + cbn [map]. constructor; [|exact HN].
      intros Hin. apply in_map_iff in Hin. destruct Hin as (x & Hx & Hin).
      apply (HT x Hin). rewrite Hx. now left.
    + intros x [<-|Hin]; [exact Hnew|].
      intros Hx. apply (HT x Hin). now right.
Qed.

(** A statement that is accepted: every tuple was typed, every typed row
    has its key, and no two have the same. *)
Lemma accept_page_Returned page rows :
  accept_page page = Returned rows ->
  Forall2 (fun v row => store_row v = Returned row) page rows /\
  Forall (fun row => has_key row = true) rows /\
  NoDup (map key rows).
Proof.
  unfold accept_page. intros H. bind_inv H as u Hu. bind_inv H as typed Ht.
  destruct (admit_rows_Returned _ _ _ H) as (-> & HK & HN & _).
  split; [now apply mapM_Forall2 | now split].
Qed.

(** The pages, put end to end, are the records. *)
Lemma concat_paginate {A} (fuel : nat) (l : list A) :
  (List.length l <= fuel)%nat -> List.concat (paginate fuel l) = l.
Proof.
  revert l. induction fuel as [|fuel IH]; intros l Hlen.
  - destruct l; [reflexivity | cbn in Hlen; lia].
  - destruct l as [|a l]; [reflexivity|].
    cbn [paginate List.concat]. rewrite IH.
    + apply firstn_skipn.
    + rewrite length_skipn. unfold page_size. cbn [List.length] in *. lia.
Qed.

Lemma paginate_one_page {A} (l : list A) :
  l <> [] -> (List.length l <= page_size)%nat ->
  paginate (List.length l) l = [l].
Proof.
  intros Hne Hlen. destruct l as [|a l]; [congruence|].
  cbn [List.length paginate].
  rewrite firstn_all2 by exact Hlen.
  rewrite skipn_all2 by exact Hlen.
  now destruct (List.length l).
Qed.

Lemma Forall2_concat {A B} (R : A -> B -> Prop) ll ll' :
  Forall2 (Forall2 R) ll ll' -> Forall2 R (List.concat ll) (List.concat ll').
Proof.
  induction 1 as [|l l' ll ll' Hl _ IH]; cbn [List.concat]; [constructor|].
  now apply Forall2_app.
Qed.

Lemma Forall2_map_eq {A B C} (R : A -> B -> Prop) (f : A -> C) (g : B -> C) l l' :
  (forall a b, R a b -> f a = g b) -> Forall2 R l l' -> map f l = map g l'.
Proof.
  intros H. induction 1 as [|a b l l' Hab _ IH]; cbn [map]; [reflexivity|].
  now rewrite (H _ _ Hab), IH.
Qed.

Lemma Forall2_In_left {A B} (R : A -> B -> Prop) l l' a :
  Forall2 R l l' -> In a l -> exists b, In b l' /\ R a b.
Proof.
  induction 1 as [|x y l l' Hxy _ IH]; intros Hin; [destruct Hin|].
  destruct Hin as [<-|Hin]; [exists y; split; [now left | exact Hxy]|].
  destruct (IH Hin) as (b & Hb & HR). exists b. split; [now right | exact HR].
Qed.

Lemma Forall2_map_left {A B C} (R : B -> C -> Prop) (f : A -> B) l l' :
  Forall2 R (map f l) l' -> Forall2 (fun a c => R (f a) c) l l'.
Proof.
  revert l'. induction l as [|a l IH]; intros l' H; inversion H; subst;
    constructor; auto.
Qed.

(** What a returning INSERT has done: every tuple of [df.values] was typed,
    and the table is the typed rows upserted, in order, into the empty
    table. *)
Lemma inserted_Returned df now t :
  inserted df now = Returned t ->
  exists rows,
    Forall2 (fun r row =>
               store_row (tuple_of (map (add_columns now) df) (add_columns now r)) =
               Returned row) df rows /\
    Forall (fun row => has_key row = true) rows /\
    t = fold_left upsert rows [].
Proof.
  unfold inserted. rewrite foldM_insert_query. intros H.
  bind_inv H as rowss Hrowss. injection H as <-.
  exists (List.concat rowss).
  apply mapM_Forall2 in Hrowss.
  set (frame := map (add_columns now) df) in *.
  set (records := df_values frame) in *.
  assert (Hpages : Forall2 (fun page rows =>
            Forall2 (fun v row => store_row v = Returned row) page rows /\
            Forall (fun row => has_key row = true) rows)
            (paginate (List.length records) records) rowss).
  { eapply Forall2_impl; [|exact Hrowss]. intros page rows Hp.
    destruct (accept_page_Returned _ _ Hp) as (HF & HK & _). now split. }
  split; [|split; [|reflexivity]].
  - assert (HF : Forall2 (fun v row => store_row v = Returned row) records
                   (List.concat rowss)).
    { rewrite <- (concat_paginate (List.length records) records) at 1 by lia.
      apply Forall2_concat. eapply Forall2_impl; [|exact Hpages]. now intros ? ? []. }
    unfold records, df_values, frame in HF. rewrite map_map in HF.
    apply Forall2_map_left in HF. exact HF.
  - apply Forall_concat. clear - Hpages.
    induction Hpages as [|page rows ? ? [_ HK] _ IH]; constructor; auto.
Qed.

Lemma stored_keys frame now df stored :
  Forall2 (fun r row => store_row (tuple_of frame (add_columns now r)) = Returned row)
          df stored ->
  map record_key df = map key stored.
Proof.
  apply Forall2_map_eq. intros a b Hab.
  destruct (store_row_kept _ _ _ Hab) as [Hk _]. now rewrite Hk.
Qed.

Lemma fresh_kept now a b : kept a b -> fresh now b -> fresh now a.
Proof. unfold kept, fresh. intuition congruence. Qed.

Lemma has_key_kept a b : kept a b -> has_key b = true -> has_key a = true.
Proof. intros [Hk _]. unfold has_key. now rewrite Hk. Qed.

Lemma rows_with_table t db : rows (with_crm_flattened_balance (Some t) db) = t.
Proof. reflexivity. Qed.

Lemma inserted_fresh df now t :
  inserted df now = Returned t -> Forall (fresh now) t.
Proof.
  intros Ht.
  destruct (inserted_Returned _ _ _ Ht) as (stored & HF & _ & ->).
  apply fold_upsert_kept_property.
  - intros a b. apply fresh_kept.
  - constructor.
  - clear - HF. remember (map (add_columns now) df) as frame eqn:E. clear E.
    induction HF as [|r row df stored Hr _ IH]; constructor; auto.
    apply (fresh_kept now _ _ (store_row_kept _ _ _ Hr)).
    unfold fresh. cbn. auto 10.
Qed.

(** X2: a rebuild that returns leaves every row with no usage, no cost, no
    balance, and the time of the rebuild as creation time: what the balance
    pass had computed is gone until it runs again. *)
Theorem rebuild_resets_costs c1 c2 df now db db' :
  df <> [] ->
  process_crm_data_1 c1 c2 df now db = (Returned tt, db') ->
  Forall (fresh now) (rows db').
Proof.
  intros Hdf Hpass.
  destruct (process_crm_data_1_Returned _ _ _ _ _ _ Hdf Hpass) as (t & Ht & ->).
  rewrite rows_with_table. exact (inserted_fresh _ _ _ Ht).
Qed.

(** X3: after a rebuild that returns, the primary key holds: the keys of
    the table are complete (no NULL) and pairwise distinct, and they are
    exactly the (account_id, device_id) pairs of the production query. *)
Theorem rebuild_keys c1 c2 df now db db' :
  df <> [] ->
  process_crm_data_1 c1 c2 df now db = (Returned tt, db') ->
  NoDup (map key (rows db')) /\
  Forall (fun r => has_key r = true) (rows db') /\
  (forall k, In k (map key (rows db')) <-> In k (map record_key df)).
Proof.
  intros Hdf Hpass.
  destruct (process_crm_data_1_Returned _ _ _ _ _ _ Hdf Hpass) as (t & Ht & ->).
  rewrite rows_with_table.
  destruct (inserted_Returned _ _ _ Ht) as (stored & HF & HK & ->).
  split; [|split].
  - apply fold_upsert_NoDup. constructor.
  - apply fold_upsert_kept_property; [apply has_key_kept | constructor | exact HK].
  - intros k. rewrite fold_upsert_In_key. cbn [map In].
    rewrite (stored_keys _ _ _ _ HF). tauto.
Qed.

Lemma rebuild_witness_pass :
  process_crm_data_1 always_up always_up [Fixtures.john; Fixtures.jane] 1765116000
    Fixtures.db_john =
  (Returned tt,
   snd (process_crm_data_1 always_up always_up [Fixtures.john; Fixtures.jane]
          1765116000 Fixtures.db_john)).
Proof. vm_compute. reflexivity. Qed.

Lemma rebuild_resets_costs_witness :
  Forall (fresh 1765116000)
    (rows (snd (process_crm_data_1 always_up always_up
                  [Fixtures.john; Fixtures.jane] 1765116000 Fixtures.db_john))).
Proof.
  apply (rebuild_resets_costs always_up always_up [Fixtures.john; Fixtures.jane]
           1765116000 Fixtures.db_john); [discriminate | exact rebuild_witness_pass].
Defined.

Lemma rebuild_keys_witness :
  let t := rows (snd (process_crm_data_1 always_up always_up
                        [Fixtures.john; Fixtures.jane] 1765116000 Fixtures.db_john)) in
  NoDup (map key t) /\
  Forall (fun r => has_key r = true) t /\
  (forall k, In k (map key t) <->
             In k (map record_key [Fixtures.john; Fixtures.jane])).
Proof.
  apply (rebuild_keys always_up always_up [Fixtures.john; Fixtures.jane]
           1765116000 Fixtures.db_john); [discriminate | exact rebuild_witness_pass].
Defined.

(** *** One page *)

Lemma inserted_one_page df now :
  df <> [] -> (List.length df <= 100)%nat ->
  inserted df now = insert_query (df_values (frame now df)) [].
Proof.
  intros Hdf Hlen. unfold inserted, frame.
  rewrite paginate_one_page.
  - cbn [foldM]. now destruct (insert_query _ []).
  - destruct df; [congruence | discriminate].
  - unfold df_values. now rewrite !length_map.
Qed.

(** X4: when the production query returns at most a hundred rows, one
    INSERT statement carries them all; if the pass returns, no two rows of
    the query had the same (account_id, device_id), and the table holds, in
    the order of the query, the tuples of [df.values] taken through the
    column types.  These are not always the values of the query: a NULL
    that stands beside values in its column has become NaN, which a VARCHAR
    column takes as the text NaN. *)
Theorem rebuild_single_page c1 c2 df now db db' :
  df <> [] -> (List.length df <= 100)%nat ->
  process_crm_data_1 c1 c2 df now db = (Returned tt, db') ->
  NoDup (map record_key df) /\
  Forall2 (fun r row => store_row (values_of now df r) = Returned row)
          df (rows db') /\
  (forall r row,
     In r df -> In row (rows db') -> key row = record_key r ->
     device_name r = None -> is_mixed device_name (frame now df) = true ->
     device_name (profile row) = Some "NaN").
Proof.
  intros Hdf Hlen Hpass.
  destruct (process_crm_data_1_Returned _ _ _ _ _ _ Hdf Hpass) as (t & Ht & ->).
  rewrite rows_with_table. rewrite inserted_one_page in Ht by assumption.
  unfold insert_query in Ht. bind_inv Ht as stored Hst. injection Ht as <-.
  destruct (accept_page_Returned _ _ Hst) as (HF & _ & HN).
  rewrite fold_upsert_appends by (exact HN || (intros ? ? [])).
  cbn [app].
  assert (HF' : Forall2 (fun r row => store_row (values_of now df r) = Returned row)
                  df stored).
  { unfold df_values, frame in HF. rewrite map_map in HF.
    apply Forall2_map_left in HF. exact HF. }
  assert (Hkeys : map record_key df = map key stored)
    by exact (stored_keys _ _ _ _ HF').
  assert (HNdf : NoDup (map record_key df)) by now rewrite Hkeys.
  split; [exact HNdf|]. split; [exact HF'|].
  intros r row Hr Hrow Hk Hnone Hmixed.
  (* the row stored for [r] is the only one with its key *)
  assert (Hrow' : exists row', In row' stored /\
                    store_row (values_of now df r) = Returned row').
  { exact (Forall2_In_left _ _ _ _ HF' Hr). }
  destruct Hrow' as (row' & Hin' & Hst').
  assert (row' = row).
  { destruct (store_row_kept _ _ _ Hst') as [Hk' _].
    assert (Hsame : key row' = key row) by (rewrite Hk', Hk; reflexivity).
    clear - HN Hin' Hrow Hsame.
    induction stored as [|x l IH]; [destruct Hrow|].
    cbn [map] in HN. inversion HN as [|? ? Hx HN']; subst.
    destruct Hin' as [<-|Hin'], Hrow as [<-|Hrow]; auto.
    - exfalso. apply Hx. rewrite Hsame. now apply in_map.
    - exfalso. apply Hx. rewrite <- Hsame. now apply in_map. }
  subst row'. apply store_row_profile in Hst'.
  unfold store_record in Hst'. revert Hst'. unfold values_of. tuple_fields.
  cbn [add_columns profile]. rewrite Hnone, Hmixed. cbn [cell_of varchar_cell]. intros Hst'.
  do 5 (apply bind_Returned in Hst'; destruct Hst' as [? [_ Hst']]).
  bind_inv Hst' as dn Hdn.
  repeat (apply bind_Returned in Hst'; destruct Hst' as [? [_ Hst']]).
  injection Hst' as <-. cbn [device_name].
  vm_compute in Hdn. congruence.
Qed.

(** John, and Jane, whose device has no name: the table has the text NaN
    for it. *)
Lemma rebuild_single_page_witness :
  let df := [Fixtures.john; MoreFixtures.jane_unnamed] in
  let t := rows (snd (process_crm_data_1 always_up always_up df 1765116000
                        Fixtures.db_john)) in
  (exists row, In row t /\ key row = record_key MoreFixtures.jane_unnamed /\
               device_name (profile row) = Some "NaN") /\
  NoDup (map record_key df) /\
  Forall2 (fun r row => store_row (values_of 1765116000 df r) = Returned row) df t /\
  (forall r row,
     In r df -> In row t -> key row = record_key r ->
     device_name r = None -> is_mixed device_name (frame 1765116000 df) = true ->
     device_name (profile row) = Some "NaN").
Proof.
  split.
  - eexists. split; [right; left; reflexivity|]. split; reflexivity.
  - apply (rebuild_single_page always_up always_up
             [Fixtures.john; MoreFixtures.jane_unnamed] 1765116000 Fixtures.db_john).
    + discriminate.
    + cbn; lia.
    + vm_compute. reflexivity.
Defined.

(** *** The last record of a key *)

Lemma resolve_all_app l1 l2 x :
  resolve_all (l1 ++ l2) x = resolve_all l2 (resolve_all l1 x).
Proof. unfold resolve_all. apply fold_left_app. Qed.

Lemma resolve_all_other l x :
  (forall s, In s l -> same_key s x = false) -> resolve_all l x = x.
Proof.
  unfold resolve_all. induction l as [|s l IH]; intros H; cbn [fold_left];
    [reflexivity|].
  unfold resolve at 2. rewrite (H s) by now left.
  apply IH. intros s' Hs'. apply H. now right.
Qed.

Lemma on_conflict_profile y r :
  key y = key r -> profile (on_conflict_do_update y r) = profile r.
Proof.
  unfold key. intros [= Ha Hd]. unfold on_conflict_do_update. cbn [profile].
  rewrite Ha, Hd. now destruct (profile r).
Qed.

(** The row the table holds at the key of the last record of that key. *)
Lemma last_record_stored df now t pre r post :
  df = pre ++ r :: post ->
  inserted df now = Returned t ->
  (forall r', In r' post -> record_key r' <> record_key r) ->
  exists row,
    In row t /\ key row = record_key r /\
    store_row (values_of now df r) = Returned
      {| profile := profile row;
         total_data_bytes := 0; data_cost_zar := 0; total_call_seconds := 0;
         voice_cost_zar := 0; total_cost_zar := 0; running_balance_zar := 0;
         created_at := now |}.
Proof.
  intros Edf Ht Hlast.
  destruct (inserted_Returned _ _ _ Ht) as (stored & HF & _ & ->).
  remember (map (add_columns now) df) as fr eqn:Efr.
  rewrite Edf in HF.
  apply Forall2_app_inv_l in HF.
  destruct HF as (spre & srest & Hpre & Hrest & ->).
  inversion Hrest as [|? row_r ? spost Hr Hpost]; subst.
  assert (Hkr : key row_r = record_key r).
  { destruct (store_row_kept _ _ _ Hr) as [Hk _]. exact Hk. }
  assert (Hin : In (key row_r)
                  (map key (fold_left upsert (spre ++ row_r :: spost) []))).
  { apply fold_upsert_In_key. right. rewrite map_app, in_app_iff.
    right. now left. }
  apply in_map_iff in Hin. destruct Hin as (x & Hx & Hin).
  exists x. split; [exact Hin|]. split; [congruence|].
  pose proof (fold_upsert_settled _ _ _ Hin) as Hfix.
  change (spre ++ row_r :: spost) with (spre ++ [row_r] ++ spost) in Hfix.
  rewrite !resolve_all_app in Hfix.
  set (y := resolve_all spre x) in *.
  assert (Hy : key y = key row_r).
  { destruct (resolve_all_kept spre x) as [Hk _]. unfold y. congruence. }
  assert (Hz : resolve_all [row_r] y = on_conflict_do_update y row_r).
  { unfold resolve_all. cbn [fold_left]. unfold resolve, same_key.
    now rewrite Hy, key_eqb_refl. }
  rewrite Hz in Hfix.
  rewrite resolve_all_other in Hfix.
  - rewrite <- Hfix, (on_conflict_profile _ _ Hy).
    unfold values_of, frame. rewrite Hr. f_equal.
    destruct (store_row_kept _ _ _ Hr) as (_ & H1 & H2 & H3 & H4 & H5 & H6 & H7).
    cbn in H1, H2, H3, H4, H5, H6, H7.
    destruct row_r; cbn in *; congruence.
  - intros s Hs. destruct (same_key s (on_conflict_do_update y row_r)) eqn:E;
      [|reflexivity].
    exfalso. unfold same_key in E. apply key_eqb_eq in E.
    destruct (on_conflict_kept y row_r) as [Hk _]. rewrite Hk, Hy in E.
    pose proof (stored_keys _ _ _ _ Hpost) as Hkeys.
    assert (Hs' : In (key s) (map record_key post))
      by (rewrite Hkeys; now apply in_map).
    apply in_map_iff in Hs'. destruct Hs' as (r' & Hr' & Hin').
    apply (Hlast r' Hin'). congruence.
Qed.

(** X5: for every row of the production query that is the last one with its
    (account_id, device_id), the table after a returning rebuild holds a row
    with that key whose fourteen query columns are those of that row's
    tuple in [df.values], taken through the column types: among rows with
    the same key, also on different pages, the last one decides. *)
Theorem rebuild_last_record_wins c1 c2 pre r post now db db' :
  process_crm_data_1 c1 c2 (pre ++ r :: post) now db = (Returned tt, db') ->
  (forall r', In r' post -> record_key r' <> record_key r) ->
  exists row,
    In row (rows db') /\ key row = record_key r /\
    store_record (values_of now (pre ++ r :: post) r) = Returned (profile row).
Proof.
  intros Hpass Hlast.
  assert (Hdf : pre ++ r :: post <> []) by (now destruct pre).
  destruct (process_crm_data_1_Returned _ _ _ _ _ _ Hdf Hpass) as (t & Ht & ->).
  rewrite rows_with_table.
  destruct (last_record_stored _ _ _ pre r post eq_refl Ht Hlast)
    as (row & Hin & Hk & Hst).
  exists row. split; [exact Hin|]. split; [exact Hk|].
  exact (store_row_profile _ _ Hst).
Qed.

(** The hundred rows of the first page, then a row with the key of the first
    of them: the second statement overwrites what the first stored. *)
Lemma rebuild_last_record_wins_witness :
  let df := MoreFixtures.hundred ++ [MoreFixtures.subscriber 0 "second"] in
  exists row,
    In row (rows (snd (process_crm_data_1 always_up always_up df 1765116000
                         Fixtures.db_john))) /\
    key row = record_key (MoreFixtures.subscriber 0 "second") /\
    store_record (values_of 1765116000 df (MoreFixtures.subscriber 0 "second")) =
    Returned (profile row).
Proof.
  apply (rebuild_last_record_wins always_up always_up MoreFixtures.hundred
           (MoreFixtures.subscriber 0 "second") [] 1765116000 Fixtures.db_john).
  - vm_compute. reflexivity.
  - intros r' [].
Defined.

(** *** How the pass fails *)

Lemma opt_integer_Raised v e :
  opt_integer v = Raised e -> e = NumericValueOutOfRange.
Proof.
  destruct v as [z|]; simpl; [|discriminate].
  intros H. apply bind_Raised in H. destruct H as [H | (? & _ & H)];
    [now apply SqlMore.integer_Raised in H | discriminate].
Qed.

Lemma integer_cell_Raised c e :
  integer_cell c = Raised e -> e = NumericValueOutOfRange.
Proof.
  destruct c as [z| |]; cbn [integer_cell];
    [apply opt_integer_Raised | discriminate | congruence].
Qed.

Lemma varchar_cell_Raised n c e :
  varchar_cell n c = Raised e -> e = StringDataRightTruncation.
Proof.
  destruct c as [z| |]; cbn [varchar_cell];
    [apply SqlMore.varchar_Raised | discriminate | apply SqlMore.varchar_Raised].
Qed.

Lemma timestamp_cell_Raised c e :
  timestamp_cell c = Raised e -> e = InvalidDatetimeFormat.
Proof. destruct c as [z| |]; cbn [timestamp_cell]; congruence. Qed.

Lemma store_record_Raised v e :
  store_record v = Raised e -> insert_error e.
Proof.
  unfold store_record, insert_error. intros H.
  repeat (raised_step H;
          [first [apply integer_cell_Raised in H; tauto
                 | apply varchar_cell_Raised in H; tauto
                 | apply timestamp_cell_Raised in H; tauto] |]).
  discriminate.
Qed.

Lemma store_row_Raised v e :
  store_row v = Raised e -> insert_error e.
Proof.
  unfold store_row. intros H.
  raised_step H; [now apply store_record_Raised in H|].
  unfold insert_error.
  repeat (raised_step H;
          [first [apply SqlMore.bigint_Raised in H | apply SqlMore.integer_Raised in H
                 | apply SqlMore.check_decimal_10_2_Raised in H]; tauto |]).
  discriminate.
Qed.

Lemma admit_rows_Raised rows touched e :
  admit_rows rows touched = Raised e -> insert_error e.
Proof.
  unfold insert_error.
  revert touched. induction rows as [|r rows IH]; intros touched; simpl;
    [discriminate|].
  destruct (negb (has_key _)); [intros [= <-]; tauto|].
  destruct (existsb _ touched); [intros [= <-]; tauto|].
  intros H. raised_step H; [eauto | discriminate].
Qed.

Lemma accept_page_Raised page e :
  accept_page page = Raised e -> insert_error e.
Proof.
  unfold accept_page. intros H. raised_step H.
  - unfold parse_values in H. destruct (existsb _ page); [|discriminate].
    injection H as <-. unfold insert_error. tauto.
  - raised_step H; [|now apply admit_rows_Raised in H].
    apply mapM_Raised in H. destruct H as (v & _ & H).
    now apply store_row_Raised in H.
Qed.

Lemma inserted_Raised df now e :
  inserted df now = Raised e -> insert_error e.
Proof.
  unfold inserted. intros H.
  apply foldM_Raised in H. destruct H as (t & page & _ & H).
  unfold insert_query in H. raised_step H; [|discriminate].
  now apply accept_page_Raised in H.
Qed.

Lemma process_crm_data_1_no_production c1 c2 df now db e :
  fst (Database.get_db_connection c1) = Raised e ->
  process_crm_data_1 c1 c2 df now db = (Raised e, db).
Proof. intros H. unfold process_crm_data_1. now rewrite H. Qed.

Lemma process_crm_data_1_no_analytics c1 c2 df now db k e :
  fst (Database.get_db_connection c1) = Returned k ->
  fst (Database.get_db_connection c2) = Raised e ->
  process_crm_data_1 c1 c2 df now db = (Raised e, db).
Proof. intros H1 H2. unfold process_crm_data_1. now rewrite H1, H2. Qed.

Lemma body_empty now db :
  except_rollback_raise (process_crm_data_1_body [] now) (open db) =
  (Returned tt, open db).
Proof. reflexivity. Qed.

(** A pass that raises: where it stopped. *)
Lemma process_crm_data_1_Raised c1 c2 df now db e db' :
  process_crm_data_1 c1 c2 df now db = (Raised e, db') ->
  (db' = db /\
   (fst (Database.get_db_connection c1) = Raised e \/
    fst (Database.get_db_connection c2) = Raised e \/
    (e = InvalidSchemaName /\ df <> [] /\ prepared_layers_schema db = false)))
  \/ (df <> [] /\ prepared_layers_schema db = true /\
      inserted df now = Raised e /\
      db' = with_crm_flattened_balance (Some []) db).
Proof.
  intros H.
  destruct (fst (Database.get_db_connection c1)) as [k1|e1] eqn:E1.
  2:{ rewrite (process_crm_data_1_no_production _ _ _ _ _ _ E1) in H.
      injection H as <- <-. left. auto. }
  destruct (fst (Database.get_db_connection c2)) as [k2|e2] eqn:E2.
  2:{ rewrite (process_crm_data_1_no_analytics _ _ _ _ _ _ _ E1 E2) in H.
      injection H as <- <-. left. auto. }
  rewrite process_crm_data_1_connected in H by (eexists; eassumption).
  destruct df as [|r df]; [rewrite body_empty in H; discriminate|].
  assert (Hdf : r :: df <> []) by discriminate.
  destruct (prepared_layers_schema db) eqn:Hs.
  - rewrite (body_rebuilds _ now _ Hdf Hs) in H.
    destruct (inserted (r :: df) now) as [t|e'] eqn:Hi; [discriminate|].
    injection H as <- <-. right. auto.
  - rewrite (body_without_schema _ now _ Hdf Hs) in H.
    injection H as <- <-. left. auto 6.
Qed.

(** X6: a rebuild pass that raises ends in one of three ways.  No
    connection: nothing has changed.  No prepared_layers schema: CREATE
    TABLE fails and nothing has changed.  Otherwise the INSERT has failed:
    on a NaT, on a value out of range (a NaN in an INTEGER column is one) or
    too long, on a NULL key or on a key twice in one statement; the DROP and
    CREATE are committed by then, and the table is left empty whatever it
    held. *)
Theorem rebuild_failure_modes c1 c2 df now db e db' :
  process_crm_data_1 c1 c2 df now db = (Raised e, db') ->
  (e = CouldNotConnect /\ db' = db) \/
  (e = InvalidSchemaName /\ df <> [] /\ prepared_layers_schema db = false /\
   db' = db) \/
  (insert_error e /\ df <> [] /\ prepared_layers_schema db = true /\
   inserted df now = Raised e /\
   db' = with_crm_flattened_balance (Some []) db).
Proof.
  intros H.
  destruct (process_crm_data_1_Raised _ _ _ _ _ _ _ H)
    as [[-> [E | [E | (-> & Hdf & Hs)]]] | (Hdf & Hs & Hi & ->)].
  - left. split; [|reflexivity].
    exact (DatabaseFacts.get_db_connection_raised _ _ E).
  - left. split; [|reflexivity].
    exact (DatabaseFacts.get_db_connection_raised _ _ E).
  - right. left. auto.
  - right. right. split; [exact (inserted_Raised _ _ _ Hi)|]. auto.
Qed.

(** John, and an account without a device: its device_id is a NaN beside
    John's 101, and the INTEGER column refuses it. *)
Lemma rebuild_failure_modes_witness :
  let df := [Fixtures.john; Fixtures.no_device] in
  let e := NumericValueOutOfRange in
  let db' := with_crm_flattened_balance (Some []) Fixtures.db_john in
  (e = CouldNotConnect /\ db' = Fixtures.db_john) \/
  (e = InvalidSchemaName /\ df <> [] /\
   prepared_layers_schema Fixtures.db_john = false /\ db' = Fixtures.db_john) \/
  (insert_error e /\ df <> [] /\
   prepared_layers_schema Fixtures.db_john = true /\
   inserted df 1765116000 = Raised e /\
   db' = with_crm_flattened_balance (Some []) Fixtures.db_john).
Proof.
  apply (rebuild_failure_modes always_up always_up
           [Fixtures.john; Fixtures.no_device] 1765116000 Fixtures.db_john).
  vm_compute. reflexivity.
Defined.

End CrmRebuildMore.

(** ** crm.py: a pass run again *)

Module CrmReplayFacts.
Import Schema Connection Crm Notions MoreNotions Fixtures
       CrmRebuildFacts CrmInsertFacts CrmRebuildMore.

(** *** The rebuild at another time *)













Lemma on_conflict_restamp now x e :
  on_conflict_do_update (restamp now x) (restamp now e) =
  restamp now (on_conflict_do_update x e).
Proof. reflexivity. Qed.









(** *** The conflict branch *)





End CrmReplayFacts.

(** ** crm.py: more on the balance pass *)

Module CrmBalanceMore.
Import Schema Connection Crm Notions MoreNotions CrmBalanceFacts.

(** *** How the pass fails *)

Lemma update_no_connection c db e :
  fst (Database.get_db_connection c) = Raised e ->
  update_crm_balances_from_cdr c db = (Raised e, db).
Proof. intros H. unfold update_crm_balances_from_cdr. now rewrite H. Qed.

Lemma opt_bigint_Raised v e :
  opt_bigint v = Raised e -> e = NumericValueOutOfRange.
Proof.
  destruct v as [z|]; simpl; [|discriminate].
  intros H. raised_step H; [now apply SqlMore.bigint_Raised in H | discriminate].
Qed.

Lemma bytes_of_Raised r e : bytes_of r = Raised e -> e = NumericValueOutOfRange.
Proof.
  unfold bytes_of. intros H.
  raised_step H; [now apply opt_bigint_Raised in H|].
  raised_step H; [now apply opt_bigint_Raised in H|].
  destruct x as [u|], x0 as [d|]; try discriminate.
  raised_step H; [now apply SqlMore.bigint_Raised in H | discriminate].
Qed.

Lemma seconds_of_Raised r e : seconds_of r = Raised e -> e = NumericValueOutOfRange.
Proof.
  unfold seconds_of. intros H.
  raised_step H; [|discriminate].
  now apply CrmRebuildMore.opt_integer_Raised in H.
Qed.

Lemma from_clause_Raised db e :
  from_clause db = Raised e -> e = NumericValueOutOfRange.
Proof.
  unfold from_clause. intros H.
  raised_step H.
  { apply mapM_Raised in H. destruct H as (r & _ & H).
    now apply bytes_of_Raised in H. }
  raised_step H; [|discriminate].
  apply mapM_Raised in H. destruct H as (r & _ & H).
  now apply seconds_of_Raised in H.
Qed.

Lemma set_usage_Raised from r e :
  set_usage from r = Raised e -> e = NumericValueOutOfRange.
Proof.
  unfold set_usage. destruct (find _ from) as [u|]; [|discriminate].
  intros H.
  raised_step H; [now apply SqlMore.bigint_Raised in H|].
  raised_step H; [now apply SqlMore.decimal_10_2_Raised in H|].
  raised_step H; [now apply SqlMore.integer_Raised in H|].
  raised_step H; [now apply SqlMore.decimal_10_2_Raised in H|].
  discriminate.
Qed.

Lemma set_totals_Raised r e :
  set_totals r = Raised e -> e = NumericValueOutOfRange.
Proof.
  unfold set_totals. destruct (has_usage r); [|discriminate].
  intros H.
  raised_step H; [now apply SqlMore.check_decimal_10_2_Raised in H|].
  raised_step H; [now apply SqlMore.check_decimal_10_2_Raised in H|].
  discriminate.
Qed.

Lemma balances_Raised db e :
  balances db = Raised e ->
  (e = UndefinedTable /\ crm_flattened_balance db = None) \/
  e = NumericValueOutOfRange.
Proof.
  unfold balances. intros H.
  apply bind_Raised in H. destruct H as [H | (db1 & H1 & H)].
  - unfold update_usage in H.
    destruct (crm_flattened_balance db) as [t|]; [|injection H as <-; auto].
    right. raised_step H; [now apply from_clause_Raised in H|].
    raised_step H; [|discriminate].
    apply mapM_Raised in H. destruct H as (r & _ & H).
    now apply set_usage_Raised in H.
  - right. unfold update_totals in H.
    destruct (crm_flattened_balance db1) as [t|] eqn:Ht.
    + raised_step H; [|discriminate].
      apply mapM_Raised in H. destruct H as (r & _ & H).
      now apply set_totals_Raised in H.
    + exfalso. unfold update_usage in H1.
      destruct (crm_flattened_balance db); [|discriminate].
      bind_inv H1. bind_inv H1. injection H1 as <-. discriminate.
Qed.

(** X7: a balance pass that raises has changed nothing, whichever
    statement failed: both UPDATEs are in one transaction.  It raises for
    want of a connection, for want of the table, or on a number out of the
    range of its column or cast, and for nothing else. *)
Theorem balance_pass_all_or_nothing c db e db' :
  update_crm_balances_from_cdr c db = (Raised e, db') ->
  db' = db /\
  (e = CouldNotConnect \/
   (e = UndefinedTable /\ crm_flattened_balance db = None) \/
   e = NumericValueOutOfRange).
Proof.
  intros H.
  destruct (fst (Database.get_db_connection c)) as [k|e1] eqn:E.
  - rewrite update_connected in H by (eexists; eassumption).
    destruct (balances db) as [db2|e2] eqn:Hb; [discriminate|].
    injection H as <- <-. split; [reflexivity|]. right.
    exact (balances_Raised _ _ Hb).
  - rewrite (update_no_connection _ _ _ E) in H. injection H as <- <-.
    split; [reflexivity|]. left.
    exact (DatabaseFacts.get_db_connection_raised _ _ E).
Qed.

(** The first UPDATE stores a data cost of 73,015,689.85 and a voice cost
    of 33,333,333.33; their sum does not fit DECIMAL(10,2), the second
    UPDATE raises, and the first is rolled back with it. *)
Lemma balance_pass_all_or_nothing_witness :
  let db := Fixtures.with_cdr
              [Fixtures.data_record "27820000001" 1600000000000000 0]
              [Fixtures.voice_record "27820000001" 2000000000]
              Fixtures.db_john in
  let pass := update_crm_balances_from_cdr always_up db in
  (exists db1, update_usage db = Returned db1 /\ db1 <> db) /\
  fst pass = Raised NumericValueOutOfRange /\
  snd pass = db.
Proof.
  split; [|split].
  - eexists. split; [vm_compute; reflexivity | vm_compute; discriminate].
  - vm_compute. reflexivity.
  - apply (balance_pass_all_or_nothing always_up
             (Fixtures.with_cdr
                [Fixtures.data_record "27820000001" 1600000000000000 0]
                [Fixtures.voice_record "27820000001" 2000000000]
                Fixtures.db_john)
             NumericValueOutOfRange).
    vm_compute. reflexivity.
Defined.

(** *** What the pass leaves alone *)

Lemma set_usage_created from r r1 :
  set_usage from r = Returned r1 -> created_at r1 = created_at r.
Proof.
  unfold set_usage. destruct (find _ from) as [u|]; [|now intros [= <-]].
  intros H. do 4 bind_inv H. now injection H as <-.
Qed.

Lemma set_totals_created r1 r2 :
  set_totals r1 = Returned r2 -> created_at r2 = created_at r1.
Proof.
  unfold set_totals. destruct (has_usage r1); [|now intros [= <-]].
  intros H. do 2 bind_inv H. now injection H as <-.
Qed.

(** The rows before and after a returning pass, and the FROM clause
    between them. *)
Lemma pass_by_row c db db' :
  update_crm_balances_from_cdr c db = (Returned tt, db') ->
  exists t t2 from,
    crm_flattened_balance db = Some t /\
    db' = with_crm_flattened_balance (Some t2) db /\
    from_clause db = Returned from /\
    Forall2 (fun r r2 => exists r1, set_usage from r = Returned r1 /\
                                    set_totals r1 = Returned r2) t t2.
Proof.
  intros H. apply update_Returned in H.
  destruct (balances_Returned _ _ H) as (t & from & t1 & t2 & Ht & Hf & H1 & H2 & ->).
  exists t, t2, from. repeat split; auto.
  apply mapM_Forall2 in H1. apply mapM_Forall2 in H2.
  clear - H1 H2. revert t2 H2.
  induction H1 as [|r r1 t t1 Hr _ IH]; intros t2 H2; inversion H2; subst;
    constructor; eauto.
Qed.

Lemma rows_table db t : crm_flattened_balance db = Some t -> rows db = t.
Proof. unfold rows. now intros ->. Qed.

(** X8: a balance pass that returns has updated rows in place: the table
    has the rows it had, in the same order, each with its fourteen query
    columns and its created_at unchanged, and no other table has changed. *)
Theorem balance_pass_keeps_rows c db db' :
  update_crm_balances_from_cdr c db = (Returned tt, db') ->
  crm_flattened_balance db = Some (rows db) /\
  db' = with_crm_flattened_balance (Some (rows db')) db /\
  map profile (rows db') = map profile (rows db) /\
  map created_at (rows db') = map created_at (rows db).
Proof.
  intros H. destruct (pass_by_row _ _ _ H) as (t & t2 & from & Ht & -> & _ & HF).
  rewrite (rows_table _ _ Ht), CrmRebuildMore.rows_with_table.
  repeat split; auto.
  - clear - HF. induction HF as [|r r2 t t2 (r1 & H1 & H2) _ IH]; simpl;
      [reflexivity|].
    f_equal; [|exact IH].
    destruct (set_usage_Returned _ _ _ H1) as (Hp1 & _).
    destruct (set_totals_Returned _ _ H2) as (Hp2 & _). congruence.
  - clear - HF. induction HF as [|r r2 t t2 (r1 & H1 & H2) _ IH]; simpl;
      [reflexivity|].
    f_equal; [|exact IH].
    rewrite (set_totals_created _ _ H2). now apply set_usage_created in H1.
Qed.

Lemma balance_pass_witness_pass :
  let db := Fixtures.with_cdr
              [Fixtures.data_record "27820000001" 600000000 400000000]
              [Fixtures.voice_record "27820000001" 61] Fixtures.db_john in
  update_crm_balances_from_cdr always_up db =
  (Returned tt, snd (update_crm_balances_from_cdr always_up db)).
Proof. vm_compute. reflexivity. Qed.

Lemma balance_pass_keeps_rows_witness :
  let db := Fixtures.with_cdr
              [Fixtures.data_record "27820000001" 600000000 400000000]
              [Fixtures.voice_record "27820000001" 61] Fixtures.db_john in
  let db' := snd (update_crm_balances_from_cdr always_up db) in
  crm_flattened_balance db = Some (rows db) /\
  db' = with_crm_flattened_balance (Some (rows db')) db /\
  map profile (rows db') = map profile (rows db) /\
  map created_at (rows db') = map created_at (rows db).
Proof.
  apply (balance_pass_keeps_rows always_up). exact balance_pass_witness_pass.
Defined.

(** *** The FROM clause *)

Lemma opt_bigint_Returned v w : opt_bigint v = Returned w -> w = v.
Proof.
  destruct v as [z|]; simpl; [|now intros [= <-]].
  intros H. bind_inv H as z' Hz. apply SqlFacts.bigint_Returned in Hz.
  injection H as <-. now subst.
Qed.

Lemma bytes_of_Returned r b : bytes_of r = Returned b -> b = data_summand r.
Proof.
  unfold bytes_of, data_summand. intros H.
  bind_inv H as u Hu. bind_inv H as d Hd.
  apply opt_bigint_Returned in Hu. apply opt_bigint_Returned in Hd. subst u d.
  destruct (up_bytes r) as [x|], (down_bytes r) as [y|];
    try (now injection H as <-).
  bind_inv H as z Hz. apply SqlFacts.bigint_Returned in Hz.
  injection H as <-. now subst.
Qed.

Lemma seconds_of_Returned r s : seconds_of r = Returned s -> s = voice_summand r.
Proof.
  unfold seconds_of, voice_summand. intros H. bind_inv H as d Hd.
  apply CrmRebuildMore.opt_integer_Returned in Hd. injection H as <-. now subst.
Qed.

Lemma mapM_map {A B} (f : A -> outcome B) (g : A -> B) l l' :
  (forall a b, f a = Returned b -> b = g a) ->
  mapM f l = Returned l' -> l' = map g l.
Proof.
  intros Hfg H. apply mapM_Forall2 in H.
  induction H as [|a b l l' Hab _ IH]; simpl; [reflexivity|].
  now rewrite (Hfg _ _ Hab), IH.
Qed.

Lemma from_clause_Returned db from :
  from_clause db = Returned from ->
  from = left_join (group_by_msisdn (map data_summand (cdr_data db)))
                   (group_by_msisdn (map voice_summand (cdr_voice db))).
Proof.
  unfold from_clause. intros H. bind_inv H as bs Hb. bind_inv H as vs Hv.
  injection H as <-.
  now rewrite (mapM_map _ _ _ _ bytes_of_Returned Hb),
              (mapM_map _ _ _ _ seconds_of_Returned Hv).
Qed.

Lemma same_group_eq a b : same_group a b = true <-> a = b.
Proof.
  destruct a as [x|], b as [y|]; simpl; split; try congruence.
  - intros H. apply String.eqb_eq in H. now subst.
  - intros [= ->]. apply String.eqb_refl.
Qed.

Lemma sql_eq_Some a b : sql_eq a b = true <-> exists m, a = Some m /\ b = Some m.
Proof.
  destruct a as [x|], b as [y|]; simpl; split;
    try discriminate; try (intros (m & ? & ?); discriminate).
  - intros H. apply String.eqb_eq in H. subst. eauto.
  - intros (m & [= ->] & [= ->]). apply String.eqb_refl.
Qed.

Lemma same_group_sql_eq x m : same_group x (Some m) = sql_eq (Some m) x.
Proof. destruct x as [y|]; simpl; [apply String.eqb_sym | reflexivity]. Qed.

Lemma sql_eq_None x : sql_eq None x = false.
Proof. reflexivity. Qed.

Lemma distinct_In m l : In m (distinct l) <-> In m l.
Proof.
  induction l as [|m0 l IH]; simpl; [tauto|].
  rewrite filter_In, IH. split.
  - intros [H | [H _]]; auto.
  - intros [H | H]; [auto|].
    destruct (same_group m m0) eqn:E.
    + left. apply same_group_eq in E. congruence.
    + right. auto.
Qed.

Lemma sql_sum_from (vs : list (option Z)) (acc : option Z) :
  Sql.coalesce
    (fold_left (fun acc v => match v with
                             | None => acc
                             | Some z => Some (Sql.coalesce acc 0 + z)
                             end) vs acc) 0 =
  Sql.coalesce acc 0 + fold_right Z.add 0 (map (fun v => Sql.coalesce v 0) vs).
Proof.
  revert acc. induction vs as [|v vs IH]; intros acc; simpl; [lia|].
  rewrite IH. destruct v as [z|]; simpl; lia.
Qed.

Lemma sql_sum_coalesce vs :
  Sql.coalesce (sql_sum vs) 0 =
  fold_right Z.add 0 (map (fun v => Sql.coalesce v 0) vs).
Proof. unfold sql_sum. now rewrite sql_sum_from. Qed.

(** A group of a summary: its key is a key of the source, its sum the sum
    over the rows with that key. *)
Lemma group_by_msisdn_In rows c :
  In c (group_by_msisdn rows) <->
  In (fst c) (map fst rows) /\
  snd c = sql_sum (map snd (filter (fun r => same_group (fst r) (fst c)) rows)).
Proof.
  unfold group_by_msisdn. rewrite in_map_iff. split.
  - intros (m & <- & Hm). apply (proj1 (distinct_In _ _)) in Hm. simpl.
    split; [exact Hm | reflexivity].
  - intros [Hm Hs]. exists (fst c). rewrite distinct_In. split; [|exact Hm].
    destruct c as [m s]. simpl in *. now subst.
Qed.

(** The byte and second totals a summary holds for a key. *)
Lemma data_group_total data m :
  Sql.coalesce
    (sql_sum (map snd (filter (fun r => same_group (fst r) m)
                              (map data_summand data)))) 0 =
  fold_right Z.add 0
    (map record_bytes (filter (fun r => same_group (data_msisdn r) m) data)).
Proof.
  rewrite sql_sum_coalesce, filter_map_swap, !map_map. f_equal.
  apply map_ext. intros r. unfold data_summand, record_bytes. simpl.
  now destruct (up_bytes r), (down_bytes r).
Qed.

Lemma voice_group_total voice m :
  Sql.coalesce
    (sql_sum (map snd (filter (fun r => same_group (fst r) m)
                              (map voice_summand voice)))) 0 =
  fold_right Z.add 0
    (map (fun r => Sql.coalesce (call_duration_sec r) 0)
         (filter (fun r => same_group (voice_msisdn r) m) voice)).
Proof. now rewrite sql_sum_coalesce, filter_map_swap, !map_map. Qed.

Lemma left_join_In cs vs u :
  In u (left_join cs vs) ->
  exists c, In c cs /\ usage_msisdn u = fst c /\ total_bytes u = snd c /\
    ((total_seconds u = None /\
      filter (fun v => sql_eq (fst c) (fst v)) vs = []) \/
     (exists v, In v vs /\ sql_eq (fst c) (fst v) = true /\
                total_seconds u = snd v)).
Proof.
  unfold left_join. rewrite in_flat_map. intros (c & Hc & Hu). exists c.
  destruct (filter (fun v => sql_eq (fst c) (fst v)) vs) as [|v0 l] eqn:E.
  - destruct Hu as [<-|[]]. simpl. split; [exact Hc|].
    do 2 (split; [reflexivity|]). left. auto.
  - rewrite <- E in Hu. apply in_map_iff in Hu. destruct Hu as (v & <- & Hv).
    apply filter_In in Hv. simpl. split; [exact Hc|].
    do 2 (split; [reflexivity|]). right. exists v. tauto.
Qed.

Lemma left_join_covers cs vs c :
  In c cs -> exists u, In u (left_join cs vs) /\ usage_msisdn u = fst c.
Proof.
  intros Hc. unfold left_join.
  destruct (filter (fun v => sql_eq (fst c) (fst v)) vs) as [|v0 l] eqn:E.
  - eexists. split; [apply in_flat_map; exists c; split; [exact Hc|]|].
    + rewrite E. now left.
    + reflexivity.
  - eexists. split; [apply in_flat_map; exists c; split; [exact Hc|]|].
    + rewrite E. now left.
    + reflexivity.
Qed.

(** Every row of the FROM clause stands for a subscriber with a data
    record, and carries that subscriber's totals. *)
Lemma from_clause_In db from u :
  from_clause db = Returned from -> In u from ->
  In (usage_msisdn u) (map data_msisdn (cdr_data db)) /\
  Sql.coalesce (total_bytes u) 0 =
    fold_right Z.add 0
      (map record_bytes
           (filter (fun r => same_group (data_msisdn r) (usage_msisdn u))
                   (cdr_data db))) /\
  Sql.coalesce (total_seconds u) 0 =
    fold_right Z.add 0
      (map (fun r => Sql.coalesce (call_duration_sec r) 0)
           (filter (fun r => sql_eq (usage_msisdn u) (voice_msisdn r))
                   (cdr_voice db))).
Proof.
  intros Hf Hu. apply from_clause_Returned in Hf. subst from.
  apply left_join_In in Hu.
  destruct Hu as (c & Hc & -> & -> & Hv).
  apply group_by_msisdn_In in Hc. destruct Hc as [Hm ->].
  rewrite map_map in Hm. split; [exact Hm|]. split; [apply data_group_total|].
  destruct Hv as [[-> Hnone] | (v & Hv & Heq & ->)].
  - simpl. destruct (filter _ (cdr_voice db)) as [|r l] eqn:E; [reflexivity|].
    exfalso.
    assert (Hr : In r (filter (fun r => sql_eq (fst c) (voice_msisdn r))
                              (cdr_voice db))) by (rewrite E; now left).
    apply filter_In in Hr. destruct Hr as [Hr Hq].
    pose (v := (voice_msisdn r,
                sql_sum (map snd (filter (fun x => same_group (fst x) (voice_msisdn r))
                                         (map voice_summand (cdr_voice db)))))).
    assert (Hin : In v (filter (fun v => sql_eq (fst c) (fst v))
                          (group_by_msisdn (map voice_summand (cdr_voice db))))).
    { apply filter_In. split; [|exact Hq].
      apply group_by_msisdn_In. split; [|reflexivity].
      rewrite map_map. simpl. now apply in_map. }
    rewrite Hnone in Hin. exact Hin.
  - apply group_by_msisdn_In in Hv. destruct Hv as [_ ->].
    rewrite voice_group_total. do 2 f_equal.
    apply sql_eq_Some in Heq. destruct Heq as (m & -> & ->).
    apply filter_ext. intros r. apply same_group_sql_eq.
Qed.

Lemma from_clause_covers db from m :
  from_clause db = Returned from ->
  In (Some m) (map data_msisdn (cdr_data db)) ->
  exists u, In u from /\ usage_msisdn u = Some m.
Proof.
  intros Hf Hm. apply from_clause_Returned in Hf. subst from.
  pose (c := (Some m,
              sql_sum (map snd (filter (fun x => same_group (fst x) (Some m))
                                       (map data_summand (cdr_data db)))))).
  destruct (left_join_covers
              (group_by_msisdn (map data_summand (cdr_data db)))
              (group_by_msisdn (map voice_summand (cdr_voice db))) c)
    as (u & Hu & Hk).
  - apply group_by_msisdn_In. split; [|reflexivity]. now rewrite map_map.
  - exists u. auto.
Qed.

Lemma has_data_record_In data r :
  has_data_record data r = true <->
  exists m, msisdn (profile r) = Some m /\ In (Some m) (map data_msisdn data).
Proof.
  unfold has_data_record. rewrite existsb_exists. split.
  - intros (d & Hd & Hq). apply sql_eq_Some in Hq. destruct Hq as (m & Hm & Hd').
    exists m. split; [exact Hm|]. rewrite <- Hd'. now apply in_map.
  - intros (m & Hm & Hin). apply in_map_iff in Hin. destruct Hin as (d & Hd & Hin).
    exists d. split; [exact Hin|]. apply sql_eq_Some. eauto.
Qed.

(** The row of the FROM clause a table row is updated from, if any. *)
Lemma usage_of_row db from r :
  from_clause db = Returned from ->
  match usage_of from r with
  | Some u =>
      In u from /\ has_data_record (cdr_data db) r = true /\
      usage_msisdn u = msisdn (profile r)
  | None => has_data_record (cdr_data db) r = false
  end.
Proof.
  intros Hf. unfold usage_of.
  destruct (find _ from) as [u|] eqn:E.
  - apply find_some in E. destruct E as [Hu Hq].
    apply sql_eq_Some in Hq. destruct Hq as (m & Hm & Hk).
    split; [exact Hu|]. split; [|congruence].
    apply has_data_record_In. exists m. split; [exact Hm|].
    destruct (from_clause_In _ _ _ Hf Hu) as [Hin _]. congruence.
  - destruct (has_data_record (cdr_data db) r) eqn:Hd; [|reflexivity].
    exfalso. apply has_data_record_In in Hd. destruct Hd as (m & Hm & Hin).
    destruct (from_clause_covers _ _ _ Hf Hin) as (u & Hu & Hk).
    pose proof (find_none _ _ E u Hu) as Hq. simpl in Hq.
    rewrite Hm, Hk in Hq. simpl in Hq. now rewrite String.eqb_refl in Hq.
Qed.

(** *** What the pass stores *)

Lemma bytes_total_eq data m :
  fold_right Z.add 0
    (map record_bytes (filter (fun r => same_group (data_msisdn r) (Some m)) data)) =
  bytes_total data m.
Proof.
  unfold bytes_total. do 2 f_equal. apply filter_ext. intros r.
  apply same_group_sql_eq.
Qed.

Lemma voice_cost_expr_coalesce ts :
  voice_cost_expr ts = voice_cost_expr (Some (Sql.coalesce ts 0)).
Proof. reflexivity. Qed.

(** X9: after a balance pass that returns, a row whose subscriber has at
    least one data record holds the subscriber's totals: total_data_bytes
    is the sum of up_bytes + down_bytes over the data records with the
    row's msisdn, a record with a NULL count adding nothing;
    total_call_seconds is the sum of the durations of the voice records
    with that msisdn; the voice cost is that many seconds at one rand a
    minute, rounded to cents. *)
Theorem balance_pass_totals c db db' :
  update_crm_balances_from_cdr c db = (Returned tt, db') ->
  Forall2
    (fun r r' =>
       forall m, msisdn (profile r) = Some m ->
         has_data_record (cdr_data db) r = true ->
         total_data_bytes r' = bytes_total (cdr_data db) m /\
         total_call_seconds r' = seconds_total (cdr_voice db) m /\
         voice_cost_zar r' =
           Sql.round_half_away
             (voice_cost_expr (Some (seconds_total (cdr_voice db) m)) * 100)%Q)
    (rows db) (rows db').
Proof.
  intros H. destruct (pass_by_row _ _ _ H) as (t & t2 & from & Ht & -> & Hf & HF).
  rewrite (rows_table _ _ Ht), CrmRebuildMore.rows_with_table.
  eapply Forall2_impl; [|exact HF].
  intros r r2 (r1 & H1 & H2) m Hm Hd.
  pose proof (usage_of_row db from r Hf) as Hu.
  destruct (set_usage_Returned _ _ _ H1) as (_ & _ & _ & Hset).
  destruct (set_totals_Returned _ _ H2) as (_ & Hb & _ & Hs & Hv & _).
  destruct (usage_of from r) as [u|]; [|congruence].
  destruct Hu as (Hin & _ & Hk).
  destruct Hset as (Hb1 & _ & Hs1 & Hv1).
  destruct (from_clause_In _ _ _ Hf Hin) as (_ & Hbytes & Hsecs).
  rewrite Hk, Hm in Hbytes, Hsecs. rewrite bytes_total_eq in Hbytes.
  fold (seconds_total (cdr_voice db) m) in Hsecs.
  split; [congruence|]. split; [congruence|].
  rewrite Hv. apply SqlFacts.decimal_10_2_Returned in Hv1. rewrite Hv1.
  now rewrite voice_cost_expr_coalesce, Hsecs.
Qed.

(** Two data records and two calls for John, one data record for someone
    else. *)
Lemma balance_pass_totals_witness :
  let db := Fixtures.with_cdr
              [Fixtures.data_record "27820000001" 600000000 400000000;
               Fixtures.data_record "27820000002" 7 7;
               Fixtures.data_record "27820000001" 200 300]
              [Fixtures.voice_record "27820000001" 61;
               Fixtures.voice_record "27820000001" 30] Fixtures.db_john in
  Forall2
    (fun r r' =>
       forall m, msisdn (profile r) = Some m ->
         has_data_record (cdr_data db) r = true ->
         total_data_bytes r' = bytes_total (cdr_data db) m /\
         total_call_seconds r' = seconds_total (cdr_voice db) m /\
         voice_cost_zar r' =
           Sql.round_half_away
             (voice_cost_expr (Some (seconds_total (cdr_voice db) m)) * 100)%Q)
    (rows db) (rows (snd (update_crm_balances_from_cdr always_up db))).
Proof.
  apply (balance_pass_totals always_up).
  vm_compute. reflexivity.
Defined.

(** X10: a row whose subscriber has no data record keeps the usage and the
    costs it had, whatever cdr_voice holds for the subscriber: the FROM
    clause starts from the data summary, and the voice summary is only
    joined to it. *)
Theorem balance_pass_skips_without_data c db db' :
  update_crm_balances_from_cdr c db = (Returned tt, db') ->
  Forall2
    (fun r r' =>
       has_data_record (cdr_data db) r = false ->
       total_data_bytes r' = total_data_bytes r /\
       data_cost_zar r' = data_cost_zar r /\
       total_call_seconds r' = total_call_seconds r /\
       voice_cost_zar r' = voice_cost_zar r)
    (rows db) (rows db').
Proof.
  intros H. destruct (pass_by_row _ _ _ H) as (t & t2 & from & Ht & -> & Hf & HF).
  rewrite (rows_table _ _ Ht), CrmRebuildMore.rows_with_table.
  eapply Forall2_impl; [|exact HF].
  intros r r2 (r1 & H1 & H2) Hd.
  pose proof (usage_of_row db from r Hf) as Hu.
  destruct (set_usage_Returned _ _ _ H1) as (_ & _ & _ & Hset).
  destruct (set_totals_Returned _ _ H2) as (_ & Hb & Hdc & Hs & Hv & _).
  destruct (usage_of from r) as [u|].
  - destruct Hu as (_ & Hd' & _). congruence.
  - subst r1. auto.
Qed.

(** Sixty seconds of calls for John and no data record: his row stays at
    zero seconds. *)
Lemma balance_pass_skips_without_data_witness :
  let db := Fixtures.with_cdr [] [Fixtures.voice_record "27820000001" 60]
              Fixtures.db_john in
  Forall2
    (fun r r' =>
       has_data_record (cdr_data db) r = false ->
       total_data_bytes r' = total_data_bytes r /\
       data_cost_zar r' = data_cost_zar r /\
       total_call_seconds r' = total_call_seconds r /\
       voice_cost_zar r' = voice_cost_zar r)
    (rows db) (rows (snd (update_crm_balances_from_cdr always_up db))).
Proof.
  apply (balance_pass_skips_without_data always_up).
  vm_compute. reflexivity.
Defined.

(** *** An invariant of the two passes *)

Lemma sum_nonneg l : Forall (fun z => 0 <= z) l -> 0 <= fold_right Z.add 0 l.
Proof. induction 1; simpl; lia. Qed.

Lemma Forall_map_filter {A B} (P : B -> Prop) (g : A -> B) f l :
  Forall (fun a => P (g a)) l -> Forall P (map g (filter f l)).
Proof.
  induction 1 as [|a l Ha _ IH]; simpl; [constructor|].
  destruct (f a); simpl; auto.
Qed.

Lemma data_cost_nonneg tb :
  0 <= Sql.coalesce tb 0 ->
  0 <= Sql.round_half_away (data_cost_expr tb * 100)%Q.
Proof.
  intros H. apply SqlMore.round_half_away_nonneg.
  unfold data_cost_expr, DATA_COST_PER_GB.
  set (z := Sql.coalesce tb 0) in *.
  unfold Qle, Qdiv, Qmult, Qinv, inject_Z. cbn. lia.
Qed.

Lemma voice_cost_nonneg ts :
  0 <= Sql.coalesce ts 0 ->
  0 <= Sql.round_half_away (voice_cost_expr ts * 100)%Q.
Proof.
  intros H. apply SqlMore.round_half_away_nonneg.
  unfold voice_cost_expr, VOICE_COST_PER_MIN.
  set (z := Sql.coalesce ts 0) in *.
  unfold Qle, Qdiv, Qmult, Qinv, inject_Z. cbn. lia.
Qed.

Lemma fresh_settled now r : fresh now r -> settled r.
Proof. unfold fresh, settled. intros (_ & -> & _ & -> & -> & -> & _). lia. Qed.

Lemma pass_row_settled db from r r1 r2 :
  Forall (fun d => 0 <= record_bytes d) (cdr_data db) ->
  Forall (fun v => 0 <= Sql.coalesce (call_duration_sec v) 0) (cdr_voice db) ->
  from_clause db = Returned from ->
  set_usage from r = Returned r1 -> set_totals r1 = Returned r2 ->
  settled r -> settled r2.
Proof.
  intros Hdata Hvoice Hf H1 H2 (Hdc & Hvc & Htc & Hrb).
  pose proof (usage_of_row db from r Hf) as Hu.
  destruct (set_usage_Returned _ _ _ H1) as (_ & Htc1 & Hrb1 & Hset).
  destruct (set_totals_Returned _ _ H2) as (_ & _ & Hdc2 & _ & Hvc2 & Htot).
  assert (Hcosts : 0 <= data_cost_zar r1 /\ 0 <= voice_cost_zar r1).
  { destruct (usage_of from r) as [u|]; [|now subst r1].
    destruct Hu as (Hin & _).
    destruct Hset as (_ & Hdc1 & _ & Hvc1).
    destruct (from_clause_In _ _ _ Hf Hin) as (_ & Hbytes & Hsecs).
    apply SqlFacts.decimal_10_2_Returned in Hdc1, Hvc1. rewrite Hdc1, Hvc1.
    split.
    - apply data_cost_nonneg. rewrite Hbytes.
      apply sum_nonneg, Forall_map_filter, Hdata.
    - apply voice_cost_nonneg. rewrite Hsecs.
      apply sum_nonneg, Forall_map_filter, Hvoice. }
  unfold settled. rewrite Hdc2, Hvc2.
  destruct (has_usage r1).
  - destruct Htot as [-> ->]. lia.
  - subst r2. lia.
Qed.

(** X11: on every row, costs that are not negative and a running balance
    that is the total cost negated: a rebuild that returns establishes
    this, and a balance pass that returns keeps it, as long as no data
    record has a negative byte count and no voice record a negative
    duration. *)
Theorem passes_keep_rows_settled :
  (forall c1 c2 df now db db',
     df <> [] ->
     process_crm_data_1 c1 c2 df now db = (Returned tt, db') ->
     Forall settled (rows db'))
  /\ (forall c db db',
        Forall (fun d => 0 <= record_bytes d) (cdr_data db) ->
        Forall (fun v => 0 <= Sql.coalesce (call_duration_sec v) 0) (cdr_voice db) ->
        Forall settled (rows db) ->
        update_crm_balances_from_cdr c db = (Returned tt, db') ->
        Forall settled (rows db')).
Proof.
  split.
  - intros c1 c2 df now db db' Hdf Hpass.
    destruct (CrmRebuildFacts.process_crm_data_1_Returned _ _ _ _ _ _ Hdf Hpass)
      as (t & Ht & ->).
    rewrite CrmRebuildMore.rows_with_table.
    eapply Forall_impl; [|exact (CrmRebuildMore.inserted_fresh _ _ _ Ht)].
    intros r. apply fresh_settled.
  - intros c db db' Hdata Hvoice Hrows H.
    destruct (pass_by_row _ _ _ H) as (t & t2 & from & Ht & -> & Hf & HF).
    rewrite (rows_table _ _ Ht) in Hrows. rewrite CrmRebuildMore.rows_with_table.
    clear - Hdata Hvoice Hrows Hf HF.
    induction HF as [|r r2 t t2 (r1 & H1 & H2) _ IH]; [constructor|].
    inversion Hrows; subst. constructor; [|auto].
    eapply pass_row_settled; eauto.
Qed.

(** The database the invariant is on after a rebuild and a balance pass. *)
Lemma passes_keep_rows_settled_witness :
  let db0 := snd (process_crm_data_1 always_up always_up
                    [Fixtures.john; Fixtures.jane] 1765116000 Fixtures.db_john) in
  let db := Fixtures.with_cdr
              [Fixtures.data_record "27820000001" 600000000 400000000]
              [Fixtures.voice_record "27820000001" 61] db0 in
  Forall settled (rows db) /\
  Forall settled (rows (snd (update_crm_balances_from_cdr always_up db))).
Proof.
  intros db0 db.
  assert (H0 : Forall settled (rows db)).
  { apply (proj1 passes_keep_rows_settled always_up always_up
             [Fixtures.john; Fixtures.jane] 1765116000 Fixtures.db_john db0).
    - discriminate.
    - vm_compute. reflexivity. }
  split; [exact H0|].
  apply (proj2 passes_keep_rows_settled always_up db).
  - repeat constructor; cbn; lia.
  - repeat constructor; cbn; lia.
  - exact H0.
  - vm_compute. reflexivity.
Defined.

(** *** The first balance pass after a rebuild *)

Lemma data_cost_of_nothing tb :
  Sql.coalesce tb 0 = 0 -> Sql.round_half_away (data_cost_expr tb * 100)%Q = 0.
Proof. intros H. unfold data_cost_expr. now rewrite H. Qed.

Lemma voice_cost_of_nothing ts :
  Sql.coalesce ts 0 = 0 -> Sql.round_half_away (voice_cost_expr ts * 100)%Q = 0.
Proof. intros H. unfold voice_cost_expr. now rewrite H. Qed.

Lemma fresh_row_first_pass now db from r r1 r2 :
  Forall (fun d => 0 <= record_bytes d) (cdr_data db) ->
  Forall (fun v => 0 <= Sql.coalesce (call_duration_sec v) 0) (cdr_voice db) ->
  from_clause db = Returned from ->
  set_usage from r = Returned r1 -> set_totals r1 = Returned r2 ->
  fresh now r ->
  total_cost_zar r2 = data_cost_zar r2 + voice_cost_zar r2 /\
  running_balance_zar r2 = - total_cost_zar r2.
Proof.
  intros Hdata Hvoice Hf H1 H2 (Hb & Hdc & Hs & Hvc & Htc & Hrb & _).
  pose proof (usage_of_row db from r Hf) as Hu.
  destruct (set_usage_Returned _ _ _ H1) as (_ & Htc1 & Hrb1 & Hset).
  destruct (set_totals_Returned _ _ H2) as (_ & _ & Hdc2 & _ & Hvc2 & Htot).
  rewrite Hdc2, Hvc2.
  destruct (has_usage r1) eqn:Hhas; [destruct Htot as [-> ->]; lia|].
  subst r2. rewrite Htc1, Hrb1, Htc, Hrb.
  destruct (usage_of from r) as [u|]; [|subst r1; lia].
  destruct Hu as (Hin & _).
  destruct Hset as (Hb1 & Hdc1 & Hs1 & Hvc1).
  destruct (from_clause_In _ _ _ Hf Hin) as (_ & Hbytes & Hsecs).
  assert (Hb0 : 0 <= Sql.coalesce (total_bytes u) 0)
    by (rewrite Hbytes; apply sum_nonneg, Forall_map_filter, Hdata).
  assert (Hs0 : 0 <= Sql.coalesce (total_seconds u) 0)
    by (rewrite Hsecs; apply sum_nonneg, Forall_map_filter, Hvoice).
  unfold has_usage in Hhas. apply orb_false_iff in Hhas.
  destruct Hhas as [Hlb Hls]. apply Z.ltb_ge in Hlb, Hls.
  apply SqlFacts.decimal_10_2_Returned in Hdc1, Hvc1.
  rewrite Hdc1, Hvc1, data_cost_of_nothing, voice_cost_of_nothing by lia. lia.
Qed.

(** X12: the first balance pass after a rebuild leaves no total behind its
    costs: on every row the total cost is the data cost plus the voice cost
    and the running balance is the total negated, as long as no record has
    a negative byte count or duration.  (On later passes a row whose usage
    has gone back to nothing keeps its old total.) *)
Theorem first_balance_pass_after_rebuild c1 c2 df now db db1 c db2 :
  df <> [] ->
  process_crm_data_1 c1 c2 df now db = (Returned tt, db1) ->
  Forall (fun d => 0 <= record_bytes d) (cdr_data db1) ->
  Forall (fun v => 0 <= Sql.coalesce (call_duration_sec v) 0) (cdr_voice db1) ->
  update_crm_balances_from_cdr c db1 = (Returned tt, db2) ->
  Forall (fun r => total_cost_zar r = data_cost_zar r + voice_cost_zar r /\
                   running_balance_zar r = - total_cost_zar r)
         (rows db2).
Proof.
  intros Hdf Hpass Hdata Hvoice H.
  assert (Hfresh : Forall (fresh now) (rows db1)).
  { destruct (CrmRebuildFacts.process_crm_data_1_Returned _ _ _ _ _ _ Hdf Hpass)
      as (t & Ht & ->).
    rewrite CrmRebuildMore.rows_with_table.
    exact (CrmRebuildMore.inserted_fresh _ _ _ Ht). }
  destruct (pass_by_row _ _ _ H) as (t & t2 & from & Ht & -> & Hf & HF).
  rewrite (rows_table _ _ Ht) in Hfresh. rewrite CrmRebuildMore.rows_with_table.
  clear - Hdata Hvoice Hfresh Hf HF.
  induction HF as [|r r2 t t2 (r1 & H1 & H2) _ IH]; [constructor|].
  inversion Hfresh; subst. constructor; [|auto].
  eapply fresh_row_first_pass; eauto.
Qed.

(** John and Jane after a rebuild; John has used data and made a call. *)
Lemma first_balance_pass_after_rebuild_witness :
  let db := Fixtures.with_cdr
              [Fixtures.data_record "27820000001" 600000000 400000000]
              [Fixtures.voice_record "27820000001" 61] Fixtures.db_john in
  let db1 := snd (process_crm_data_1 always_up always_up
                    [Fixtures.john; Fixtures.jane] 1765116000 db) in
  Forall (fun r => total_cost_zar r = data_cost_zar r + voice_cost_zar r /\
                   running_balance_zar r = - total_cost_zar r)
         (rows (snd (update_crm_balances_from_cdr always_up db1))).
Proof.
  intros db db1.
  apply (first_balance_pass_after_rebuild always_up always_up
           [Fixtures.john; Fixtures.jane] 1765116000 db db1 always_up).
  - discriminate.
  - vm_compute. reflexivity.
  - repeat constructor; cbn; lia.
  - repeat constructor; cbn; lia.
  - vm_compute. reflexivity.
Defined.

End CrmBalanceMore.

(** ** The merge of the usage frames and the join of the balance pass *)

Module UsageJoinFacts.
Import Schema Connection Crm Notions MoreNotions MergeTest Fixtures
       CrmBalanceMore.

(** [distinct] keeps one of each key. *)
Lemma filter_distinct m l :
  filter (fun x => sql_eq (Some m) x) (distinct l) =
  if existsb (fun x => sql_eq (Some m) x) l then [Some m] else [].
Proof.
  induction l as [|x l IH]; cbn [distinct filter existsb]; [reflexivity|].
  destruct (sql_eq (Some m) x) eqn:E; cbn [orb].
  - apply sql_eq_Some in E. destruct E as (m' & [= <-] & ->).
    f_equal. apply MergeFacts.filter_none. intros y Hy.
    apply filter_In in Hy. destruct Hy as [_ Hy].
    destruct (sql_eq (Some m) y) eqn:Ey; [|reflexivity].
    apply sql_eq_Some in Ey. destruct Ey as (m' & [= <-] & ->).
    cbn in Hy. now rewrite String.eqb_refl in Hy.
  - rewrite <- IH. rewrite MergeFacts.filter_filter_comm.
    apply MergeFacts.filter_all. intros y Hy.
    apply filter_In in Hy. destruct Hy as [_ Hy].
    apply sql_eq_Some in Hy. destruct Hy as (m' & [= <-] & ->).
    destruct x as [x|]; [|reflexivity]. cbn in E |- *.
    now rewrite E.
Qed.

(** A summary has one row for a key of its source, none for another. *)
Lemma filter_group_by m rows :
  filter (fun c => sql_eq (Some m) (fst c)) (group_by_msisdn rows) =
  if existsb (fun r => sql_eq (Some m) (fst r)) rows
  then [(Some m,
         sql_sum (map snd (filter (fun r => same_group (fst r) (Some m)) rows)))]
  else [].
Proof.
  unfold group_by_msisdn.
  rewrite (MergeFacts.filter_map_key _ (fun x => sql_eq (Some m) x)) by reflexivity.
  rewrite filter_distinct.
  replace (existsb (fun x => sql_eq (Some m) x) (map fst rows))
    with (existsb (fun r => sql_eq (Some m) (fst r)) rows).
  - now destruct (existsb _ rows).
  - clear. induction rows as [|r rows IH]; cbn [map existsb]; [reflexivity|].
    now rewrite IH.
Qed.

Lemma filter_left_join m cs vs :
  joined_at m (left_join cs vs) =
  left_join (filter (fun c => sql_eq (Some m) (fst c)) cs) vs.
Proof.
  unfold joined_at, left_join.
  induction cs as [|c cs IH]; cbn [flat_map filter]; [reflexivity|].
  rewrite filter_app, IH.
  destruct (sql_eq (Some m) (fst c)) eqn:E; cbn [flat_map].
  - f_equal. apply MergeFacts.filter_all. intros u Hu.
    destruct (filter (fun v => sql_eq (fst c) (fst v)) vs) as [|v0 l].
    + destruct Hu as [<-|[]]. exact E.
    + apply in_map_iff in Hu. destruct Hu as (v & <- & _). exact E.
  - rewrite MergeFacts.filter_none; [reflexivity|]. intros u Hu.
    destruct (filter (fun v => sql_eq (fst c) (fst v)) vs) as [|v0 l].
    + destruct Hu as [<-|[]]. exact E.
    + apply in_map_iff in Hu. destruct Hu as (v & <- & _). exact E.
Qed.

Lemma existsb_data m data :
  In (Some m) (map data_msisdn data) ->
  existsb (fun r => sql_eq (Some m) (fst r)) (map data_summand data) = true.
Proof.
  intros H. apply in_map_iff in H. destruct H as (d & Hd & Hin).
  apply existsb_exists. exists (data_summand d). split; [now apply in_map|].
  cbn. rewrite Hd. cbn. apply String.eqb_refl.
Qed.

Lemma existsb_voice m voice :
  existsb (fun r => sql_eq (Some m) (fst r)) (map voice_summand voice) = true <->
  In (Some m) (map voice_msisdn voice).
Proof.
  rewrite existsb_exists. split.
  - intros (v & Hv & E). apply in_map_iff in Hv. destruct Hv as (r & <- & Hr).
    unfold voice_summand in E. cbn [fst] in E.
    apply sql_eq_Some in E. destruct E as (m' & [= <-] & E).
    rewrite <- E. now apply in_map.
  - intros H. apply in_map_iff in H. destruct H as (r & Hr & Hin).
    exists (voice_summand r). split; [now apply in_map|].
    cbn. rewrite Hr. cbn. apply String.eqb_refl.
Qed.

Lemma seconds_total_none m voice :
  ~ In (Some m) (map voice_msisdn voice) -> seconds_total voice m = 0.
Proof.
  intros H. unfold seconds_total. rewrite MergeFacts.filter_none; [reflexivity|].
  intros r Hr. destruct (sql_eq (Some m) (voice_msisdn r)) eqn:E; [|reflexivity].
  exfalso. apply H. apply sql_eq_Some in E. destruct E as (m' & [= <-] & E).
  rewrite <- E. now apply in_map.
Qed.

Lemma seconds_total_eq voice m :
  fold_right Z.add 0
    (map (fun r => Sql.coalesce (call_duration_sec r) 0)
         (filter (fun r => same_group (voice_msisdn r) (Some m)) voice)) =
  seconds_total voice m.
Proof.
  unfold seconds_total. do 2 f_equal. apply filter_ext. intros r.
  apply same_group_sql_eq.
Qed.

(** C5, as stated, fails.  Where a key comes twice in one input, the merge
    gives a row for each pair of records with that key: two rows here, not
    one.  And the join of the balance pass starts from the data side: for a
    subscriber with voice records only, its FROM clause has no row. *)
Lemma one_row_per_key_fails :
  (List.length (merged_at test_key
                  (merged_df test_voice_df (test_data_df ++ test_data_df))) = 2%nat)
  /\ (let db := with_cdr [] [voice_record "27820000001" 60] db_john in
      exists from, from_clause db = Returned from /\
                   joined_at "27820000001" from = []).
Proof.
  split; [vm_compute; reflexivity|].
  eexists. split; vm_compute; reflexivity.
Qed.

(** C5, amended: when neither input has two records with the same key, the
    merged frame has, for every key (t, msisdn) of either input, exactly one
    row; it carries the voice columns and the data columns of that key
    unchanged, and zeros for the columns of an input that has no record for
    it.  The balance pass joins the two summaries per msisdn from the data
    side: for every subscriber with a data record its FROM clause has
    exactly one row, with the sum of the subscriber's bytes and the sum of
    the subscriber's call seconds, which COALESCE makes zero when there is
    no voice record. *)
Theorem merge_and_join_keep_both_sides :
  (forall (voice_df : list (usage_key * voice_columns))
          (data_df : list (usage_key * data_columns)) (k : usage_key),
     NoDup (map fst voice_df) -> NoDup (map fst data_df) ->
     In k (map fst voice_df) \/ In k (map fst data_df) ->
     merged_at k (merged_df voice_df data_df) =
     [ (k, columns_at voice_zero k voice_df, columns_at data_zero k data_df) ])
  /\ (forall db from m,
        from_clause db = Returned from ->
        In (Some m) (map data_msisdn (cdr_data db)) ->
        exists u,
          joined_at m from = [u] /\
          usage_msisdn u = Some m /\
          Sql.coalesce (total_bytes u) 0 = bytes_total (cdr_data db) m /\
          Sql.coalesce (total_seconds u) 0 = seconds_total (cdr_voice db) m /\
          (~ In (Some m) (map voice_msisdn (cdr_voice db)) ->
           total_seconds u = None)).
Proof.
  split.
  - intros voice_df data_df k Hv Hd Hk. unfold merged_at.
    now apply MergeFacts.merged_row_at_key.
  - intros db from m Hf Hm. apply from_clause_Returned in Hf. subst from.
    rewrite filter_left_join, filter_group_by, (existsb_data _ _ Hm).
    unfold left_join. cbn [flat_map fst snd]. rewrite app_nil_r.
    rewrite filter_group_by.
    destruct (existsb _ (map voice_summand (cdr_voice db))) eqn:Ev;
      (eexists; split; [reflexivity|]);
      cbn [usage_msisdn total_bytes total_seconds fst snd];
      (split; [reflexivity|]); (split; [|split]).
    + rewrite data_group_total. apply bytes_total_eq.
    + rewrite voice_group_total. apply seconds_total_eq.
    + intros Hn. apply existsb_voice in Ev. contradiction.
    + rewrite data_group_total. apply bytes_total_eq.
    + cbn [Sql.coalesce]. symmetry. apply seconds_total_none.
      intros Hin. apply existsb_voice in Hin. congruence.
    + reflexivity.
Qed.

(** The two frames of the test, and the test's voice frame alone; John with
    two data records and no call. *)
Lemma merge_and_join_keep_both_sides_witness :
  merged_at test_key (merged_df test_voice_df test_data_df) =
  [ (test_key, columns_at voice_zero test_key test_voice_df,
     columns_at data_zero test_key test_data_df) ]
  /\ merged_at test_key (merged_df test_voice_df []) =
     [ (test_key, columns_at voice_zero test_key test_voice_df, data_zero) ]
  /\ (let db := with_cdr [data_record "27820000001" 600 400;
                          data_record "27820000001" 20 30] [] db_john in
      exists u,
        joined_at "27820000001"
          (left_join (group_by_msisdn (map data_summand (cdr_data db)))
                     (group_by_msisdn (map voice_summand (cdr_voice db)))) = [u] /\
        usage_msisdn u = Some "27820000001" /\
        Sql.coalesce (total_bytes u) 0 = bytes_total (cdr_data db) "27820000001" /\
        Sql.coalesce (total_seconds u) 0 =
          seconds_total (cdr_voice db) "27820000001" /\
        (~ In (Some "27820000001") (map voice_msisdn (cdr_voice db)) ->
         total_seconds u = None)).
Proof.
  assert (Hone : forall V (v : V), NoDup (map fst [(test_key, v)]))
    by (intros V v; constructor; [intros [] | constructor]).
  split; [|split].
  - apply (proj1 merge_and_join_keep_both_sides);
      [apply Hone | apply Hone | left; now left].
  - apply (proj1 merge_and_join_keep_both_sides test_voice_df [] test_key);
      [apply Hone | constructor | left; now left].
  - apply (proj2 merge_and_join_keep_both_sides).
    + vm_compute. reflexivity.
    + left. reflexivity.
Defined.

End UsageJoinFacts.

(** ** The usage merge: totals *)

Module MergeMore.
Import MergeTest Notions MoreNotions MergeFacts.

Lemma column_sum_app {R} (f : R -> Z) l1 l2 :
  column_sum f (l1 ++ l2) = column_sum f l1 + column_sum f l2.
Proof.
  unfold column_sum. induction l1 as [|x l1 IH]; simpl; [reflexivity|].
  rewrite IH. lia.
Qed.

Lemma column_sum_map {R S} (f : S -> Z) (g : R -> S) l :
  column_sum f (map g l) = column_sum (fun x => f (g x)) l.
Proof. unfold column_sum. now rewrite map_map. Qed.

Lemma column_sum_zero {R} (f : R -> Z) l :
  (forall x, In x l -> f x = 0) -> column_sum f l = 0.
Proof.
  unfold column_sum. induction l as [|x l IH]; simpl; intros H; [reflexivity|].
  rewrite (H x), IH by auto. reflexivity.
Qed.

Lemma column_sum_ext {R} (f g : R -> Z) l :
  (forall x, In x l -> f x = g x) -> column_sum f l = column_sum g l.
Proof.
  unfold column_sum. induction l as [|x l IH]; simpl; intros H; [reflexivity|].
  rewrite (H x), IH by auto. reflexivity.
Qed.

Lemma column_sum_flat_map {R S} (f : S -> Z) (g : R -> list S) l :
  column_sum f (flat_map g l) = column_sum (fun x => column_sum f (g x)) l.
Proof.
  induction l as [|x l IH]; simpl; [reflexivity|].
  rewrite column_sum_app, IH. reflexivity.
Qed.

Lemma column_sum_filter_split {R} (f : R -> Z) (p q : R -> bool) l :
  column_sum f (filter p l) =
  column_sum f (filter (fun x => p x && q x) l)
  + column_sum f (filter (fun x => p x && negb (q x)) l).
Proof.
  unfold column_sum. induction l as [|x l IH]; simpl; [reflexivity|].
  destruct (p x), (q x); simpl; rewrite IH; lia.
Qed.

Lemma usage_key_eqb_sym a b : usage_key_eqb a b = usage_key_eqb b a.
Proof.
  unfold usage_key_eqb. now rewrite (String.eqb_sym (fst a)), (String.eqb_sym (snd a)).
Qed.

(** The voice columns and the data columns of a row of the merged frame. *)
Lemma fillna_eq df :
  fillna df =
  map (fun row =>
         (fst (fst row),
          match snd (fst row) with Some x => x | None => voice_zero end,
          match snd row with Some x => x | None => data_zero end)) df.
Proof. unfold fillna. apply map_ext. now intros [[k v] d]. Qed.

Lemma voice_side_total (f : voice_columns -> Z) voice_df data_df :
  f voice_zero = 0 -> NoDup (map fst data_df) ->
  column_sum (fun row => f (snd (fst row))) (merged_df voice_df data_df) =
  column_sum (fun l => f (snd l)) voice_df.
Proof.
  intros Hz Hd. unfold merged_df. rewrite fillna_eq, merge_outer_eq.
  rewrite column_sum_map, column_sum_app. cbn [fst snd].
  rewrite (column_sum_zero _ (map _ _)).
  2:{ intros row Hrow. apply in_map_iff in Hrow. now destruct Hrow as (r & <- & _). }
  rewrite column_sum_flat_map, Z.add_0_r.
  apply column_sum_ext. intros l _. unfold joined.
  destruct (filter_on_key_unique (fst l) data_df Hd) as [[_ ->] | [_ [v ->]]];
    unfold column_sum; simpl; lia.
Qed.

Lemma data_side_total (g : data_columns -> Z) voice_df data_df :
  g data_zero = 0 -> NoDup (map fst voice_df) ->
  column_sum (fun row => g (snd row)) (merged_df voice_df data_df) =
  column_sum (fun r => g (snd r)) data_df.
Proof.
  intros Hz Hv. unfold merged_df. rewrite fillna_eq, merge_outer_eq.
  rewrite column_sum_map, column_sum_app, column_sum_map. cbn [fst snd].
  rewrite column_sum_flat_map.
  induction voice_df as [|l vs IH].
  - cbn [existsb negb column_sum map fold_right]. rewrite filter_all by reflexivity.
    unfold column_sum. simpl. reflexivity.
  - inversion Hv as [|? ? Hl Hvs]; subst. rewrite <- (IH Hvs). clear IH.
    unfold column_sum at 1. cbn [map fold_right].
    fold (column_sum (fun x => column_sum
            (fun row => g match snd row with Some x0 => x0 | None => data_zero end)
            (joined data_df x)) vs).
    rewrite (column_sum_filter_split _
               (fun r => negb (existsb (on_key (fst r)) vs))
               (fun r => on_key (fst l) r) data_df).
    assert (E1 : filter (fun r => negb (existsb (on_key (fst r)) vs)
                                  && on_key (fst l) r) data_df =
                 filter (on_key (fst l)) data_df).
    { apply filter_ext_in. intros r _.
      destruct (on_key (fst l) r) eqn:E; [|apply andb_false_r].
      rewrite andb_true_r. unfold on_key in E. apply usage_key_eqb_eq in E.
      rewrite E. destruct (existsb (on_key (fst l)) vs) eqn:Ex; [|reflexivity].
      exfalso. apply existsb_exists in Ex. destruct Ex as (l' & Hin & Hk).
      unfold on_key in Hk. apply usage_key_eqb_eq in Hk.
      apply Hl. rewrite <- Hk. now apply in_map. }
    assert (E2 : filter (fun r => negb (existsb (on_key (fst r)) vs)
                                  && negb (on_key (fst l) r)) data_df =
                 filter (fun r => negb (existsb (on_key (fst r)) (l :: vs))) data_df).
    { apply filter_ext. intros r. cbn [existsb]. rewrite negb_orb, andb_comm.
      f_equal. f_equal. unfold on_key. apply usage_key_eqb_sym. }
    rewrite E1, E2.
    assert (E3 : column_sum
                   (fun row => g match snd row with Some x => x | None => data_zero end)
                   (joined data_df l) =
                 column_sum (fun r => g (snd r)) (filter (on_key (fst l)) data_df)).
    { unfold joined. destruct (filter (on_key (fst l)) data_df) as [|r rs].
      - unfold column_sum. simpl. lia.
      - now rewrite column_sum_map. }
    rewrite E3. lia.
Qed.

(** X13: the merge neither loses nor counts twice.  When no two rows of
    the data frame have the same (datetime, msisdn), every voice column
    sums over the merged frame to what it sums to over the voice frame; and
    likewise for the data columns when the voice frame has no two rows with
    the same key.  The rows the merge adds for keys of one frame only are
    filled with zeros and add nothing. *)
Theorem merge_keeps_totals
    (voice_df : list (usage_key * voice_columns))
    (data_df : list (usage_key * data_columns)) :
  (NoDup (map fst data_df) ->
   forall f : voice_columns -> Z, f voice_zero = 0 ->
     column_sum (fun row => f (snd (fst row))) (merged_df voice_df data_df) =
     column_sum (fun l => f (snd l)) voice_df)
  /\ (NoDup (map fst voice_df) ->
      forall g : data_columns -> Z, g data_zero = 0 ->
        column_sum (fun row => g (snd row)) (merged_df voice_df data_df) =
        column_sum (fun r => g (snd r)) data_df).
Proof.
  split.
  - intros Hd f Hz. now apply voice_side_total.
  - intros Hv g Hz. now apply data_side_total.
Qed.

(** Two voice rows and two data rows, one key in common. *)
Lemma merge_keeps_totals_witness :
  let other : usage_key := ("2025-12-07 12:15:00", "27820000001") in
  let third : usage_key := ("2025-12-07 12:15:00", "27820000002") in
  let voice_df := Fixtures.test_voice_df
                  ++ [(other, {| voice_call_count := 1; video_call_count := 0;
                                 total_call_duration_sec := 30 |})] in
  let data_df := Fixtures.test_data_df ++ map (fun r => (third, snd r)) Fixtures.test_data_df in
  column_sum (fun row => total_call_duration_sec (snd (fst row)))
             (merged_df voice_df data_df) =
  column_sum (fun l => total_call_duration_sec (snd l)) voice_df
  /\ column_sum (fun row => total_up (snd row)) (merged_df voice_df data_df) =
     column_sum (fun r => total_up (snd r)) data_df.
Proof.
  intros other third voice_df data_df. split.
  - apply (proj1 (merge_keeps_totals voice_df data_df)); [|reflexivity].
    repeat constructor; simpl; intuition discriminate.
  - apply (proj2 (merge_keeps_totals voice_df data_df)); [|reflexivity].
    repeat constructor; simpl; intuition discriminate.
Defined.

End MergeMore.

(** ** database.py: the tables and the passes *)

Module TablesFacts.
Import Schema Connection Crm Notions MoreNotions Tables.

Lemma create_no_connection c db e :
  fst (Database.get_db_connection c) = Raised e ->
  create_prepared_layer_tables c db = (Raised e, db).
Proof. intros H. unfold create_prepared_layer_tables. now rewrite H. Qed.

Lemma create_connected c db k :
  fst (Database.get_db_connection c) = Returned k ->
  create_prepared_layer_tables c db =
  (Returned tt,
   {| prepared_layers_schema := true;
      crm_flattened_balance := crm_flattened_balance db;
      cdr_tower_sessions := cdr_tower_sessions db;
      processing_state := processing_state db;
      cdr_data := cdr_data db;
      cdr_voice := cdr_voice db |}).
Proof. intros H. unfold create_prepared_layer_tables. now rewrite H. Qed.

(** X14: what [create_prepared_layer_tables] does for the two passes of
    crm.py.  It leaves the rows of crm_flattened_balance, and the table
    missing where it was missing, for it is not one of the tables it
    creates.  After it, a rebuild never fails for want of the schema; but a
    balance pass on a database without the table raises, having changed
    nothing, until a rebuild has run. *)
Theorem tables_then_passes c db db' :
  create_prepared_layer_tables c db = (Returned tt, db') ->
  crm_flattened_balance db' = crm_flattened_balance db /\
  (forall c1 c2 df now e db2,
     process_crm_data_1 c1 c2 df now db' = (Raised e, db2) ->
     e <> InvalidSchemaName)
  /\ (crm_flattened_balance db = None ->
      forall c', exists e,
        update_crm_balances_from_cdr c' db' = (Raised e, db') /\
        (e = UndefinedTable \/ e = CouldNotConnect)).
Proof.
  intros H.
  destruct (fst (Database.get_db_connection c)) as [k|e0] eqn:E.
  2:{ rewrite (create_no_connection _ _ _ E) in H. discriminate. }
  rewrite (create_connected _ _ _ E) in H. injection H as <-.
  split; [reflexivity|]. split.
  - intros c1 c2 df now e db2 Hp.
    destruct (CrmRebuildMore.process_crm_data_1_Raised _ _ _ _ _ _ _ Hp)
      as [[_ [E1 | [E2 | (_ & _ & Hs)]]] | (_ & _ & Hi & _)].
    + rewrite (DatabaseFacts.get_db_connection_raised _ _ E1). discriminate.
    + rewrite (DatabaseFacts.get_db_connection_raised _ _ E2). discriminate.
    + discriminate.
    + destruct (CrmRebuildMore.inserted_Raised _ _ _ Hi)
        as [-> | [-> | [-> | [-> | ->]]]]; discriminate.
  - intros Hnone c'.
    destruct (fst (Database.get_db_connection c')) as [k'|e'] eqn:E'.
    + exists UndefinedTable. split; [|now left].
      rewrite CrmBalanceFacts.update_connected by (eexists; eassumption).
      unfold balances, update_usage. cbn [crm_flattened_balance].
      now rewrite Hnone.
    + exists e'. split; [now apply CrmBalanceMore.update_no_connection|].
      right. exact (DatabaseFacts.get_db_connection_raised _ _ E').
Qed.

Lemma tables_then_passes_witness :
  let db := {| prepared_layers_schema := false;
               crm_flattened_balance := None;
               cdr_tower_sessions := [];
               processing_state := [];
               cdr_data := [Fixtures.data_record "27820000001" 1 2];
               cdr_voice := [] |} in
  let db' := snd (create_prepared_layer_tables always_up db) in
  crm_flattened_balance db' = crm_flattened_balance db /\
  (forall c1 c2 df now e db2,
     process_crm_data_1 c1 c2 df now db' = (Raised e, db2) ->
     e <> InvalidSchemaName)
  /\ (crm_flattened_balance db = None ->
      forall c', exists e,
        update_crm_balances_from_cdr c' db' = (Raised e, db') /\
        (e = UndefinedTable \/ e = CouldNotConnect)).
Proof.
  apply (tables_then_passes always_up). vm_compute. reflexivity.
Defined.

End TablesFacts.

(** ** proxy.py: what the client is sent *)

Module ProxyFacts.
Import Proxy MoreNotions.

Lemma status_lines_app l1 l2 :
  status_lines (l1 ++ l2) = status_lines l1 ++ status_lines l2.
Proof.
  induction l1 as [|c l1 IH]; simpl; [reflexivity|].
  destruct c; simpl; now rewrite IH.
Qed.

Lemma status_lines_headers (hs : list header) :
  status_lines (map (fun kv => send_header (fst kv) (snd kv)) hs) = [].
Proof. induction hs; simpl; auto. Qed.

Lemma headers_sent_app l1 l2 :
  headers_sent (l1 ++ l2) = headers_sent l1 ++ headers_sent l2.
Proof.
  induction l1 as [|c l1 IH]; simpl; [reflexivity|].
  destruct c; simpl; now rewrite IH.
Qed.

Lemma headers_sent_headers (hs : list header) :
  headers_sent (map (fun kv => send_header (fst kv) (snd kv)) hs) = hs.
Proof. induction hs as [|[k v] hs IH]; simpl; [reflexivity | now rewrite IH]. Qed.

Lemma hop_by_hop_false k :
  hop_by_hop k = false <->
  lower k <> "transfer-encoding" /\ lower k <> "connection" /\
  lower k <> "keep-alive".
Proof.
  unfold hop_by_hop. rewrite !orb_false_iff, !String.eqb_neq. tauto.
Qed.

(** X15: a proxied request whose [Request] object can be built is answered
    with the status the backend gave, 502 when the backend could not be
    reached, and with one status line: except when reading the body of the
    backend's response fails, for then the headers are out already and a
    second status line, 502, follows them.  When [Request] raises, as for a
    BACKEND without a scheme, the client is sent nothing, not even a 502:
    that call is outside the [try] and the exception leaves [do_GET]. *)
Theorem proxied_status {R} BACKEND (Request : string -> list header -> option R)
    urlopen static path headers :
  proxied path = true ->
  match Request (BACKEND ++ path)%string (dict_of headers) with
  | None => do_GET BACKEND Request urlopen static path headers = Raises
  | Some req =>
      exists calls,
        do_GET BACKEND Request urlopen static path headers = Returns calls /\
        status_lines calls =
        if read_fails (urlopen req) then [status_of (urlopen req); 502]
        else [status_of (urlopen req)]
  end.
Proof.
  intros Hp. unfold do_GET. rewrite Hp.
  destruct (Request (BACKEND ++ path)%string (dict_of headers)) as [req|];
    [|reflexivity].
  destruct (urlopen req) as [code hs [data|message] | code [data|] | message];
    eexists; (split; [reflexivity|]); simpl; try reflexivity;
    now rewrite status_lines_app, status_lines_headers.
Qed.

(** The backend answers 200 and closes the connection half way through the
    body; and a BACKEND that is a bare host name. *)
Lemma proxied_status_witness :
  let Request := fun (target : string) (hs : list header) =>
                   if prefix "http://" target then Some (target, hs) else None in
  let urlopen := fun (_ : string * list header) =>
                   Response 200 [("Content-Type", "application/json")]
                     (inr "IncompleteRead(10 bytes read, 90 more expected)") in
  (exists calls,
     do_GET "http://localhost:5000" Request urlopen (fun _ => []) "/api/usage"
       [("Host", "localhost:8000")] = Returns calls /\
     status_lines calls = [200; 502])
  /\ do_GET "localhost" Request urlopen (fun _ => []) "/api/usage"
       [("Host", "localhost:8000")] = Raises.
Proof.
  intros Request urlopen. split.
  - apply (proxied_status "http://localhost:5000" Request urlopen (fun _ => [])
             "/api/usage" [("Host", "localhost:8000")]).
    reflexivity.
  - apply (proxied_status "localhost" Request urlopen (fun _ => [])
             "/api/usage" [("Host", "localhost:8000")]).
    reflexivity.
Defined.

(** X16: of the headers of the backend's response the handler passes on, in
    their order, those and only those whose name is not Transfer-Encoding,
    Connection or Keep-Alive in whatever case; for an error of the backend,
    and when there was no request, it passes on none. *)
Theorem proxied_headers {R} BACKEND (Request : string -> list header -> option R)
    urlopen static path headers :
  proxied path = true ->
  let hs := backend_headers Request urlopen (BACKEND ++ path)%string
              (dict_of headers) in
  let sent := headers_sent
                (sent_by (do_GET BACKEND Request urlopen static path headers)) in
  sent = filter (fun kv => negb (hop_by_hop (fst kv))) hs /\
  (forall k v, In (k, v) sent <->
     In (k, v) hs /\
     lower k <> "transfer-encoding" /\ lower k <> "connection" /\
     lower k <> "keep-alive").
Proof.
  intros Hp hs sent.
  assert (Hs : sent = filter (fun kv => negb (hop_by_hop (fst kv))) hs).
  { unfold sent, hs, backend_headers, do_GET. rewrite Hp.
    destruct (Request (BACKEND ++ path)%string (dict_of headers)) as [req|];
      [|reflexivity].
    destruct (urlopen req) as [code rhs body | code [data|] | message]; simpl;
      try reflexivity.
    rewrite headers_sent_app, headers_sent_headers.
    destruct body; simpl; now rewrite app_nil_r. }
  split; [exact Hs|].
  intros k v. rewrite Hs, filter_In, negb_true_iff. cbn [fst].
  now rewrite hop_by_hop_false.
Qed.

Lemma proxied_headers_witness :
  let hs := [("Content-Type", "application/json"); ("Connection", "close");
             ("KEEP-ALIVE", "timeout=5"); ("Content-Length", "2")] in
  let Request := fun (target : string) (h : list header) => Some (target, h) in
  let urlopen := fun (_ : string * list header) => Response 200 hs (inl "{}") in
  let sent := headers_sent
                (sent_by (do_GET "http://localhost:5000" Request urlopen
                            (fun _ => []) "/health" [])) in
  sent = filter (fun kv => negb (hop_by_hop (fst kv))) hs /\
  (forall k v, In (k, v) sent <->
     In (k, v) hs /\
     lower k <> "transfer-encoding" /\ lower k <> "connection" /\
     lower k <> "keep-alive").
Proof.
  intros hs Request urlopen.
  apply (proxied_headers "http://localhost:5000" Request urlopen
           (fun _ => []) "/health" []).
  reflexivity.
Defined.

End ProxyFacts.

(** ** validate_services_in_docs.py: the names taken from the documents *)

Module ValidateDocsFacts.
Import ValidateDocs.

Lemma dropwhile_incl {A} (p : A -> bool) (l : list A) (x : A) :
  In x (dropwhile p l) -> In x l.
Proof.
  induction l as [|y l IH]; simpl; [tauto|].
  destruct (p y); simpl; tauto.
Qed.

Lemma dropwhile_ext_in {A} (p q : A -> bool) (l : list A) :
  (forall x, In x l -> p x = q x) -> dropwhile p l = dropwhile q l.
Proof.
  induction l as [|y l IH]; simpl; intros H; [reflexivity|].
  rewrite <- (H y) by auto. destruct (p y); [apply IH; auto | reflexivity].
Qed.

Lemma dropwhile_all {A} (p : A -> bool) (l : list A) :
  Forall (fun x => p x = true) l -> dropwhile p l = [].
Proof. induction 1 as [|x l Hx _ IH]; simpl; [reflexivity | now rewrite Hx]. Qed.

Lemma str_eqb_In r services :
  existsb (str_eqb r) services = true <-> In r services.
Proof.
  rewrite existsb_exists. unfold str_eqb. split.
  - intros (x & Hx & E). destruct (list_eq_dec N.eq_dec r x); [now subst | discriminate].
  - intros H. exists r. split; [exact H|].
    now destruct (list_eq_dec N.eq_dec r r).
Qed.

Section Whitespace.

Variable isspace : N -> bool.

Lemma strip_incl s c : In c (strip isspace s) -> In c s.
Proof.
  unfold strip. rewrite <- in_rev. intros H.
  apply dropwhile_incl in H. rewrite <- in_rev in H.
  now apply dropwhile_incl in H.
Qed.

Lemma re_split_incl s cur in_run t c :
  In t (re_split isspace s cur in_run) -> In c t -> In c s \/ In c cur.
Proof.
  revert cur in_run. induction s as [|x s IH]; intros cur in_run; simpl.
  - intros [<-|[]] Hc. right. now apply in_rev.
  - destruct (isspace x).
    + destruct in_run.
      * intros Ht Hc. destruct (IH _ _ Ht Hc) as [H|[]]. auto.
      * intros [<-|Ht] Hc; [right; now apply in_rev|].
        destruct (IH _ _ Ht Hc) as [H|[]]. auto.
    + intros Ht Hc. destruct (IH _ _ Ht Hc) as [H|[<-|H]]; auto.
Qed.

Lemma tokens_incl tail t c : In t (tokens isspace tail) -> In c t -> In c tail.
Proof.
  unfold tokens. intros Ht Hc. apply filter_In in Ht. destruct Ht as [Ht _].
  destruct (re_split_incl _ _ _ _ _ Ht Hc) as [H|[]].
  now apply strip_incl in H.
Qed.

Lemma group1_no_backtick tail :
  isspace backtick = false -> group1 isspace tail -> ~ In backtick tail.
Proof.
  intros Hb (ws & body & -> & _ & _ & Hws & Hbody) Hin.
  apply in_app_or in Hin. destruct Hin as [Hin|Hin].
  - rewrite Forall_forall in Hws. specialize (Hws _ Hin). congruence.
  - rewrite Forall_forall in Hbody. now destruct (Hbody _ Hin).
Qed.

Lemma no_fence t :
  ~ In backtick t -> startswith [backtick; backtick; backtick] t = false.
Proof.
  destruct t as [|c t]; [reflexivity|]. intros H. cbn [startswith].
  destruct (N.eqb_spec backtick c) as [E|E]; [|reflexivity].
  exfalso. apply H. left. now symmetry.
Qed.

Lemma rstrip_no_backtick t :
  ~ In backtick t ->
  rstrip [backtick; comma; full_stop] t = rstrip [comma; full_stop] t.
Proof.
  intros H. unfold rstrip. f_equal. apply dropwhile_ext_in.
  intros c Hc. apply in_rev in Hc. cbn [existsb].
  destruct (N.eqb_spec c backtick) as [->|E]; [contradiction | reflexivity].
Qed.

Lemma add_refs_no_backtick ts refs :
  (forall t, In t ts -> ~ In backtick t) ->
  add_refs ts refs = refs ++ map (rstrip [comma; full_stop]) ts.
Proof.
  revert refs. induction ts as [|t ts IH]; intros refs H; cbn [add_refs map].
  - now rewrite app_nil_r.
  - rewrite no_fence by (apply H; now left).
    rewrite IH by (intros; apply H; now right).
    rewrite rstrip_no_backtick by (apply H; now left).
    now rewrite <- app_assoc.
Qed.

(** X17: the check for a code fence never fires, and stripping the
    backtick strips nothing.  The pattern stops a match at the first
    backtick, so no token has one: every token that does not start with a
    hyphen adds one name, the token without its trailing commas and full
    stops, and the loop always runs to the end. *)
Theorem fence_check_never_fires tail refs :
  isspace backtick = false -> group1 isspace tail ->
  add_refs (tokens isspace tail) refs =
  refs ++ map (rstrip [comma; full_stop]) (tokens isspace tail).
Proof.
  intros Hb Hg. apply add_refs_no_backtick. intros t Ht Hin.
  apply (group1_no_backtick tail Hb Hg). exact (tokens_incl _ _ _ Ht Hin).
Qed.

(** The names a list of matches gives. *)
Lemma refs_of_tails tails refs :
  isspace backtick = false -> Forall (group1 isspace) tails ->
  fold_left (fun refs tail => add_refs (tokens isspace tail) refs) tails refs =
  refs ++ flat_map (fun tail => map (rstrip [comma; full_stop])
                                    (tokens isspace tail)) tails.
Proof.
  intros Hb HF. revert refs.
  induction HF as [|tail tails Hg _ IH]; intros refs; cbn [fold_left flat_map].
  - now rewrite app_nil_r.
  - rewrite IH, add_refs_no_backtick, <- app_assoc; [reflexivity|].
    intros t Ht Hin.
    apply (group1_no_backtick tail Hb Hg). exact (tokens_incl _ _ _ Ht Hin).
Qed.

Lemma main_missing services docs :
  main isspace (Some services) docs = 1 <->
  exists r, In r (find_doc_service_references isspace docs) /\ ~ In r services.
Proof.
  unfold main. set (refs := find_doc_service_references isspace docs).
  split.
  - destruct refs as [|r0 refs0] eqn:E; [discriminate|]. rewrite <- E.
    destruct (filter _ refs) as [|r l] eqn:F; [discriminate|]. intros _.
    assert (Hr : In r (filter (fun r => negb (existsb (str_eqb r) services)) refs))
      by (rewrite F; now left).
    apply filter_In in Hr. destruct Hr as [Hr Hn]. exists r. split; [exact Hr|].
    intros Hin. apply str_eqb_In in Hin. rewrite Hin in Hn. discriminate.
  - intros (r & Hr & Hn).
    assert (Hf : In r (filter (fun r => negb (existsb (str_eqb r) services)) refs)).
    { apply filter_In. split; [exact Hr|].
      destruct (existsb (str_eqb r) services) eqn:E; [|reflexivity].
      apply str_eqb_In in E. contradiction. }
    destruct refs as [|r0 refs0] eqn:E; [destruct Hr|]. rewrite <- E in *.
    destruct (filter _ refs); [destruct Hf | reflexivity].
Qed.

Lemma main_codes services docs :
  main isspace (Some services) docs = 0 \/ main isspace (Some services) docs = 1.
Proof.
  unfold main. destruct (find_doc_service_references isspace docs); [now left|].
  destruct (filter _ _); auto.
Qed.

Lemma rstrip_all chars t :
  Forall (fun c => In c chars) t -> rstrip chars t = [].
Proof.
  intros H. unfold rstrip. rewrite dropwhile_all; [reflexivity|].
  apply Forall_rev. eapply Forall_impl; [|exact H].
  intros c Hc. apply existsb_exists. exists c. split; [exact Hc | apply N.eqb_refl].
Qed.

(** X18: with docker-compose.yml in place, [main] returns 1 exactly when
    some token after a documented compose-up command, flags apart and
    trailing commas and full stops cut off, is not a service name; it
    returns 0 otherwise. *)
Theorem main_exit_code services files :
  isspace backtick = false -> Forall (Forall (group1 isspace)) files ->
  (main isspace (Some services) (Some files) = 1 <->
   exists tail t,
     In tail (List.concat files) /\ In t (tokens isspace tail) /\
     ~ In (rstrip [comma; full_stop] t) services)
  /\ (main isspace (Some services) (Some files) <> 1 ->
      main isspace (Some services) (Some files) = 0).
Proof.
  intros Hb HF. split.
  - rewrite main_missing. cbn [find_doc_service_references].
    rewrite refs_of_tails by (exact Hb || now apply Forall_concat).
    cbn [app]. split.
    + intros (r & Hr & Hn). apply in_flat_map in Hr.
      destruct Hr as (tail & Htail & Hr). apply in_map_iff in Hr.
      destruct Hr as (t & <- & Ht). eauto.
    + intros (tail & t & Htail & Ht & Hn). eexists. split; [|exact Hn].
      apply in_flat_map. exists tail. split; [exact Htail|]. now apply in_map.
  - intros H. destruct (main_codes services (Some files)); tauto.
Qed.

(** X19: a token made of commas and full stops only stands for no service,
    yet it is taken for a name, the empty one, and [main] returns 1 unless
    the empty string is a service. *)
Theorem punctuation_is_a_missing_service services files tail t :
  isspace backtick = false -> Forall (Forall (group1 isspace)) files ->
  In tail (List.concat files) -> In t (tokens isspace tail) ->
  Forall (fun c => c = comma \/ c = full_stop) t ->
  ~ In [] services ->
  In [] (find_doc_service_references isspace (Some files)) /\
  main isspace (Some services) (Some files) = 1.
Proof.
  intros Hb HF Htail Ht Hp Hs.
  assert (Hin : In [] (find_doc_service_references isspace (Some files))).
  { cbn [find_doc_service_references].
    rewrite refs_of_tails by (exact Hb || now apply Forall_concat).
    cbn [app]. apply in_flat_map. exists tail. split; [exact Htail|].
    apply in_map_iff. exists t. split; [|exact Ht].
    apply rstrip_all. eapply Forall_impl; [|exact Hp].
    intros c [->| ->]; simpl; auto. }
  split; [exact Hin|]. apply main_missing. exists []. auto.
Qed.

End Whitespace.

Lemma group1_parts isspace (ws body : str) :
  ws <> [] -> body <> [] ->
  forallb isspace ws = true ->
  forallb (fun c => negb (c =? newline)%N && negb (c =? backtick)%N) body = true ->
  group1 isspace (ws ++ body).
Proof.
  intros Hw Hb Hws Hbody. exists ws, body.
  split; [reflexivity|]. split; [exact Hw|]. split; [exact Hb|]. split.
  - apply Forall_forall. now apply forallb_forall.
  - apply Forall_forall. intros c Hc.
    rewrite forallb_forall in Hbody. specialize (Hbody _ Hc).
    apply andb_true_iff in Hbody. destruct Hbody as [Hn Hq].
    split; intros ->; discriminate.
Qed.

(** [docker compose up -d api, web.] *)
Lemma fence_check_never_fires_witness :
  let tail := codes " " ++ codes "-d api, web." in
  tokens isspace_latin1 tail = [codes "api,"; codes "web."] /\
  add_refs (tokens isspace_latin1 tail) [] =
  [] ++ map (rstrip [comma; full_stop]) (tokens isspace_latin1 tail).
Proof.
  split; [reflexivity|].
  apply (fence_check_never_fires isspace_latin1
           (codes " " ++ codes "-d api, web.") []).
  - reflexivity.
  - apply group1_parts; [discriminate | discriminate | reflexivity | reflexivity].
Defined.

Lemma main_exit_code_witness :
  let services := [codes "api"; codes "web"] in
  let files := [[codes " " ++ codes "-d api, web."]; [codes " " ++ codes "db"]] in
  (main isspace_latin1 (Some services) (Some files) = 1 <->
   exists tail t,
     In tail (List.concat files) /\ In t (tokens isspace_latin1 tail) /\
     ~ In (rstrip [comma; full_stop] t) services)
  /\ (main isspace_latin1 (Some services) (Some files) <> 1 ->
      main isspace_latin1 (Some services) (Some files) = 0).
Proof.
  apply (main_exit_code isspace_latin1 [codes "api"; codes "web"]
           [[codes " " ++ codes "-d api, web."]; [codes " " ++ codes "db"]]).
  - reflexivity.
  - repeat constructor;
      (apply group1_parts; [discriminate | discriminate | reflexivity | reflexivity]).
Defined.

(** [docker compose up api , web] with the services api and web. *)
Lemma punctuation_is_a_missing_service_witness :
  let services := [codes "api"; codes "web"] in
  let files := [[codes " " ++ codes "api , web"]] in
  In [] (find_doc_service_references isspace_latin1 (Some files)) /\
  main isspace_latin1 (Some services) (Some files) = 1.
Proof.
  apply (punctuation_is_a_missing_service isspace_latin1
           [codes "api"; codes "web"] [[codes " " ++ codes "api , web"]]
           (codes " " ++ codes "api , web") [comma]).
  - reflexivity.
  - repeat constructor.
    apply group1_parts; [discriminate | discriminate | reflexivity | reflexivity].
  - left. reflexivity.
  - vm_compute. right. left. reflexivity.
  - repeat constructor.
  - intros [H|[H|[]]]; discriminate.
Defined.

End ValidateDocsFacts.
